(** * blankpage: the Worker request handler and the editor's autosave machine

    A shallow embedding of the two cooperating pieces of the application:

    - [Worker]: the Cloudflare Worker `fetch` handler (login, memo CRUD over
      D1 with KV caches, the cloud clip slot), as a state-passing function
      over the two stores it talks to;
    - [App]: the script of `src/App.vue`, as a step function of the browser's
      event loop (user events, timeouts, HTTP replies), one step per
      run-to-completion segment of the asynchronous functions.

    Strings are [string]; a character stands for one UTF-16 code unit of the
    JavaScript string. *)

From Stdlib Require Import ZArith NArith Ascii String List Lia.
From stdpp Require Import base tactics option list strings pretty gmap fin_maps.

Local Open Scope string_scope.
Local Open Scope Z_scope.

(** ** JSON documents *)

#[local] Unset Elimination Schemes.
Inductive json : Type :=
| JNull
| JBool (b : bool)
| JNum (n : Z)
| JStr (s : string)
| JArr (items : list json)
| JObj (fields : list (string * json)).
#[local] Set Elimination Schemes.

(** JavaScript truthiness of a parsed JSON value. *)
Definition truthy (v : json) : bool :=
  match v with
  | JNull => false
  | JBool b => b
  | JNum n => negb (n =? 0)
  | JStr s => negb (bool_decide (s = ""))
  | JArr _ | JObj _ => true
  end.

(** [own_prop k fs]: the property [k] of the object [JSON.parse] builds from
    the members [fs]; a later member overwrites an earlier one of the same
    name. *)
Fixpoint own_prop (k : string) (fs : list (string * json)) : option json :=
  match fs with
  | [] => None
  | (k', v) :: fs' =>
      match own_prop k fs' with
      | Some w => Some w
      | None => if bool_decide (k' = k) then Some v else None
      end
  end.

(** [get_prop v k] is `v.k` for one of the names the handler reads
    ([content], [text], [password]); [None] is `undefined`.  Numbers,
    booleans, strings and arrays have no such property. *)
Definition get_prop (v : json) (k : string) : option json :=
  match v with
  | JObj fs => own_prop k fs
  | _ => None
  end.

(** `typeof x === "string"` on a property read. *)
Definition as_string (x : option json) : option string :=
  match x with
  | Some (JStr s) => Some s
  | _ => None
  end.

Module Worker.

(** ** Data *)

Record MemoRow : Type := mkMemo {
  m_id : N;
  m_content : string;
  m_created_at : string;
  m_updated_at : string
}.

(** The environment bindings.  The three TTL variables are kept as the value
    [Number(...)] reads from them: [Some n] for a finite (whole) number,
    [None] when the variable is undefined or does not read as a finite
    number. *)
Record Env : Type := {
  APP_PASSWORD : string;
  SESSION_TTL_SECONDS : option Z;
  CLIP_TTL_SECONDS : option Z;
  CACHE_TTL_SECONDS : option Z
}.

Definition API_PREFIX : string := "/api".
Definition MEMO_LIST_CACHE_KEY : string := "memo:list".
Definition CLIP_CACHE_KEY : string := "clip:latest".

(** What one invocation reads from the runtime: the KV clock in seconds, the
    result of `new Date().toISOString()` and of `crypto.randomUUID()`. *)
Record Ambient : Type := {
  now : Z;
  iso_now : string;
  uuid : string
}.

Record Request : Type := {
  method : string;
  pathname : string;
  authorization : option string;   (* the Authorization header *)
  json_body : option json          (* [None]: `request.json()` throws *)
}.

(** A response: its status and its JSON body ([None] for `new Response(null)`).
    The CORS headers [applyCors] adds leave both untouched. *)
Record Response : Type := {
  status : Z;
  body : option json
}.

(** ** The two stores *)

(** A value held by the KV namespace.  The handler writes the literal text
    `1` for a session and `JSON.stringify d` for everything else; a
    stringified document is carried as the document, [JSON.parse] giving it
    back. *)
Inductive text : Type :=
| Raw (s : string)
| Stringified (d : json).

(** `if (cached)`: a text is falsy when it is the empty string, which no
    JSON text is. *)
Definition text_truthy (t : text) : bool :=
  match t with
  | Raw s => negb (bool_decide (s = ""))
  | Stringified _ => true
  end.

Record kv_entry : Type := {
  kv_text : text;
  kv_expires : Z          (* first second at which the key is gone *)
}.

Record D1 : Type := {
  memos : list MemoRow;
  last_row_id : N
}.

(** The operations a handler run performs on the stores, in order. *)
Inductive store_op : Type :=
| KvGet (k : string)
| KvPut (k : string)
| KvDelete (k : string)
| DbAll
| DbInsert
| DbFirst (id : N)
| DbUpdate (id : N)
| DbDelete (id : N).

Record World : Type := {
  DB : D1;
  MEMO_KV : gmap string kv_entry;
  ops : list store_op
}.

Definition log (o : store_op) (w : World) : World :=
  {| DB := DB w; MEMO_KV := MEMO_KV w; ops := ops w ++ [o] |}.

Definition set_kv (kv : gmap string kv_entry) (w : World) : World :=
  {| DB := DB w; MEMO_KV := kv; ops := ops w |}.

Definition set_db (db : D1) (w : World) : World :=
  {| DB := db; MEMO_KV := MEMO_KV w; ops := ops w |}.

(** *** KV with expiration *)

Definition kv_get (t : Z) (k : string) (kv : gmap string kv_entry) : option text :=
  match kv !! k with
  | Some e => if t <? kv_expires e then Some (kv_text e) else None
  | None => None
  end.

Definition kv_put (t : Z) (k : string) (v : text) (ttl : Z)
    (kv : gmap string kv_entry) : gmap string kv_entry :=
  <[k := {| kv_text := v; kv_expires := t + ttl |}]> kv.

(** *** The memos table *)

Definition has_id (i : N) (r : MemoRow) : bool := bool_decide (m_id r = i).

(** `ORDER BY updated_at DESC`: a stable insertion sort on the timestamp
    texts. *)
Fixpoint insert_desc (r : MemoRow) (l : list MemoRow) : list MemoRow :=
  match l with
  | [] => [r]
  | x :: l' =>
      if String.ltb (m_updated_at x) (m_updated_at r)
      then r :: x :: l'
      else x :: insert_desc r l'
  end.

Definition order_by_updated_desc (l : list MemoRow) : list MemoRow :=
  foldr insert_desc [] l.

Definition db_all (db : D1) : list MemoRow := order_by_updated_desc (memos db).

(** Modelled from the spec: the memos table and its identifier assignment
    (the migration declaring the table is not among the sources).  The store
    assigns the identifier on creation and never reuses one: the next row
    gets the successor of the last identifier handed out. *)
Definition db_insert (c t : string) (db : D1) : N * D1 :=
  let i := (last_row_id db + 1)%N in
  (i, {| memos := memos db ++ [mkMemo i c t t]; last_row_id := i |}).

Definition db_first (i : N) (db : D1) : option MemoRow :=
  find (has_id i) (memos db).

Definition touch (i : N) (c t : string) (r : MemoRow) : MemoRow :=
  if has_id i r then mkMemo (m_id r) c (m_created_at r) t else r.

(** `UPDATE ... WHERE id = ?3`, with `meta.changes`. *)
Definition db_update (c t : string) (i : N) (db : D1) : nat * D1 :=
  (length (filter (λ r, has_id i r = true) (memos db)),
   {| memos := map (touch i c t) (memos db); last_row_id := last_row_id db |}).

(** `DELETE ... WHERE id = ?1`, with `meta.changes`. *)
Definition db_delete (i : N) (db : D1) : nat * D1 :=
  (length (filter (λ r, has_id i r = true) (memos db)),
   {| memos := filter (λ r, has_id i r = false) (memos db);
      last_row_id := last_row_id db |}).

(** ** The handler monad: state passing over the world *)

Definition M (A : Type) : Type := World → A * World.

Definition ret {A} (a : A) : M A := λ w, (a, w).

Definition bind {A B} (m : M A) (k : A → M B) : M B :=
  λ w, let '(a, w') := m w in k a w'.

Notation "'let*' x ':=' m 'in' k" := (bind m (λ x, k))
  (at level 10, x pattern, m at level 200, k at level 200).

Definition KV_get (t : Z) (k : string) : M (option text) :=
  λ w, (kv_get t k (MEMO_KV w), log (KvGet k) w).

Definition KV_put (t : Z) (k : string) (v : text) (ttl : Z) : M unit :=
  λ w, (tt, log (KvPut k) (set_kv (kv_put t k v ttl (MEMO_KV w)) w)).

Definition KV_delete (k : string) : M unit :=
  λ w, (tt, log (KvDelete k) (set_kv (delete k (MEMO_KV w)) w)).

Definition DB_all : M (list MemoRow) :=
  λ w, (db_all (DB w), log DbAll w).

Definition DB_insert (c t : string) : M N :=
  λ w, let '(i, db) := db_insert c t (DB w) in (i, log DbInsert (set_db db w)).

Definition DB_first (i : N) : M (option MemoRow) :=
  λ w, (db_first i (DB w), log (DbFirst i) w).

Definition DB_update (c t : string) (i : N) : M nat :=
  λ w, let '(n, db) := db_update c t i (DB w) in (n, log (DbUpdate i) (set_db db w)).

Definition DB_delete (i : N) : M nat :=
  λ w, let '(n, db) := db_delete i (DB w) in (n, log (DbDelete i) (set_db db w)).

(** ** Helpers of the handler *)

Definition row_json (r : MemoRow) : json :=
  JObj [("id", JNum (Z.of_N (m_id r))); ("content", JStr (m_content r));
        ("created_at", JStr (m_created_at r)); ("updated_at", JStr (m_updated_at r))].

Definition rows_json (l : list MemoRow) : json := JArr (map row_json l).

Definition error_json (code : string) : json := JObj [("error", JStr code)].

Definition jsonResponse (data : json) (st : Z) : Response :=
  {| status := st; body := Some data |}.

(** [JSON.parse] of a stored text.  Only the session marker is stored raw,
    under an `auth:token:` key that no route parses; parsing a raw text is
    left to the runtime as an uncaught exception. *)
Definition JSON_parse (t : text) : option json :=
  match t with
  | Stringified d => Some d
  | Raw _ => None
  end.

(** `respondJson(JSON.parse(cached))`. *)
Definition respond_parsed (t : text) : Response :=
  match JSON_parse t with
  | Some d => jsonResponse d 200
  | None => {| status := 500; body := None |}
  end.

Definition getNumberEnv (value : option Z) (fallback : Z) : Z :=
  match value with
  | Some parsed => if 0 <? parsed then parsed else fallback
  | None => fallback
  end.

Definition readJson (request : Request) : json :=
  match json_body request with
  | Some v => v
  | None => JNull
  end.

(** `header.split(" ")`. *)
Fixpoint split_space (cur : string) (s : string) : list string :=
  match s with
  | EmptyString => [String.rev cur]
  | String c s' =>
      if bool_decide (c = " "%char) then String.rev cur :: split_space "" s'
      else split_space (String c cur) s'
  end.

Definition getBearerToken (request : Request) : option string :=
  let header := default "" (authorization request) in
  match split_space "" header with
  | type :: token :: _ =>
      if bool_decide (type = "Bearer") && negb (bool_decide (token = ""))
      then Some token else None
  | _ => None
  end.

Definition requireAuth (request : Request) (amb : Ambient) : M (Response + string) :=
  match getBearerToken request with
  | None => ret (inl (jsonResponse (error_json "unauthorized") 401))
  | Some token =>
      let* exists_ := KV_get (now amb) ("auth:token:" +:+ token) in
      match exists_ with
      | Some t =>
          if text_truthy t then ret (inr token)
          else ret (inl (jsonResponse (error_json "unauthorized") 401))
      | None => ret (inl (jsonResponse (error_json "unauthorized") 401))
      end
  end.

(** The pattern `/^\/api\/memos\/(\d+)$/`. *)
Definition is_digit (c : ascii) : bool :=
  match Ascii.is_nat c with Some _ => true | None => false end.

Fixpoint all_digits (s : string) : bool :=
  match s with
  | EmptyString => true
  | String c s' => is_digit c && all_digits s'
  end.

Fixpoint strip_prefix (p s : string) : option string :=
  match p, s with
  | EmptyString, _ => Some s
  | String a p', String b s' => if bool_decide (a = b) then strip_prefix p' s' else None
  | String _ _, EmptyString => None
  end.

Definition memoIdMatch (path : string) : option string :=
  match strip_prefix "/api/memos/" path with
  | Some d => if negb (bool_decide (d = "")) && all_digits d then Some d else None
  | None => None
  end.

(** `Number(memoIdMatch[1])` on a run of decimal digits, read exactly.  The
    source's number is a double: it agrees with this reading below 2^53,
    where the identifiers of the table live, and rounds from 2^53 + 1 on.
    A statement about the identifier read holds either way; one about an
    identifier given in advance carries the bound. *)
Definition Number_of_digits (d : string) : N :=
  let fix go (acc : N) (s : string) : N :=
    match s with
    | EmptyString => acc
    | String c s' => go (10 * acc + N.of_nat (default 0%nat (Ascii.is_nat c)))%N s'
    end in
  go 0%N d.

(** The template `memo:${id}`: plain decimal digits, as the source writes
    a number below 1e21. *)
Definition memo_cache_key (i : N) : string := "memo:" +:+ pretty i.

(** ** The routes of [fetch], in the order the handler tests them *)

(** `POST /api/login`. *)
Definition login_route (env : Env) (amb : Ambient) (request : Request) : M Response :=
  let body := readJson request in
  let password := get_prop body "password" in
  if negb (match password with Some p => truthy p | None => false end)
     || negb (bool_decide (as_string password = Some (APP_PASSWORD env)))
  then ret (jsonResponse (error_json "invalid_credentials") 401)
  else
    let token := uuid amb in
    let ttl := getNumberEnv (SESSION_TTL_SECONDS env) (60 * 60 * 24 * 7) in
    let* _ := KV_put (now amb) ("auth:token:" +:+ token) (Raw "1") ttl in
    ret (jsonResponse (JObj [("token", JStr token)]) 200).

(** `GET /api/memos`. *)
Definition list_memos (env : Env) (amb : Ambient) : M Response :=
  let* cached := KV_get (now amb) MEMO_LIST_CACHE_KEY in
  let miss : M Response :=
    let* rows := DB_all in
    let ttl := getNumberEnv (CACHE_TTL_SECONDS env) 60 in
    let* _ := KV_put (now amb) MEMO_LIST_CACHE_KEY (Stringified (rows_json rows)) ttl in
    ret (jsonResponse (rows_json rows) 200) in
  match cached with
  | Some t => if text_truthy t then ret (respond_parsed t) else miss
  | None => miss
  end.

(** `POST /api/memos`. *)
Definition create_memo (amb : Ambient) (request : Request) : M Response :=
  let body := readJson request in
  match (if truthy body then as_string (get_prop body "content") else None) with
  | None => ret (jsonResponse (error_json "invalid_payload") 400)
  | Some content =>
      let now_ := iso_now amb in
      let* id := DB_insert content now_ in
      let* _ := KV_delete MEMO_LIST_CACHE_KEY in
      let memo := mkMemo id content now_ now_ in
      ret (jsonResponse (row_json memo) 201)
  end.

(** `GET /api/memos/{id}`. *)
Definition read_memo (env : Env) (amb : Ambient) (id : N) : M Response :=
  let cacheKey := memo_cache_key id in
  let* cached := KV_get (now amb) cacheKey in
  let miss : M Response :=
    let* row := DB_first id in
    match row with
    | None => ret (jsonResponse (error_json "not_found") 404)
    | Some r =>
        let ttl := getNumberEnv (CACHE_TTL_SECONDS env) 60 in
        let* _ := KV_put (now amb) cacheKey (Stringified (row_json r)) ttl in
        ret (jsonResponse (row_json r) 200)
    end in
  match cached with
  | Some t => if text_truthy t then ret (respond_parsed t) else miss
  | None => miss
  end.

(** `PUT /api/memos/{id}`. *)
Definition update_memo (amb : Ambient) (request : Request) (id : N) : M Response :=
  let cacheKey := memo_cache_key id in
  let body := readJson request in
  match (if truthy body then as_string (get_prop body "content") else None) with
  | None => ret (jsonResponse (error_json "invalid_payload") 400)
  | Some content =>
      let now_ := iso_now amb in
      let* changes := DB_update content now_ id in
      if bool_decide (changes = 0%nat)
      then ret (jsonResponse (error_json "not_found") 404)
      else
        let* _ := KV_delete MEMO_LIST_CACHE_KEY in
        let* _ := KV_delete cacheKey in
        let* row := DB_first id in
        ret (jsonResponse (row_json (default (mkMemo id content now_ now_) row)) 200)
  end.

(** `DELETE /api/memos/{id}`. *)
Definition delete_memo (id : N) : M Response :=
  let cacheKey := memo_cache_key id in
  let* changes := DB_delete id in
  if bool_decide (changes = 0%nat)
  then ret (jsonResponse (error_json "not_found") 404)
  else
    let* _ := KV_delete MEMO_LIST_CACHE_KEY in
    let* _ := KV_delete cacheKey in
    ret {| status := 204; body := None |}.

(** `GET /api/clip`. *)
Definition read_clip (amb : Ambient) : M Response :=
  let* cached := KV_get (now amb) CLIP_CACHE_KEY in
  match cached with
  | Some t =>
      if text_truthy t then ret (respond_parsed t)
      else ret (jsonResponse (JObj [("text", JNull)]) 200)
  | None => ret (jsonResponse (JObj [("text", JNull)]) 200)
  end.

(** `POST /api/clip`. *)
Definition save_clip (env : Env) (amb : Ambient) (request : Request) : M Response :=
  let body := readJson request in
  match (if truthy body then as_string (get_prop body "text") else None) with
  | None => ret (jsonResponse (error_json "invalid_payload") 400)
  | Some text_ =>
      let payload := JObj [("text", JStr text_); ("created_at", JStr (iso_now amb))] in
      let ttl := getNumberEnv (CLIP_TTL_SECONDS env) (60 * 60 * 24) in
      let* _ := KV_put (now amb) CLIP_CACHE_KEY (Stringified payload) ttl in
      ret (jsonResponse payload 201)
  end.

(** The tail of [fetch] after the memo-id block: the clip routes and the
    final `not_found`. *)
Definition clip_or_not_found (env : Env) (amb : Ambient) (request : Request) : M Response :=
  if bool_decide (pathname request = API_PREFIX +:+ "/clip")
     && bool_decide (method request = "GET")
  then read_clip amb
  else if bool_decide (pathname request = API_PREFIX +:+ "/clip")
     && bool_decide (method request = "POST")
  then save_clip env amb request
  else ret (jsonResponse (error_json "not_found") 404).

(** Everything behind the authentication check. *)
Definition routes (env : Env) (amb : Ambient) (request : Request) : M Response :=
  if bool_decide (pathname request = API_PREFIX +:+ "/memos")
     && bool_decide (method request = "GET")
  then list_memos env amb
  else if bool_decide (pathname request = API_PREFIX +:+ "/memos")
     && bool_decide (method request = "POST")
  then create_memo amb request
  else
    match memoIdMatch (pathname request) with
    | Some d =>
        let id := Number_of_digits d in
        if bool_decide (method request = "GET") then read_memo env amb id
        else if bool_decide (method request = "PUT") then update_memo amb request id
        else if bool_decide (method request = "DELETE") then delete_memo id
        else clip_or_not_found env amb request
    | None => clip_or_not_found env amb request
    end.

Definition fetch (env : Env) (amb : Ambient) (request : Request) : M Response :=
  if bool_decide (method request = "OPTIONS")
  then ret {| status := 204; body := None |}
  else if negb (String.prefix API_PREFIX (pathname request))
  then ret {| status := 404; body := None |}
  else if bool_decide (pathname request = API_PREFIX +:+ "/login")
     && bool_decide (method request = "POST")
  then login_route env amb request
  else
    let* auth := requireAuth request amb in
    match auth with
    | inl response => ret response
    | inr _ => routes env amb request
    end.

End Worker.

Module WorkerSpec.
Import Worker.

(** A request is authenticated in a world when [requireAuth] accepts it. *)
Definition authenticated (amb : Ambient) (request : Request) (w : World) : bool :=
  match (requireAuth request amb w).1 with
  | inr _ => true
  | inl _ => false
  end.

(** The world the routes start from: the one [requireAuth] leaves. *)
Definition past_auth (amb : Ambient) (request : Request) (w : World) : World :=
  (requireAuth request amb w).2.

(** The required field of a request body, the way the interface table reads
    it: the body parses to an object whose member [k] is a string. *)
Definition string_field (b : option json) (k : string) : option string :=
  match b with
  | Some (JObj fs) => as_string (own_prop k fs)
  | _ => None
  end.

(** *** A concrete deployment, used by the examples below *)

Definition env0 : Env :=
  {| APP_PASSWORD := "secret"; SESSION_TTL_SECONDS := None;
     CLIP_TTL_SECONDS := None; CACHE_TTL_SECONDS := None |}.

Definition empty_world : World :=
  {| DB := {| memos := []; last_row_id := 0 |}; MEMO_KV := ∅; ops := [] |}.

Definition at_ (t : Z) (iso : string) : Ambient :=
  {| now := t; iso_now := iso; uuid := "tok" |}.

Definition login_request : Request :=
  {| method := "POST"; pathname := "/api/login"; authorization := None;
     json_body := Some (JObj [("password", JStr "secret")]) |}.

(** The world right after a successful login at second 0: the session
    `tok` is live for a week. *)
Definition w0 : World := (fetch env0 (at_ 0 "t0") login_request empty_world).2.

Definition bearer (m p : string) (b : option json) : Request :=
  {| method := m; pathname := p; authorization := Some "Bearer tok"; json_body := b |}.

(** The world after `POST /api/memos {content: "a"}` at second 5. *)
Definition w1 : World :=
  (fetch env0 (at_ 5 "t5")
     (bearer "POST" "/api/memos" (Some (JObj [("content", JStr "a")]))) w0).2.

(** [w0] after a first `GET /api/memos` at second 3: the empty list is now
    cached under the list key. *)
Definition w_cached : World :=
  (fetch env0 (at_ 3 "t3") (bearer "GET" "/api/memos" None) w0).2.

(** The endpoints of the interface table. *)
Definition endpoint (m p : string) : bool :=
  bool_decide (p = "/api/login") && bool_decide (m = "POST")
  || bool_decide (p = "/api/memos") && (bool_decide (m = "GET") || bool_decide (m = "POST"))
  || match memoIdMatch p with
     | Some _ => bool_decide (m = "GET") || bool_decide (m = "PUT") || bool_decide (m = "DELETE")
     | None => false
     end
  || bool_decide (p = "/api/clip") && (bool_decide (m = "GET") || bool_decide (m = "POST")).



(** Running a sequence of requests, each with what it reads from the
    runtime, one after the other. *)
Fixpoint run (env : Env) (l : list (Ambient * Request)) (w : World) : World :=
  match l with
  | [] => w
  | (amb, r) :: l' => run env l' (fetch env amb r w).2
  end.

(** The list cache never disagrees with the table: whatever is stored under
    the list key is the stringified current result of the list query. *)
Definition coherent (w : World) : Prop :=
  ∀ e, MEMO_KV w !! MEMO_LIST_CACHE_KEY = Some e →
       kv_text e = Stringified (rows_json (db_all (DB w))).

(** The memo writes: create, update, delete. *)
Definition memo_write (r : Request) : bool :=
  bool_decide (pathname r = "/api/memos") && bool_decide (method r = "POST")
  || match memoIdMatch (pathname r) with
     | Some _ => bool_decide (method r = "PUT") || bool_decide (method r = "DELETE")
     | None => false
     end.

Definition succeeded (resp : Response) : bool :=
  bool_decide (200 ≤ status resp < 300).

End WorkerSpec.

Module App.
Export Worker (MemoRow, mkMemo, m_id, m_content, m_created_at, m_updated_at).

(** ** Data *)

Record ClipPayload : Type := {
  text : option string;          (* `string | null` *)
  created_at : option string
}.

Definition AUTOSAVE_DELAY_MS : Z := 5000.
Definition REQUEST_TIMEOUT_MS : Z := 10000.

(** `String.prototype.trim` on code units below 256: tab, line feed,
    vertical tab, form feed, carriage return, space and no-break space. *)
Definition is_white (c : ascii) : bool :=
  match nat_of_ascii c with
  | 9 | 10 | 11 | 12 | 13 | 32 | 160 => true
  | _ => false
  end%nat.

Fixpoint trim_start (s : string) : string :=
  match s with
  | String c s' => if is_white c then trim_start s' else s
  | EmptyString => EmptyString
  end.

Definition trim (s : string) : string :=
  String.rev (trim_start (String.rev (trim_start s))).

(** *** The browser's side: timers and requests in flight *)

Inductive timer_kind : Type :=
| MemoTimer      (* the callback [scheduleAutosave] registers *)
| ClipTimer.     (* the callback [scheduleClipAutosave] registers *)

Record timer : Type := {
  t_id : positive;
  t_kind : timer_kind;
  t_due : Z
}.

(** The code that runs when a request settles: which function awaits it,
    with the locals it captured. *)
Inductive Call : Type :=
| SaveMemoPut (content : string) (silent fromAutosave : bool)
| SaveMemoPost (content : string) (silent fromAutosave : bool)
| SaveClip
| AutosaveClip
| ClearClip
| LoadMemos
| LoadClip
| DeleteMemo
| Login.

(** A request as it leaves the page. *)
Record Sent : Type := {
  s_method : string;
  s_path : string;
  s_authorization : option string;
  s_body : option json;
  s_call : Call
}.

(** The body of a 2xx reply, at the type the awaiting code asserts. *)
Inductive Payload : Type :=
| PMemo (m : MemoRow)
| PMemos (l : list MemoRow)
| PClip (c : ClipPayload)
| PToken (t : option string)
| PEmpty.

(** How a request settles: a 2xx reply, a 401, or anything else (another
    status, a network error, the abort after [REQUEST_TIMEOUT_MS]). *)
Inductive Reply : Type :=
| Ok (data : Payload)
| Unauthorized
| Failed.

(** ** The state of the page: the refs of the script, then the browser *)

Record State : Type := mkState {
  token : string;
  isSaving : bool;
  memos : list MemoRow;
  selectedId : option N;
  editorContent : string;
  editorDirty : bool;
  memoLastSavedContent : string;
  memoAutosavePending : bool;
  clipText : string;
  clipSaving : bool;
  clipClearing : bool;
  clipAutosaveTimer : option positive;
  clipLastSavedText : string;
  clipAutosavePending : bool;
  autosaveTimer : option positive;
  loginPassword : string;
  clock : Z;                          (* milliseconds *)
  timeouts : list timer;              (* armed, not yet fired or cleared *)
  next_timeout : positive;
  pending : list (positive * Call);   (* requests in flight *)
  next_request : positive;
  sent : list Sent                    (* every request issued so far *)
}.

(** The presentational refs ([editorStatus], [autosaveStatus], [clipStatus],
    [clipMeta], [authError], [isLoading], [isBooting], [blockingCount],
    [searchQuery]) are written but never decide a branch of the functions
    below; they are left out. *)

Definition init (stored_token : string) : State :=
  {| token := stored_token; isSaving := false; memos := []; selectedId := None;
     editorContent := ""; editorDirty := false; memoLastSavedContent := "";
     memoAutosavePending := false; clipText := ""; clipSaving := false;
     clipClearing := false; clipAutosaveTimer := None; clipLastSavedText := "";
     clipAutosavePending := false; autosaveTimer := None; loginPassword := "";
     clock := 0; timeouts := []; next_timeout := 1%positive; pending := [];
     next_request := 1%positive; sent := [] |}.

(** *** Assignments to the refs *)

Definition set_token v s :=
  mkState v (isSaving s) (memos s) (selectedId s) (editorContent s) (editorDirty s)
    (memoLastSavedContent s) (memoAutosavePending s) (clipText s) (clipSaving s)
    (clipClearing s) (clipAutosaveTimer s) (clipLastSavedText s) (clipAutosavePending s)
    (autosaveTimer s) (loginPassword s) (clock s) (timeouts s) (next_timeout s)
    (pending s) (next_request s) (sent s).
Definition set_isSaving v s :=
  mkState (token s) v (memos s) (selectedId s) (editorContent s) (editorDirty s)
    (memoLastSavedContent s) (memoAutosavePending s) (clipText s) (clipSaving s)
    (clipClearing s) (clipAutosaveTimer s) (clipLastSavedText s) (clipAutosavePending s)
    (autosaveTimer s) (loginPassword s) (clock s) (timeouts s) (next_timeout s)
    (pending s) (next_request s) (sent s).
Definition set_memos v s :=
  mkState (token s) (isSaving s) v (selectedId s) (editorContent s) (editorDirty s)
    (memoLastSavedContent s) (memoAutosavePending s) (clipText s) (clipSaving s)
    (clipClearing s) (clipAutosaveTimer s) (clipLastSavedText s) (clipAutosavePending s)
    (autosaveTimer s) (loginPassword s) (clock s) (timeouts s) (next_timeout s)
    (pending s) (next_request s) (sent s).
Definition set_selectedId v s :=
  mkState (token s) (isSaving s) (memos s) v (editorContent s) (editorDirty s)
    (memoLastSavedContent s) (memoAutosavePending s) (clipText s) (clipSaving s)
    (clipClearing s) (clipAutosaveTimer s) (clipLastSavedText s) (clipAutosavePending s)
    (autosaveTimer s) (loginPassword s) (clock s) (timeouts s) (next_timeout s)
    (pending s) (next_request s) (sent s).
Definition set_editorContent v s :=
  mkState (token s) (isSaving s) (memos s) (selectedId s) v (editorDirty s)
    (memoLastSavedContent s) (memoAutosavePending s) (clipText s) (clipSaving s)
    (clipClearing s) (clipAutosaveTimer s) (clipLastSavedText s) (clipAutosavePending s)
    (autosaveTimer s) (loginPassword s) (clock s) (timeouts s) (next_timeout s)
    (pending s) (next_request s) (sent s).
Definition set_editorDirty v s :=
  mkState (token s) (isSaving s) (memos s) (selectedId s) (editorContent s) v
    (memoLastSavedContent s) (memoAutosavePending s) (clipText s) (clipSaving s)
    (clipClearing s) (clipAutosaveTimer s) (clipLastSavedText s) (clipAutosavePending s)
    (autosaveTimer s) (loginPassword s) (clock s) (timeouts s) (next_timeout s)
    (pending s) (next_request s) (sent s).
Definition set_memoLastSavedContent v s :=
  mkState (token s) (isSaving s) (memos s) (selectedId s) (editorContent s) (editorDirty s)
    v (memoAutosavePending s) (clipText s) (clipSaving s)
    (clipClearing s) (clipAutosaveTimer s) (clipLastSavedText s) (clipAutosavePending s)
    (autosaveTimer s) (loginPassword s) (clock s) (timeouts s) (next_timeout s)
    (pending s) (next_request s) (sent s).
Definition set_memoAutosavePending v s :=
  mkState (token s) (isSaving s) (memos s) (selectedId s) (editorContent s) (editorDirty s)
    (memoLastSavedContent s) v (clipText s) (clipSaving s)
    (clipClearing s) (clipAutosaveTimer s) (clipLastSavedText s) (clipAutosavePending s)
    (autosaveTimer s) (loginPassword s) (clock s) (timeouts s) (next_timeout s)
    (pending s) (next_request s) (sent s).
Definition set_clipText v s :=
  mkState (token s) (isSaving s) (memos s) (selectedId s) (editorContent s) (editorDirty s)
    (memoLastSavedContent s) (memoAutosavePending s) v (clipSaving s)
    (clipClearing s) (clipAutosaveTimer s) (clipLastSavedText s) (clipAutosavePending s)
    (autosaveTimer s) (loginPassword s) (clock s) (timeouts s) (next_timeout s)
    (pending s) (next_request s) (sent s).
Definition set_clipSaving v s :=
  mkState (token s) (isSaving s) (memos s) (selectedId s) (editorContent s) (editorDirty s)
    (memoLastSavedContent s) (memoAutosavePending s) (clipText s) v
    (clipClearing s) (clipAutosaveTimer s) (clipLastSavedText s) (clipAutosavePending s)
    (autosaveTimer s) (loginPassword s) (clock s) (timeouts s) (next_timeout s)
    (pending s) (next_request s) (sent s).
Definition set_clipClearing v s :=
  mkState (token s) (isSaving s) (memos s) (selectedId s) (editorContent s) (editorDirty s)
    (memoLastSavedContent s) (memoAutosavePending s) (clipText s) (clipSaving s)
    v (clipAutosaveTimer s) (clipLastSavedText s) (clipAutosavePending s)
    (autosaveTimer s) (loginPassword s) (clock s) (timeouts s) (next_timeout s)
    (pending s) (next_request s) (sent s).
Definition set_clipAutosaveTimer v s :=
  mkState (token s) (isSaving s) (memos s) (selectedId s) (editorContent s) (editorDirty s)
    (memoLastSavedContent s) (memoAutosavePending s) (clipText s) (clipSaving s)
    (clipClearing s) v (clipLastSavedText s) (clipAutosavePending s)
    (autosaveTimer s) (loginPassword s) (clock s) (timeouts s) (next_timeout s)
    (pending s) (next_request s) (sent s).
Definition set_clipLastSavedText v s :=
  mkState (token s) (isSaving s) (memos s) (selectedId s) (editorContent s) (editorDirty s)
    (memoLastSavedContent s) (memoAutosavePending s) (clipText s) (clipSaving s)
    (clipClearing s) (clipAutosaveTimer s) v (clipAutosavePending s)
    (autosaveTimer s) (loginPassword s) (clock s) (timeouts s) (next_timeout s)
    (pending s) (next_request s) (sent s).
Definition set_clipAutosavePending v s :=
  mkState (token s) (isSaving s) (memos s) (selectedId s) (editorContent s) (editorDirty s)
    (memoLastSavedContent s) (memoAutosavePending s) (clipText s) (clipSaving s)
    (clipClearing s) (clipAutosaveTimer s) (clipLastSavedText s) v
    (autosaveTimer s) (loginPassword s) (clock s) (timeouts s) (next_timeout s)
    (pending s) (next_request s) (sent s).
Definition set_autosaveTimer v s :=
  mkState (token s) (isSaving s) (memos s) (selectedId s) (editorContent s) (editorDirty s)
    (memoLastSavedContent s) (memoAutosavePending s) (clipText s) (clipSaving s)
    (clipClearing s) (clipAutosaveTimer s) (clipLastSavedText s) (clipAutosavePending s)
    v (loginPassword s) (clock s) (timeouts s) (next_timeout s)
    (pending s) (next_request s) (sent s).
Definition set_loginPassword v s :=
  mkState (token s) (isSaving s) (memos s) (selectedId s) (editorContent s) (editorDirty s)
    (memoLastSavedContent s) (memoAutosavePending s) (clipText s) (clipSaving s)
    (clipClearing s) (clipAutosaveTimer s) (clipLastSavedText s) (clipAutosavePending s)
    (autosaveTimer s) v (clock s) (timeouts s) (next_timeout s)
    (pending s) (next_request s) (sent s).
Definition set_clock v s :=
  mkState (token s) (isSaving s) (memos s) (selectedId s) (editorContent s) (editorDirty s)
    (memoLastSavedContent s) (memoAutosavePending s) (clipText s) (clipSaving s)
    (clipClearing s) (clipAutosaveTimer s) (clipLastSavedText s) (clipAutosavePending s)
    (autosaveTimer s) (loginPassword s) v (timeouts s) (next_timeout s)
    (pending s) (next_request s) (sent s).
Definition set_timeouts v n s :=
  mkState (token s) (isSaving s) (memos s) (selectedId s) (editorContent s) (editorDirty s)
    (memoLastSavedContent s) (memoAutosavePending s) (clipText s) (clipSaving s)
    (clipClearing s) (clipAutosaveTimer s) (clipLastSavedText s) (clipAutosavePending s)
    (autosaveTimer s) (loginPassword s) (clock s) v n
    (pending s) (next_request s) (sent s).
Definition set_requests v n l s :=
  mkState (token s) (isSaving s) (memos s) (selectedId s) (editorContent s) (editorDirty s)
    (memoLastSavedContent s) (memoAutosavePending s) (clipText s) (clipSaving s)
    (clipClearing s) (clipAutosaveTimer s) (clipLastSavedText s) (clipAutosavePending s)
    (autosaveTimer s) (loginPassword s) (clock s) (timeouts s) (next_timeout s)
    v n l.

(** *** Timers and requests *)

(** `window.setTimeout(callback, AUTOSAVE_DELAY_MS)`: arms a fresh timer and
    returns its handle. *)
Definition setTimeout (k : timer_kind) (s : State) : positive * State :=
  let id := next_timeout s in
  (id, set_timeouts
         (timeouts s ++ [{| t_id := id; t_kind := k; t_due := clock s + AUTOSAVE_DELAY_MS |}])
         (Pos.succ id) s).

Definition clearTimeout (id : positive) (s : State) : State :=
  set_timeouts (filter (λ t, t_id t ≠ id) (timeouts s)) (next_timeout s) s.

(** The synchronous part of [apiFetch]: the request leaves with the bearer
    header when a token is stored; [k] is what awaits the reply. *)
Definition apiFetch (m path : string) (b : option json) (k : Call) (s : State) : State :=
  let auth := if bool_decide (token s = "") then None else Some ("Bearer " +:+ token s) in
  let rid := next_request s in
  set_requests (pending s ++ [(rid, k)]) (Pos.succ rid)
    (sent s ++ [{| s_method := m; s_path := path; s_authorization := auth;
                   s_body := b; s_call := k |}]) s.

(** [login] calls [fetchWithTimeout] directly: no bearer header. *)
Definition fetchWithTimeout (m path : string) (b : option json) (k : Call) (s : State) : State :=
  let rid := next_request s in
  set_requests (pending s ++ [(rid, k)]) (Pos.succ rid)
    (sent s ++ [{| s_method := m; s_path := path; s_authorization := None;
                   s_body := b; s_call := k |}]) s.

Definition setToken (value : string) (s : State) : State := set_token value s.

(** The rest of [apiFetch] once the reply is in: a 401 clears the token
    before the error reaches the caller. *)
Definition apiFetch_settled (r : Reply) (s : State) : State :=
  match r with
  | Unauthorized => setToken "" s
  | _ => s
  end.

(** *** The memo draft *)

Definition selectMemo (memo : MemoRow) (s : State) : State :=
  let s := set_selectedId (Some (m_id memo)) s in
  let s := set_editorContent (m_content memo) s in
  let s := set_editorDirty false s in
  set_memoLastSavedContent (m_content memo) s.

Definition startNewMemo (s : State) : State :=
  let s := set_selectedId None s in
  let s := set_editorContent "" s in
  let s := set_editorDirty false s in
  set_memoLastSavedContent "" s.

Definition signOut (s : State) : State :=
  let s := setToken "" s in
  let s := set_memos [] s in
  let s := set_selectedId None s in
  let s := set_editorContent "" s in
  let s := set_editorDirty false s in
  let s := set_memoLastSavedContent "" s in
  let s := set_clipText "" s in
  set_clipLastSavedText "" s.

(** `if (selectedId.value)`: neither `null` nor `0`. *)
Definition selected (s : State) : option N :=
  match selectedId s with
  | Some i => if bool_decide (i = 0%N) then None else Some i
  | None => None
  end.

Definition scheduleAutosave (s : State) : State :=
  if bool_decide (token s = "") then s
  else if isSaving s then set_memoAutosavePending true s
  else
    let s := match autosaveTimer s with
             | Some id => clearTimeout id s
             | None => s
             end in
    let '(id, s) := setTimeout MemoTimer s in
    set_autosaveTimer (Some id) s.

(** The `finally` block of [saveMemo]. *)
Definition saveMemo_finally (s : State) : State :=
  let s := set_isSaving false s in
  if memoAutosavePending s then
    let s := set_memoAutosavePending false s in
    if editorDirty s then scheduleAutosave s else s
  else s.

(** [saveMemo] up to its `await`. *)
Definition saveMemo (silent fromAutosave : bool) (s : State) : State :=
  if isSaving s then s
  else
    let content := trim (editorContent s) in
    if bool_decide (content = "") then s
    else if fromAutosave && bool_decide (content = memoLastSavedContent s) then s
    else
      let s := set_isSaving true s in
      match selected s with
      | Some i =>
          apiFetch "PUT" ("/api/memos/" +:+ pretty i)
            (Some (JObj [("content", JStr content)]))
            (SaveMemoPut content silent fromAutosave) s
      | None =>
          if fromAutosave && (String.length content <? 3)%nat
          then saveMemo_finally s
          else
            apiFetch "POST" "/api/memos"
              (Some (JObj [("content", JStr content)]))
              (SaveMemoPost content silent fromAutosave) s
      end.

Definition replace_memo (data : MemoRow) (memo : MemoRow) : MemoRow :=
  if bool_decide (m_id memo = m_id data) then data else memo.

(** [saveMemo] from its `await` on.  A 2xx body is read at the asserted
    type; any other payload is outside the contract and is taken as a
    rejected request. *)
Definition saveMemo_settled (put : bool) (content : string)
    (silent fromAutosave : bool) (r : Reply) (s : State) : State :=
  let s := apiFetch_settled r s in
  match r with
  | Ok (PMemo data) =>
      let s := if put then set_memos (map (replace_memo data) (memos s)) s
               else set_memos (data :: memos s) s in
      let s := selectMemo data s in
      let s := set_editorDirty false s in
      let s := set_memoLastSavedContent content s in
      saveMemo_finally s
  | _ => saveMemo_finally s
  end.

(** The callback [scheduleAutosave] hands to the timer. *)
Definition autosave_fired (s : State) : State :=
  if negb (editorDirty s) then s
  else saveMemo true true s.

Definition markDirty (s : State) : State :=
  scheduleAutosave (set_editorDirty true s).

Definition deleteMemo (confirmed : bool) (s : State) : State :=
  match selected s with
  | None => s
  | Some i =>
      if negb confirmed then s
      else apiFetch "DELETE" ("/api/memos/" +:+ pretty i) None DeleteMemo s
  end.

Definition deleteMemo_settled (r : Reply) (s : State) : State :=
  let s := apiFetch_settled r s in
  match r with
  | Ok _ =>
      let s := set_memos
                 (filter (λ memo, Some (m_id memo) ≠ selectedId s) (memos s)) s in
      match memos s with
      | first :: _ => selectMemo first s
      | [] => startNewMemo s
      end
  | _ => s
  end.

Definition loadMemos (s : State) : State :=
  apiFetch "GET" "/api/memos" None LoadMemos s.

Definition loadMemos_settled (r : Reply) (s : State) : State :=
  let s := apiFetch_settled r s in
  match r with
  | Ok (PMemos data) =>
      let s := set_memos data s in
      match selected s, memos s with
      | None, first :: _ => selectMemo first s
      | _, _ => s
      end
  | _ => s
  end.

(** *** The clip draft *)

Definition scheduleClipAutosave (s : State) : State :=
  if bool_decide (token s = "") then s
  else if clipSaving s then set_clipAutosavePending true s
  else
    let s := match clipAutosaveTimer s with
             | Some id => clearTimeout id s
             | None => s
             end in
    let '(id, s) := setTimeout ClipTimer s in
    set_clipAutosaveTimer (Some id) s.

Definition saveClip (s : State) : State :=
  if clipSaving s then s
  else
    let s := set_clipSaving true s in
    apiFetch "POST" "/api/clip" (Some (JObj [("text", JStr (clipText s))])) SaveClip s.

Definition saveClip_settled (r : Reply) (s : State) : State :=
  let s := apiFetch_settled r s in
  let s := match r with
           | Ok (PClip data) => set_clipLastSavedText (clipText s) s
           | _ => s
           end in
  let s := set_clipSaving false s in
  if clipAutosavePending s then
    let s := set_clipAutosavePending false s in
    scheduleClipAutosave s
  else s.

(** The callback [scheduleClipAutosave] hands to the timer, up to its
    `await`. *)
Definition clip_autosave_fired (s : State) : State :=
  if clipSaving s then s
  else if bool_decide (clipText s = clipLastSavedText s) then s
  else apiFetch "POST" "/api/clip" (Some (JObj [("text", JStr (clipText s))]))
         AutosaveClip s.

Definition clip_autosave_settled (r : Reply) (s : State) : State :=
  let s := apiFetch_settled r s in
  match r with
  | Ok (PClip data) => set_clipLastSavedText (clipText s) s
  | _ => s
  end.

Definition markClipDirty (s : State) : State := scheduleClipAutosave s.

Definition clearClip (s : State) : State :=
  if clipClearing s then s
  else
    let s := set_clipClearing true s in
    apiFetch "POST" "/api/clip" (Some (JObj [("text", JStr "")])) ClearClip s.

Definition clearClip_settled (r : Reply) (s : State) : State :=
  let s := apiFetch_settled r s in
  let s := match r with
           | Ok (PClip data) =>
               let s := set_clipText (default "" (text data)) s in
               set_clipLastSavedText (clipText s) s
           | _ => s
           end in
  set_clipClearing false s.

Definition loadClip (s : State) : State :=
  apiFetch "GET" "/api/clip" None LoadClip s.

Definition loadClip_settled (r : Reply) (s : State) : State :=
  let s := apiFetch_settled r s in
  match r with
  | Ok (PClip data) =>
      let s := set_clipText (default "" (text data)) s in
      set_clipLastSavedText (clipText s) s
  | _ => s
  end.

(** *** Session *)

(** `Promise.all([loadMemos(), loadClip()])`: both requests leave in the
    same turn. *)
Definition refreshAll (s : State) : State := loadClip (loadMemos s).

Definition login (s : State) : State :=
  fetchWithTimeout "POST" "/api/login"
    (Some (JObj [("password", JStr (loginPassword s))])) Login s.

Definition login_settled (r : Reply) (s : State) : State :=
  match r with
  | Ok (PToken (Some t)) =>
      if bool_decide (t = "") then s
      else
        let s := setToken t s in
        let s := set_loginPassword "" s in
        refreshAll s
  | _ => s
  end.

(** ** The event loop *)

Inductive Event : Type :=
| Input (v : string)            (* typing or pasting in the memo editor *)
| ClipInput (v : string)        (* typing or pasting in the clip box *)
| ClickSave                     (* the save button, or Ctrl/Cmd+Enter *)
| ClickSaveClip
| ClickClearClip
| ClickMemo (memo : MemoRow)
| ClickNew
| ClickDelete (confirmed : bool)
| ClickSignOut
| ClickRefresh
| TypePassword (v : string)
| ClickLogin
| Tick (dt : Z)                 (* time passes *)
| Timeout (id : positive)       (* a timer that is due fires *)
| Settle (rid : positive) (r : Reply).   (* a request in flight settles *)

Fixpoint take_request (rid : positive) (l : list (positive * Call))
    : option (Call * list (positive * Call)) :=
  match l with
  | [] => None
  | (i, k) :: l' =>
      if bool_decide (i = rid) then Some (k, l')
      else match take_request rid l' with
           | Some (k', rest) => Some (k', (i, k) :: rest)
           | None => None
           end
  end.

Definition settled (k : Call) (r : Reply) (s : State) : State :=
  match k with
  | SaveMemoPut content silent fromAutosave =>
      saveMemo_settled true content silent fromAutosave r s
  | SaveMemoPost content silent fromAutosave =>
      saveMemo_settled false content silent fromAutosave r s
  | SaveClip => saveClip_settled r s
  | AutosaveClip => clip_autosave_settled r s
  | ClearClip => clearClip_settled r s
  | LoadMemos => loadMemos_settled r s
  | LoadClip => loadClip_settled r s
  | DeleteMemo => deleteMemo_settled r s
  | Login => login_settled r s
  end.

Definition fired (k : timer_kind) (s : State) : State :=
  match k with
  | MemoTimer => autosave_fired s
  | ClipTimer => clip_autosave_fired s
  end.

(** One turn of the event loop. *)
Definition step (e : Event) (s : State) : State :=
  match e with
  | Input v => markDirty (set_editorContent v s)
  | ClipInput v => markClipDirty (set_clipText v s)
  | ClickSave => saveMemo false false s
  | ClickSaveClip => saveClip s
  | ClickClearClip => clearClip s
  | ClickMemo memo => selectMemo memo s
  | ClickNew => startNewMemo s
  | ClickDelete confirmed => deleteMemo confirmed s
  | ClickSignOut => signOut s
  | ClickRefresh => refreshAll s
  | TypePassword v => set_loginPassword v s
  | ClickLogin => login s
  | Tick dt => if 0 <=? dt then set_clock (clock s + dt) s else s
  | Timeout id =>
      match find (λ t, bool_decide (t_id t = id)) (timeouts s) with
      | Some t =>
          if t_due t <=? clock s
          then fired (t_kind t) (clearTimeout id s)
          else s
      | None => s
      end
  | Settle rid r =>
      match take_request rid (pending s) with
      | Some (k, rest) =>
          settled k r (set_requests rest (next_request s) (sent s) s)
      | None => s
      end
  end.

Definition exec (es : list Event) (s : State) : State :=
  foldl (λ s e, step e s) s es.

End App.

Module AppSpec.
Import App.

(** `onMounted`: the page starts from the token found in local storage and,
    when there is one, refreshes at once. *)
Definition mounted (stored_token : string) : State :=
  if bool_decide (stored_token = "") then init stored_token
  else refreshAll (init stored_token).

(** The saves of the memo draft, and the three write paths of the clip
    draft. *)
Definition is_memo_save (k : Call) : bool :=
  match k with
  | SaveMemoPut _ _ _ | SaveMemoPost _ _ _ => true
  | _ => false
  end.

Definition is_manual_clip_save (k : Call) : bool :=
  match k with SaveClip => true | _ => false end.

Definition is_clip_autosave (k : Call) : bool :=
  match k with AutosaveClip => true | _ => false end.

Definition is_clip_clear (k : Call) : bool :=
  match k with ClearClip => true | _ => false end.

Definition is_clip_save (k : Call) : bool :=
  is_manual_clip_save k || is_clip_autosave k || is_clip_clear k.

(** How many requests of a kind are in flight. *)
Fixpoint count_calls (P : Call → bool) (l : list (positive * Call)) : nat :=
  match l with
  | [] => 0
  | (_, k) :: l' => (if P k then 1 else 0) + count_calls P l'
  end%nat.

Definition in_flight (P : Call → bool) (s : State) : nat :=
  count_calls P (pending s).

Definition is_kind (k : timer_kind) (t : timer) : bool :=
  match k, t_kind t with
  | MemoTimer, MemoTimer | ClipTimer, ClipTimer => true
  | _, _ => false
  end.

(** The armed timers of a kind. *)
Fixpoint of_kind (k : timer_kind) (l : list timer) : list timer :=
  match l with
  | [] => []
  | t :: l' => if is_kind k t then t :: of_kind k l' else of_kind k l'
  end.

Definition armed (k : timer_kind) (s : State) : list timer :=
  of_kind k (timeouts s).

(** At most one timer of the kind is armed, and the ref holds its handle. *)
Definition single_timer (k : timer_kind) (handle : option positive) (s : State) : Prop :=
  armed k s = [] ∨ ∃ t, armed k s = [t] ∧ handle = Some (t_id t).

Definition handle (k : timer_kind) (s : State) : option positive :=
  match k with
  | MemoTimer => autosaveTimer s
  | ClipTimer => clipAutosaveTimer s
  end.

Definition timers_ok (k : timer_kind) (s : State) : Prop :=
  single_timer k (handle k s) s.

Definition flag (b : bool) : nat := if b then 1%nat else 0%nat.

(** What the guards of the script maintain. *)
Record consistent (s : State) : Prop := {
  memo_single : in_flight is_memo_save s = flag (isSaving s);
  clip_manual_single : in_flight is_manual_clip_save s = flag (clipSaving s);
  clip_clear_single : in_flight is_clip_clear s = flag (clipClearing s);
  memo_timer_single : timers_ok MemoTimer s;
  clip_timer_single : timers_ok ClipTimer s
}.

(** The requests of a kind among those issued so far. *)
Definition sent_by (P : Call → bool) (s : State) : list Sent :=
  filter (λ q, P (s_call q) = true) (sent s).

(** The draft counts as unchanged for the memo autosave when it is not
    dirty or its trimmed content is the snapshot; for the clip autosave
    when the text is the snapshot. *)
Definition memo_unchanged (s : State) : Prop :=
  editorDirty s = false ∨ trim (editorContent s) = memoLastSavedContent s.

Definition clip_unchanged (s : State) : Prop :=
  clipText s = clipLastSavedText s.

(** *** Concrete runs, used by the examples below *)

Definition no_clip : ClipPayload := {| text := None; created_at := None |}.

(** The page of a signed-in user once the two requests of the first refresh
    have settled: no memo, no clip. *)
Definition ready : State :=
  exec [Settle 1 (Ok (PMemos [])); Settle 2 (Ok (PClip no_clip))] (mounted "tok").

(** The same with one memo on the server whose content starts with a
    space; it is selected on load. *)
Definition ready_untrimmed : State :=
  exec [Settle 1 (Ok (PMemos [mkMemo 1 " a" "t1" "t1"])); Settle 2 (Ok (PClip no_clip))]
    (mounted "tok").

End AppSpec.

Module WorkerMore.
Import Worker WorkerSpec.

(** ** Cross-origin headers *)

Definition CORS_ALLOW_METHODS : string := "GET,POST,PUT,DELETE,OPTIONS".

(** `value.split(sep)` for a one-character separator. *)
Fixpoint split_on (sep : ascii) (cur : string) (s : string) : list string :=
  match s with
  | EmptyString => [String.rev cur]
  | String c s' =>
      if bool_decide (c = sep) then String.rev cur :: split_on sep "" s'
      else split_on sep (String c cur) s'
  end.

(** [value] is `env.CORS_ALLOWED_ORIGINS`: [None] when the variable is
    undefined. *)
Definition parseAllowedOrigins (value : option string) : list string :=
  match value with
  | None => ["*"]
  | Some v =>
      if bool_decide (v = "") then ["*"]
      else filter (λ origin, origin ≠ "") (map App.trim (split_on ","%char "" v))
  end.

(** `allowedOrigins.includes(x)`. *)
Definition includes (l : list string) (x : string) : bool := bool_decide (x ∈ l).

(** The origin [getCorsHeaders] allows, `null` as [None]; [requestOrigin] is
    the `Origin` header of the request. *)
Definition allowOrigin (allowedOrigins : list string) (requestOrigin : option string)
    : option string :=
  if includes allowedOrigins "*" then Some "*"
  else match requestOrigin with
       | Some o =>
           if negb (bool_decide (o = "")) && includes allowedOrigins o then Some o
           else None
       | None => None
       end.

(** A `Headers` object, names in lower case. *)
Abbreviation Headers := (gmap string string).

(** [requestedHeaders] is the `Access-Control-Request-Headers` header. *)
Definition getCorsHeaders (requestOrigin requestedHeaders : option string)
    (CORS_ALLOWED_ORIGINS : option string) : option Headers :=
  let allowedOrigins := parseAllowedOrigins CORS_ALLOWED_ORIGINS in
  match allowOrigin allowedOrigins requestOrigin with
  | None => None
  | Some allow =>
      let headers : Headers := ∅ in
      let headers := <["access-control-allow-origin" := allow]> headers in
      let headers := <["access-control-allow-methods" := CORS_ALLOW_METHODS]> headers in
      let headers := <["access-control-allow-headers" :=
                        default "content-type, authorization" requestedHeaders]> headers in
      let headers := <["access-control-max-age" := "86400"]> headers in
      Some (if bool_decide (allow = "*") then headers
            else <["vary" := "origin"]> headers)
  end.

(** A response with its headers. *)
Record FullResponse : Type := {
  r_status : Z;
  r_body : option json;
  r_headers : Headers
}.

(** `corsHeaders.forEach((value, key) => headers.set(key, value))`: every
    CORS header overwrites the response's header of that name. *)
Definition applyCors (response : FullResponse) (corsHeaders : option Headers)
    : FullResponse :=
  match corsHeaders with
  | None => response
  | Some cors =>
      {| r_status := r_status response; r_body := r_body response;
         r_headers := cors ∪ r_headers response |}
  end.

(** ** The per-identifier cache *)

(** Whatever is stored under the cache key of an identifier is the
    stringified row the table holds for it. *)
Definition item_coherent (w : World) : Prop :=
  ∀ i e, MEMO_KV w !! memo_cache_key i = Some e →
    ∃ r, db_first i (DB w) = Some r ∧ kv_text e = Stringified (row_json r).

(** What an authenticated `GET /api/memos/{id}` should say of a table. *)
Definition row_response (i : N) (db : D1) : Response :=
  match db_first i db with
  | Some r => jsonResponse (row_json r) 200
  | None => jsonResponse (error_json "not_found") 404
  end.

(** The login that succeeds: a string password, not empty, equal to the
    configured one. *)
Definition password_ok (env : Env) (r : Request) : bool :=
  match string_field (json_body r) "password" with
  | Some p => negb (bool_decide (p = "")) && bool_decide (p = APP_PASSWORD env)
  | None => false
  end.

Definition session_key (tok : string) : string := "auth:token:" +:+ tok.

(** No character of the string is a space. *)
Fixpoint no_space (s : string) : bool :=
  match s with
  | EmptyString => true
  | String c s' => negb (bool_decide (c = " "%char)) && no_space s'
  end.

(** What one run of the handler does to the two stores, route by route:
    the response, the table and the namespace it leaves. *)
Inductive effect (env : Env) (amb : Ambient) (r : Request) (w : World)
    : Response → D1 → gmap string kv_entry → Prop :=
| eff_none resp :
    effect env amb r w resp (DB w) (MEMO_KV w)
| eff_login :
    method r = "POST" → pathname r = "/api/login" →
    password_ok env r = true →
    effect env amb r w (jsonResponse (JObj [("token", JStr (uuid amb))]) 200) (DB w)
      (<[session_key (uuid amb) :=
          {| kv_text := Raw "1";
             kv_expires := now amb
               + getNumberEnv (SESSION_TTL_SECONDS env) (60 * 60 * 24 * 7) |}]> (MEMO_KV w))
| eff_cache_list :
    method r = "GET" → authenticated amb r w = true →
    effect env amb r w (jsonResponse (rows_json (db_all (DB w))) 200) (DB w)
      (<[MEMO_LIST_CACHE_KEY :=
          {| kv_text := Stringified (rows_json (db_all (DB w)));
             kv_expires := now amb + getNumberEnv (CACHE_TTL_SECONDS env) 60 |}]> (MEMO_KV w))
| eff_cache_item i row :
    method r = "GET" → authenticated amb r w = true →
    db_first i (DB w) = Some row →
    effect env amb r w (jsonResponse (row_json row) 200) (DB w)
      (<[memo_cache_key i :=
          {| kv_text := Stringified (row_json row);
             kv_expires := now amb + getNumberEnv (CACHE_TTL_SECONDS env) 60 |}]> (MEMO_KV w))
| eff_create c :
    memo_write r = true → authenticated amb r w = true →
    effect env amb r w
      (jsonResponse (row_json (mkMemo (last_row_id (DB w) + 1) c (iso_now amb) (iso_now amb))) 201)
      {| memos := memos (DB w)
                  ++ [mkMemo (last_row_id (DB w) + 1) c (iso_now amb) (iso_now amb)];
         last_row_id := (last_row_id (DB w) + 1)%N |}
      (delete MEMO_LIST_CACHE_KEY (MEMO_KV w))
| eff_update i c old :
    memo_write r = true → authenticated amb r w = true →
    db_first i (DB w) = Some old →
    effect env amb r w
      (jsonResponse (row_json (mkMemo i c (m_created_at old) (iso_now amb))) 200)
      {| memos := map (touch i c (iso_now amb)) (memos (DB w));
         last_row_id := last_row_id (DB w) |}
      (delete (memo_cache_key i) (delete MEMO_LIST_CACHE_KEY (MEMO_KV w)))
| eff_delete i old :
    memo_write r = true → authenticated amb r w = true →
    db_first i (DB w) = Some old →
    effect env amb r w {| status := 204; body := None |}
      {| memos := filter (λ row, has_id i row = false) (memos (DB w));
         last_row_id := last_row_id (DB w) |}
      (delete (memo_cache_key i) (delete MEMO_LIST_CACHE_KEY (MEMO_KV w)))
| eff_clip t :
    authenticated amb r w = true →
    effect env amb r w
      (jsonResponse (JObj [("text", JStr t); ("created_at", JStr (iso_now amb))]) 201) (DB w)
      (<[CLIP_CACHE_KEY :=
          {| kv_text := Stringified (JObj [("text", JStr t); ("created_at", JStr (iso_now amb))]);
             kv_expires := now amb + getNumberEnv (CLIP_TTL_SECONDS env) (60 * 60 * 24) |}]>
         (MEMO_KV w)).

(** The world after the first list read of [w1], at second 6. *)
Definition w2 : World :=
  (fetch env0 (at_ 6 "t6") (bearer "GET" "/api/memos" None) w1).2.

(** The loop of [Number_of_digits], from any accumulator. *)
Fixpoint digits_from (acc : N) (s : string) : N :=
  match s with
  | EmptyString => acc
  | String c s' => digits_from (10 * acc + N.of_nat (default 0%nat (Ascii.is_nat c)))%N s'
  end.

(** The runtime at second [t] when `crypto.randomUUID()` gives `other`. *)
Definition other (t : Z) (iso : string) : Ambient :=
  {| now := t; iso_now := iso; uuid := "other" |}.

End WorkerMore.

Module AppMore.
Import App AppSpec.

(** ** Search *)

(** `toLowerCase` on code units below 256: the Latin capitals and the
    accented capitals U+00C0..U+00DE, the multiplication sign apart. *)
Definition lower_char (c : ascii) : ascii :=
  let n := nat_of_ascii c in
  if ((65 <=? n) && (n <=? 90) || (192 <=? n) && (n <=? 222) && negb (n =? 215))%nat
  then ascii_of_nat (n + 32) else c.

Fixpoint toLowerCase (s : string) : string :=
  match s with
  | EmptyString => EmptyString
  | String c s' => String (lower_char c) (toLowerCase s')
  end.

(** `s.includes(q)`. *)
Fixpoint str_includes (s q : string) : bool :=
  String.prefix q s
  || match s with
     | EmptyString => false
     | String _ s' => str_includes s' q
     end.

Definition filteredMemos (searchQuery : string) (memos : list MemoRow) : list MemoRow :=
  let query := toLowerCase (trim searchQuery) in
  if bool_decide (query = "") then memos
  else filter (λ memo, str_includes (toLowerCase (m_content memo)) query = true) memos.

(** ** Addresses *)

(** `API_BASE.replace(/\/$/, '')`. *)
Definition strip_slash (s : string) : string :=
  match String.rev s with
  | String "/" r => String.rev r
  | _ => s
  end.

(** [base] is `import.meta.env.VITE_API_BASE`. *)
Definition NORMALIZED_API_BASE (base : option string) : string :=
  strip_slash (trim (default "" base)).

Definition buildApiUrl (base : option string) (path : string) : string :=
  if bool_decide (NORMALIZED_API_BASE base = "") then path
  else if String.prefix "/" path then NORMALIZED_API_BASE base +:+ path
  else NORMALIZED_API_BASE base +:+ "/" +:+ path.

(** ** The page and the worker *)

(** The request the worker sees for one the page sent to its own origin
    (no `VITE_API_BASE`): the body is the JSON text the page stringified. *)
Definition to_request (q : Sent) : Worker.Request :=
  {| Worker.method := s_method q; Worker.pathname := s_path q;
     Worker.authorization := s_authorization q; Worker.json_body := s_body q |}.

(** How [login] reads the worker's answer: any status outside 2xx is a
    failure, and the token is the string member `token` of the body. *)
Definition login_reply (resp : Worker.Response) : Reply :=
  if WorkerSpec.succeeded resp
  then Ok (PToken (WorkerSpec.string_field (Worker.body resp) "token"))
  else Failed.

(** The header [apiFetch] sends for the stored token. *)
Definition bearer_header (tok : string) : option string :=
  if bool_decide (tok = "") then None else Some ("Bearer " +:+ tok).

(** What each kind of request looks like when it leaves the page: its
    method, path and body, and for a memo save a content that is trimmed
    and not empty (at least three characters when an autosave creates the
    memo). *)
Definition shape (q : Sent) : Prop :=
  match s_call q with
  | SaveMemoPost c _ fromAutosave =>
      s_method q = "POST" ∧ s_path q = "/api/memos"
      ∧ s_body q = Some (JObj [("content", JStr c)])
      ∧ c ≠ "" ∧ trim c = c
      ∧ (fromAutosave = true → (3 ≤ String.length c)%nat)
  | SaveMemoPut c _ _ =>
      s_method q = "PUT"
      ∧ (∃ i, i ≠ 0%N ∧ s_path q = "/api/memos/" +:+ pretty i)
      ∧ s_body q = Some (JObj [("content", JStr c)])
      ∧ c ≠ "" ∧ trim c = c
  | SaveClip | AutosaveClip =>
      s_method q = "POST" ∧ s_path q = "/api/clip"
      ∧ ∃ t, s_body q = Some (JObj [("text", JStr t)])
  | ClearClip =>
      s_method q = "POST" ∧ s_path q = "/api/clip"
      ∧ s_body q = Some (JObj [("text", JStr "")])
  | LoadMemos => s_method q = "GET" ∧ s_path q = "/api/memos" ∧ s_body q = None
  | LoadClip => s_method q = "GET" ∧ s_path q = "/api/clip" ∧ s_body q = None
  | DeleteMemo =>
      s_method q = "DELETE"
      ∧ (∃ i, i ≠ 0%N ∧ s_path q = "/api/memos/" +:+ pretty i)
      ∧ s_body q = None
  | Login =>
      s_method q = "POST" ∧ s_path q = "/api/login"
      ∧ (∃ p, s_body q = Some (JObj [("password", JStr p)]))
      ∧ s_authorization q = None
  end.

(** The `Authorization` header is absent or `Bearer t` with [t] not
    empty. *)
Definition bearer_or_none (q : Sent) : Prop :=
  s_authorization q = None
  ∨ ∃ t, t ≠ "" ∧ s_authorization q = Some ("Bearer " +:+ t).

Definition well_formed (q : Sent) : Prop := shape q ∧ bearer_or_none q.

(** The requests in flight carry identifiers issued earlier. *)
Definition fresh (s : State) : Prop :=
  Forall (λ p, (p.1 < next_request s)%positive) (pending s).

(** The string does not start with white space. *)
Definition clean (s : string) : Prop :=
  match s with
  | String c _ => is_white c = false
  | EmptyString => True
  end.

(** The editor shows exactly the memo [m], unedited. *)
Definition shows (m : MemoRow) (s : State) : Prop :=
  selectedId s = Some (m_id m) ∧ editorContent s = m_content m
  ∧ editorDirty s = false ∧ memoLastSavedContent s = m_content m.

(** The editor is the blank new memo. *)
Definition blank (s : State) : Prop :=
  selectedId s = None ∧ editorContent s = ""
  ∧ editorDirty s = false ∧ memoLastSavedContent s = "".

(** The editor of [s'] is the editor of [s]. *)
Definition same_editor (s s' : State) : Prop :=
  selectedId s' = selectedId s ∧ editorContent s' = editorContent s
  ∧ editorDirty s' = editorDirty s ∧ memoLastSavedContent s' = memoLastSavedContent s.

End AppMore.

Module Setup.

Definition backslash : ascii := "\"%char.
Definition quote : ascii := "034"%char.

(** `value.replace(/c/g, by)` for a one-character pattern. *)
Fixpoint replace_all (c : ascii) (by_ : string) (value : string) : string :=
  match value with
  | EmptyString => EmptyString
  | String x rest =>
      if bool_decide (x = c) then by_ +:+ replace_all c by_ rest
      else String x (replace_all c by_ rest)
  end.

Definition escapeJson (value : string) : string :=
  replace_all quote (String backslash (String quote ""))
    (replace_all backslash (String backslash (String backslash "")) value).

(** What [escapeJson] writes for one character. *)
Definition escaped (x : ascii) : string :=
  if bool_decide (x = backslash) then String backslash (String backslash "")
  else if bool_decide (x = quote) then String backslash (String quote "")
  else String x "".

(** How a JSON reader takes the inside of a string literal that uses only
    the two escapes [escapeJson] writes: a bare quote would end the
    literal, any other escape is not read here. *)
Fixpoint unescape (s : string) : option string :=
  match s with
  | EmptyString => Some EmptyString
  | String x rest =>
      if bool_decide (x = backslash) then
        match rest with
        | String y rest' =>
            if bool_decide (y = backslash) || bool_decide (y = quote)
            then String y <$> unescape rest'
            else None
        | EmptyString => None
        end
      else if bool_decide (x = quote) then None
      else String x <$> unescape rest
  end.

End Setup.

Module WorkerFacts.
Import Worker WorkerSpec.

Lemma past_auth_stores amb r w :
  DB (past_auth amb r w) = DB w ∧ MEMO_KV (past_auth amb r w) = MEMO_KV w.
Proof.
  unfold past_auth, requireAuth.
  destruct (getBearerToken r) as [tok|]; [|done].
  unfold bind, KV_get; simpl.
  destruct (kv_get _ _ _) as [t|]; [destruct (text_truthy t)|]; done.
Qed.

Lemma past_auth_ops amb r w tok :
  getBearerToken r = Some tok →
  ops (past_auth amb r w) = (ops w ++ [KvGet ("auth:token:" +:+ tok)])%list.
Proof.
  intros Htok. unfold past_auth, requireAuth. rewrite Htok.
  unfold bind, KV_get; simpl.
  destruct (kv_get _ _ _) as [t|]; [destruct (text_truthy t)|]; done.
Qed.

Lemma authenticated_token amb r w :
  authenticated amb r w = true → ∃ tok, getBearerToken r = Some tok.
Proof.
  unfold authenticated, requireAuth.
  destruct (getBearerToken r) as [tok|]; [eauto|done].
Qed.

Lemma fetch_past_auth env amb r w :
  method r ≠ "OPTIONS" →
  String.prefix API_PREFIX (pathname r) = true →
  ¬ (pathname r = "/api/login" ∧ method r = "POST") →
  authenticated amb r w = true →
  fetch env amb r w = routes env amb r (past_auth amb r w).
Proof.
  intros Hm Hp Hl Ha. unfold fetch.
  rewrite bool_decide_false by done. rewrite Hp; simpl.
  destruct (bool_decide (pathname r = API_PREFIX +:+ "/login")
            && bool_decide (method r = "POST")) eqn:E.
  { apply andb_true_iff in E as [E1 E2].
    apply bool_decide_eq_true in E1, E2. by destruct Hl. }
  unfold authenticated, past_auth in *. unfold bind.
  destruct (requireAuth r amb w) as [[resp|tok] w']; simpl in *; done.
Qed.


Lemma payload_check r k :
  (if truthy (readJson r) then as_string (get_prop (readJson r) k) else None)
  = string_field (json_body r) k.
Proof.
  unfold readJson, string_field.
  destruct (json_body r) as [[]|]; simpl; try done; by case_match.
Qed.

Example login_issues_token :
  (fetch env0 (at_ 0 "t0") login_request empty_world).1
  = jsonResponse (JObj [("token", JStr "tok")]) 200
  ∧ authenticated (at_ 5 "t5") (bearer "GET" "/api/memos" None) w0 = true.
Proof. by vm_compute. Qed.

(** *** Creating a memo *)

Lemma routes_create env amb r w :
  method r = "POST" → pathname r = "/api/memos" →
  routes env amb r w = create_memo amb r w.
Proof. intros Hm Hp. unfold routes. rewrite Hm, Hp. reflexivity. Qed.

Lemma create_memo_run amb r w :
  create_memo amb r w =
  match string_field (json_body r) "content" with
  | None => (jsonResponse (error_json "invalid_payload") 400, w)
  | Some c =>
      let i := (last_row_id (DB w) + 1)%N in
      let m := mkMemo i c (iso_now amb) (iso_now amb) in
      (jsonResponse (row_json m) 201,
       {| DB := {| memos := memos (DB w) ++ [m]; last_row_id := i |};
          MEMO_KV := delete MEMO_LIST_CACHE_KEY (MEMO_KV w);
          ops := (ops w ++ [DbInsert]) ++ [KvDelete MEMO_LIST_CACHE_KEY] |})
  end.
Proof.
  unfold create_memo. rewrite payload_check.
  destruct (string_field (json_body r) "content"); reflexivity.
Qed.

(** C3, as the handler has it: an authenticated `POST /api/memos` whose body
    has no string [content] is refused with 400 `invalid_payload` and
    touches neither store; with any string [content], the empty one
    included, it appends the row with both timestamps set to the current
    time, deletes the list cache key and answers 201 with the created row
    and its identifier. *)
Theorem create_memo_contract env amb r w :
  method r = "POST" → pathname r = "/api/memos" →
  authenticated amb r w = true →
  match string_field (json_body r) "content" with
  | None =>
      (fetch env amb r w).1 = jsonResponse (error_json "invalid_payload") 400
      ∧ DB (fetch env amb r w).2 = DB w
      ∧ MEMO_KV (fetch env amb r w).2 = MEMO_KV w
  | Some c =>
      let i := (last_row_id (DB w) + 1)%N in
      let m := mkMemo i c (iso_now amb) (iso_now amb) in
      m_created_at m = m_updated_at m
      ∧ (fetch env amb r w).1 = jsonResponse (row_json m) 201
      ∧ memos (DB (fetch env amb r w).2) = (memos (DB w) ++ [m])%list
      ∧ MEMO_KV (fetch env amb r w).2 = delete MEMO_LIST_CACHE_KEY (MEMO_KV w)
  end.
Proof.
  intros Hm Hp Ha.
  rewrite fetch_past_auth;
    [|rewrite Hm; done|rewrite Hp; done|rewrite Hp; intros [? _]; done|done].
  rewrite routes_create by done. rewrite create_memo_run.
  destruct (past_auth_stores amb r w) as [Hdb Hkv].
  destruct (string_field (json_body r) "content") as [c|]; simpl.
  - rewrite Hdb, Hkv. done.
  - done.
Qed.

Lemma create_memo_contract_witness :
  (fetch env0 (at_ 5 "t5")
     (bearer "POST" "/api/memos" (Some (JObj [("content", JStr "a")]))) w0).1
  = jsonResponse (row_json (mkMemo 1 "a" "t5" "t5")) 201.
Proof.
  pose proof (create_memo_contract env0 (at_ 5 "t5")
    (bearer "POST" "/api/memos" (Some (JObj [("content", JStr "a")]))) w0
    eq_refl eq_refl ltac:(vm_compute; reflexivity)) as H.
  simpl in H. exact (proj1 (proj2 H)).
Defined.

(** An empty [content] is a string: the handler checks the type of the
    field, not its length, and creates the memo. *)
Lemma create_memo_accepts_empty_content :
  authenticated (at_ 5 "t5")
    (bearer "POST" "/api/memos" (Some (JObj [("content", JStr "")]))) w0 = true
  ∧ (fetch env0 (at_ 5 "t5")
       (bearer "POST" "/api/memos" (Some (JObj [("content", JStr "")]))) w0).1
    = jsonResponse (row_json (mkMemo 1 "" "t5" "t5")) 201
  ∧ (fetch env0 (at_ 5 "t5")
       (bearer "POST" "/api/memos" (Some (JObj [("content", JStr "")]))) w0).1
    ≠ jsonResponse (error_json "invalid_payload") 400.
Proof. split; [|split]; [by vm_compute..|]. vm_compute. discriminate. Qed.

(** *** The memo-id routes *)

Lemma memoIdMatch_path x :
  memoIdMatch ("/api/memos/" +:+ x) =
  if negb (bool_decide (x = "")) && all_digits x then Some x else None.
Proof. reflexivity. Qed.

Lemma memo_path_prefix x : String.prefix API_PREFIX ("/api/memos/" +:+ x) = true.
Proof. reflexivity. Qed.

Lemma length_app (a b : string) :
  String.length (a +:+ b) = (String.length a + String.length b)%nat.
Proof.
  induction a as [|ch a IH]; [reflexivity|].
  change (String ch a +:+ b) with (String ch (a +:+ b)). simpl. by rewrite IH.
Qed.

Lemma memo_path_not x s :
  (String.length s < 11)%nat → "/api/memos/" +:+ x ≠ s.
Proof.
  intros Hlen Heq. subst s. revert Hlen.
  rewrite length_app. simpl. lia.
Qed.

Lemma routes_memo_id env amb r w d :
  pathname r = "/api/memos/" +:+ d → d ≠ "" → all_digits d = true →
  routes env amb r w =
  (if bool_decide (method r = "GET") then read_memo env amb (Number_of_digits d)
   else if bool_decide (method r = "PUT") then update_memo amb r (Number_of_digits d)
   else if bool_decide (method r = "DELETE") then delete_memo (Number_of_digits d)
   else clip_or_not_found env amb r) w.
Proof.
  intros Hp Hd Hdig. unfold routes. rewrite Hp, memoIdMatch_path.
  rewrite (bool_decide_false (_ = API_PREFIX +:+ "/memos"))
    by (apply memo_path_not; simpl; lia).
  simpl. rewrite (bool_decide_false (d = "")) by done. rewrite Hdig. reflexivity.
Qed.

Lemma has_id_touch i c t x : has_id i (touch i c t x) = has_id i x.
Proof. unfold touch. destruct (has_id i x) eqn:E; [|done]. exact E. Qed.

Lemma find_touch i c t l :
  find (has_id i) (map (touch i c t) l) = touch i c t <$> find (has_id i) l.
Proof.
  induction l as [|x l IH]; [done|]. simpl. rewrite has_id_touch.
  destruct (has_id i x); [done|apply IH].
Qed.

Lemma changes_zero i l :
  length (filter (λ r, has_id i r = true) l) = 0%nat ↔ find (has_id i) l = None.
Proof.
  induction l as [|x l IH]; [done|]. simpl. rewrite filter_cons.
  destruct (has_id i x) eqn:E.
  - rewrite decide_True by done. simpl. split; intros; discriminate.
  - rewrite decide_False by done. exact IH.
Qed.

Lemma touch_absent i c t l :
  find (has_id i) l = None → map (touch i c t) l = l.
Proof.
  induction l as [|x l IH]; [done|]. simpl.
  destruct (has_id i x) eqn:E; [done|]. intros H.
  unfold touch at 1. rewrite E. f_equal. by apply IH.
Qed.

Lemma find_has_id i l r : find (has_id i) l = Some r → m_id r = i.
Proof.
  intros H. apply find_some in H as [_ H].
  unfold has_id in H. by apply bool_decide_eq_true in H.
Qed.

Lemma db_first_None i db :
  db_first i db = None ↔ ∀ r, r ∈ memos db → m_id r ≠ i.
Proof.
  unfold db_first. split.
  - intros H r Hin Hid. apply list_elem_of_In in Hin.
    pose proof (find_none _ _ H r Hin) as Hn.
    unfold has_id in Hn. by apply bool_decide_eq_false in Hn.
  - intros H. destruct (find (has_id i) (memos db)) as [r|] eqn:E; [|done].
    pose proof (find_has_id _ _ _ E) as Hid.
    apply find_some in E as [Hin _]. apply list_elem_of_In in Hin.
    by destruct (H r Hin).
Qed.

Lemma touch_rows i c t l :
  Forall2 (λ r0 r1, m_id r1 = m_id r0 ∧ m_created_at r1 = m_created_at r0
                    ∧ (m_id r0 = i → m_content r1 = c ∧ m_updated_at r1 = t)
                    ∧ (m_id r0 ≠ i → r1 = r0))
          l (map (touch i c t) l).
Proof.
  induction l as [|x l IH]; constructor; [|done].
  unfold touch, has_id. case_bool_decide; simpl; naive_solver.
Qed.

Lemma update_memo_run amb r w i c :
  string_field (json_body r) "content" = Some c →
  update_memo amb r i w =
  match db_first i (DB w) with
  | None =>
      (jsonResponse (error_json "not_found") 404,
       {| DB := DB w; MEMO_KV := MEMO_KV w; ops := ops w ++ [DbUpdate i] |})
  | Some old =>
      (jsonResponse (row_json (mkMemo i c (m_created_at old) (iso_now amb))) 200,
       {| DB := {| memos := map (touch i c (iso_now amb)) (memos (DB w));
                   last_row_id := last_row_id (DB w) |};
          MEMO_KV := delete (memo_cache_key i) (delete MEMO_LIST_CACHE_KEY (MEMO_KV w));
          ops := (((ops w ++ [DbUpdate i]) ++ [KvDelete MEMO_LIST_CACHE_KEY])
                  ++ [KvDelete (memo_cache_key i)]) ++ [DbFirst i] |})
  end.
Proof.
  intros Hc. unfold update_memo. rewrite payload_check, Hc.
  unfold bind, DB_update, db_update. simpl.
  unfold db_first.
  destruct (find (has_id i) (memos (DB w))) as [old|] eqn:E.
  - rewrite bool_decide_false.
    2:{ intros H0. apply changes_zero in H0. congruence. }
    unfold KV_delete, DB_first, db_first, set_db, set_kv, log, ret; simpl.
    rewrite find_touch, E. simpl.
    unfold touch. pose proof (find_has_id _ _ _ E) as Hid.
    unfold has_id. rewrite bool_decide_true by done. rewrite Hid. reflexivity.
  - rewrite bool_decide_true by (by apply changes_zero).
    unfold ret, log, set_db. simpl. rewrite touch_absent by done.
    by destruct (DB w).
Qed.




(** *** The clip slot *)

Lemma routes_clip env amb r w :
  pathname r = "/api/clip" →
  routes env amb r w = clip_or_not_found env amb r w.
Proof. intros Hp. unfold routes. rewrite Hp. reflexivity. Qed.

Lemma save_clip_run env amb r w t :
  string_field (json_body r) "text" = Some t →
  save_clip env amb r w =
  (jsonResponse (JObj [("text", JStr t); ("created_at", JStr (iso_now amb))]) 201,
   {| DB := DB w;
      MEMO_KV := <[CLIP_CACHE_KEY :=
                    {| kv_text := Stringified
                         (JObj [("text", JStr t); ("created_at", JStr (iso_now amb))]);
                       kv_expires := now amb
                         + getNumberEnv (CLIP_TTL_SECONDS env) (60 * 60 * 24) |}]>
                 (MEMO_KV w);
      ops := ops w ++ [KvPut CLIP_CACHE_KEY] |}).
Proof. intros Ht. unfold save_clip. rewrite payload_check, Ht. reflexivity. Qed.

Lemma getNumberEnv_pos v fallback : 0 < fallback → 0 < getNumberEnv v fallback.
Proof.
  intros Hf. unfold getNumberEnv. destruct v as [n|]; [|done].
  destruct (0 <? n) eqn:E; [by apply Z.ltb_lt in E|done].
Qed.

(** C8: saving a clip text and reading the slot before it expires gives
    the text back with the timestamp of the save, for every string, the
    empty one included; that answer differs from the `{text: null}` a read
    gives when nothing was saved or the slot has expired. *)
Theorem clip_round_trip env amb1 amb2 r1 r2 w t :
  method r1 = "POST" → pathname r1 = "/api/clip" →
  authenticated amb1 r1 w = true →
  string_field (json_body r1) "text" = Some t →
  method r2 = "GET" → pathname r2 = "/api/clip" →
  authenticated amb2 r2 (fetch env amb1 r1 w).2 = true →
  now amb2 < now amb1 + getNumberEnv (CLIP_TTL_SECONDS env) (60 * 60 * 24) →
  let saved := JObj [("text", JStr t); ("created_at", JStr (iso_now amb1))] in
  (fetch env amb1 r1 w).1 = jsonResponse saved 201
  ∧ (fetch env amb2 r2 (fetch env amb1 r1 w).2).1 = jsonResponse saved 200
  ∧ saved ≠ JObj [("text", JNull)]
  ∧ (∀ amb r w', method r = "GET" → pathname r = "/api/clip" →
       authenticated amb r w' = true →
       kv_get (now amb) CLIP_CACHE_KEY (MEMO_KV w') = None →
       (fetch env amb r w').1 = jsonResponse (JObj [("text", JNull)]) 200).
Proof.
  intros Hm1 Hp1 Ha1 Ht Hm2 Hp2 Ha2 Hlive saved.
  assert (Hsave : fetch env amb1 r1 w = save_clip env amb1 r1 (past_auth amb1 r1 w)).
  { rewrite fetch_past_auth;
      [|rewrite Hm1; done|rewrite Hp1; done|rewrite Hp1; intros [? _]; done|done].
    rewrite routes_clip by done. unfold clip_or_not_found.
    rewrite Hm1, Hp1. reflexivity. }
  assert (Hread : ∀ amb r w', method r = "GET" → pathname r = "/api/clip" →
            authenticated amb r w' = true →
            fetch env amb r w' = read_clip amb (past_auth amb r w')).
  { intros amb r w' Hm Hp Ha.
    rewrite fetch_past_auth;
      [|rewrite Hm; done|rewrite Hp; done|rewrite Hp; intros [? _]; done|done].
    rewrite routes_clip by done. unfold clip_or_not_found.
    rewrite Hm, Hp. reflexivity. }
  rewrite (Hread amb2 r2) by done.
  rewrite Hsave in *. rewrite (save_clip_run _ _ _ _ t) in * by done.
  cbn [fst snd].
  split; [done|]. split.
  - unfold read_clip, bind, KV_get. cbn [fst snd].
    match goal with
    | |- context [past_auth amb2 r2 ?x] =>
        destruct (past_auth_stores amb2 r2 x) as [_ Hkv]; rewrite Hkv
    end.
    cbn [MEMO_KV]. unfold kv_get. rewrite lookup_insert_eq. cbn [kv_expires kv_text].
    apply Z.ltb_lt in Hlive. rewrite Hlive. reflexivity.
  - split; [discriminate|].
    intros amb r w' Hm Hp Ha Hnone. rewrite Hread by done.
    unfold read_clip, bind, KV_get. cbn [fst snd].
    destruct (past_auth_stores amb r w') as [_ Hkv]. rewrite Hkv, Hnone. reflexivity.
Qed.

Lemma clip_round_trip_witness :
  (fetch env0 (at_ 86404 "t86404") (bearer "GET" "/api/clip" None)
     (fetch env0 (at_ 5 "t5")
        (bearer "POST" "/api/clip" (Some (JObj [("text", JStr "")]))) w0).2).1
  = jsonResponse (JObj [("text", JStr ""); ("created_at", JStr "t5")]) 200.
Proof.
  exact (proj1 (proj2 (clip_round_trip env0 (at_ 5 "t5") (at_ 86404 "t86404")
    (bearer "POST" "/api/clip" (Some (JObj [("text", JStr "")])))
    (bearer "GET" "/api/clip" None) w0 ""
    eq_refl eq_refl ltac:(vm_compute; reflexivity) eq_refl
    eq_refl eq_refl ltac:(vm_compute; reflexivity) ltac:(vm_compute; reflexivity)))).
Defined.

(** *** Requests that match no route *)

Lemma routes_not_found env amb r w :
  endpoint (method r) (pathname r) = false →
  routes env amb r w = (jsonResponse (error_json "not_found") 404, w).
Proof.
  unfold endpoint, routes, clip_or_not_found. intros He.
  change (API_PREFIX +:+ "/memos") with "/api/memos".
  change (API_PREFIX +:+ "/clip") with "/api/clip".
  destruct (memoIdMatch (pathname r));
    repeat case_bool_decide; simpl in *; try done; congruence.
Qed.

Lemma endpoint_not_login m p :
  endpoint m p = false → ¬ (p = "/api/login" ∧ m = "POST").
Proof.
  unfold endpoint. intros He [-> ->]. vm_compute in He. discriminate.
Qed.

Lemma memo_path_no_endpoint m x :
  x = "" ∨ all_digits x = false → endpoint m ("/api/memos/" +:+ x) = false.
Proof.
  intros Hx. unfold endpoint. rewrite memoIdMatch_path.
  rewrite !(bool_decide_false ("/api/memos/" +:+ x = _))
    by (apply memo_path_not; simpl; lia).
  destruct Hx as [->|Hx]; [reflexivity|]. rewrite Hx.
  by rewrite andb_false_r.
Qed.

Lemma non_numeric_memo_path env amb r w x :
  method r ≠ "OPTIONS" →
  pathname r = "/api/memos/" +:+ x →
  x = "" ∨ all_digits x = false →
  authenticated amb r w = true →
  (fetch env amb r w).1 = jsonResponse (error_json "not_found") 404
  ∧ DB (fetch env amb r w).2 = DB w
  ∧ MEMO_KV (fetch env amb r w).2 = MEMO_KV w
  ∧ ∃ tok, getBearerToken r = Some tok
      ∧ ops (fetch env amb r w).2 = (ops w ++ [KvGet ("auth:token:" +:+ tok)])%list.
Proof.
  intros Hm Hp Hx Ha.
  pose proof (memo_path_no_endpoint (method r) x Hx) as He. rewrite <- Hp in He.
  rewrite fetch_past_auth;
    [|done|rewrite Hp; apply memo_path_prefix|by apply endpoint_not_login|done].
  rewrite routes_not_found by done. cbn [fst snd].
  destruct (past_auth_stores amb r w) as [Hdb Hkv].
  destruct (authenticated_token _ _ _ Ha) as [tok Htok].
  repeat split; [done..|]. exists tok. split; [done|].
  by apply past_auth_ops.
Qed.

(** C10, as the handler has it: an authenticated request other than an
    `OPTIONS` preflight to `/api/memos/{id}`, where `{id}` is not a
    non-empty run of decimal digits, is answered 404 `not_found`; beyond
    the session lookup of [requireAuth] the handler performs no store operation
    and both stores are as before. *)
Theorem memo_id_must_be_digits env amb r w x :
  method r ≠ "OPTIONS" →
  pathname r = "/api/memos/" +:+ x →
  x = "" ∨ all_digits x = false →
  authenticated amb r w = true →
  (fetch env amb r w).1 = jsonResponse (error_json "not_found") 404
  ∧ DB (fetch env amb r w).2 = DB w
  ∧ MEMO_KV (fetch env amb r w).2 = MEMO_KV w
  ∧ ∃ tok, getBearerToken r = Some tok
      ∧ ops (fetch env amb r w).2 = (ops w ++ [KvGet ("auth:token:" +:+ tok)])%list.
Proof. apply non_numeric_memo_path. Qed.

(** C5: an authenticated `PUT /api/memos/{id}` with a string [content]
    answers 404 `not_found` and leaves both stores as they were when no
    memo has that identifier (be it that `{id}` is no decimal number or
    that no row carries it); otherwise it answers 200 with the row as it
    now stands in the table (identifier and [created_at] of the old row,
    the new content, [updated_at] the current time), every row keeps its
    identifier and creation time, rows with another identifier are
    untouched, and both the list cache key and the identifier's cache key
    are deleted. *)
Theorem update_memo_contract env amb r w x c :
  method r = "PUT" → pathname r = "/api/memos/" +:+ x →
  authenticated amb r w = true →
  string_field (json_body r) "content" = Some c →
  let i := Number_of_digits x in
  let resp := (fetch env amb r w).1 in
  let w' := (fetch env amb r w).2 in
  (x = "" ∨ all_digits x = false ∨ (∀ row, row ∈ memos (DB w) → m_id row ≠ i) →
     resp = jsonResponse (error_json "not_found") 404
     ∧ DB w' = DB w ∧ MEMO_KV w' = MEMO_KV w)
  ∧ (∀ old, x ≠ "" → all_digits x = true → db_first i (DB w) = Some old →
     resp = jsonResponse (row_json (mkMemo i c (m_created_at old) (iso_now amb))) 200
     ∧ db_first i (DB w') = Some (mkMemo i c (m_created_at old) (iso_now amb))
     ∧ Forall2 (λ r0 r1, m_id r1 = m_id r0 ∧ m_created_at r1 = m_created_at r0
                         ∧ (m_id r0 = i → m_content r1 = c ∧ m_updated_at r1 = iso_now amb)
                         ∧ (m_id r0 ≠ i → r1 = r0))
               (memos (DB w)) (memos (DB w'))
     ∧ MEMO_KV w' !! MEMO_LIST_CACHE_KEY = None
     ∧ MEMO_KV w' !! memo_cache_key i = None
     ∧ MEMO_KV w' = delete (memo_cache_key i) (delete MEMO_LIST_CACHE_KEY (MEMO_KV w))).
Proof.
  intros Hm Hp Ha Hc i resp w'. subst resp w'.
  assert (Hnum : x ≠ "" → all_digits x = true →
    fetch env amb r w = update_memo amb r i (past_auth amb r w)).
  { intros Hd Hdig.
    rewrite fetch_past_auth;
      [|rewrite Hm; done|rewrite Hp; apply memo_path_prefix
       |rewrite Hm; intros [_ ?]; done|done].
    rewrite (routes_memo_id _ _ _ _ x) by done. rewrite Hm. reflexivity. }
  destruct (past_auth_stores amb r w) as [Hdb Hkv].
  split.
  - intros Hno.
    destruct (decide (x = "")) as [Hx|Hx];
      [|destruct (all_digits x) eqn:Hdig].
    + destruct (non_numeric_memo_path env amb r w x) as (? & ? & ? & _); auto.
      rewrite Hm. done.
    + destruct Hno as [?|[?|Hno]]; [done..|].
      rewrite Hnum by done. rewrite (update_memo_run _ _ _ _ c) by done.
      rewrite Hdb, Hkv. apply db_first_None in Hno. rewrite Hno. done.
    + destruct (non_numeric_memo_path env amb r w x) as (? & ? & ? & _); auto.
      rewrite Hm. done.
  - intros old Hd Hdig Hold. rewrite Hnum by done.
    rewrite (update_memo_run _ _ _ _ c) by done.
    rewrite Hdb, Hkv, Hold. simpl.
    split; [done|]. split.
    { unfold db_first. simpl. rewrite find_touch. unfold db_first in Hold.
      rewrite Hold. simpl. unfold touch, has_id.
      pose proof (find_has_id _ _ _ Hold) as Hid.
      rewrite bool_decide_true by done. by rewrite Hid. }
    split; [apply touch_rows|].
    split.
    { destruct (decide (memo_cache_key i = MEMO_LIST_CACHE_KEY)) as [->|Hne].
      - apply lookup_delete_eq.
      - rewrite lookup_delete_ne by done. apply lookup_delete_eq. }
    split; [apply lookup_delete_eq|done].
Qed.

Lemma update_memo_contract_witness :
  (fetch env0 (at_ 9 "t9")
     (bearer "PUT" "/api/memos/1" (Some (JObj [("content", JStr "b")]))) w1).1
  = jsonResponse (row_json (mkMemo 1 "b" "t5" "t9")) 200.
Proof.
  pose proof (update_memo_contract env0 (at_ 9 "t9")
    (bearer "PUT" "/api/memos/1" (Some (JObj [("content", JStr "b")]))) w1 "1" "b"
    eq_refl eq_refl ltac:(vm_compute; reflexivity) eq_refl)
    as [_ H].
  exact (proj1 (H (mkMemo 1 "a" "t5" "t5") ltac:(discriminate) eq_refl
                  ltac:(vm_compute; reflexivity))).
Defined.

Lemma memo_id_must_be_digits_witness :
  (fetch env0 (at_ 9 "t9") (bearer "PUT" "/api/memos/-1"
     (Some (JObj [("content", JStr "b")]))) w1).1
  = jsonResponse (error_json "not_found") 404.
Proof.
  exact (proj1 (memo_id_must_be_digits env0 (at_ 9 "t9")
    (bearer "PUT" "/api/memos/-1" (Some (JObj [("content", JStr "b")]))) w1 "-1"
    ltac:(discriminate) eq_refl (or_intror eq_refl) ltac:(vm_compute; reflexivity))).
Defined.

(** A preflight carrying a live bearer token to a non-numeric memo path is
    answered 204 before any routing: no 404 there. *)
Lemma preflight_answered_first :
  authenticated (at_ 9 "t9") (bearer "OPTIONS" "/api/memos/abc" None) w1 = true
  ∧ all_digits "abc" = false
  ∧ (fetch env0 (at_ 9 "t9") (bearer "OPTIONS" "/api/memos/abc" None) w1).1
    = {| status := 204; body := None |}
  ∧ (fetch env0 (at_ 9 "t9") (bearer "OPTIONS" "/api/memos/abc" None) w1).1
    ≠ jsonResponse (error_json "not_found") 404.
Proof. repeat split; by vm_compute. Qed.






(** *** Cache keys are pairwise distinct *)

Lemma pretty_N_go_not_l x s :
  (∀ s', s ≠ String "l" s') → ∀ s', pretty_N_go x s ≠ String "l" s'.
Proof.
  revert s. induction (N.lt_wf_0 x) as [x _ IH]; intros s Hs s'.
  destruct (decide (x = 0)%N) as [->|Hx]; [rewrite pretty_N_go_0; apply Hs|].
  rewrite pretty_N_go_step by lia. apply IH; [apply N.div_lt; lia|].
  intros s'' [= Hc _]. revert Hc. unfold pretty_N_char.
  repeat case_match; discriminate.
Qed.

Lemma memo_cache_key_not_list i : memo_cache_key i ≠ MEMO_LIST_CACHE_KEY.
Proof.
  unfold memo_cache_key, MEMO_LIST_CACHE_KEY.
  change ("memo:" +:+ pretty i) with
    (String "m" (String "e" (String "m" (String "o" (String ":" (pretty i)))))).
  intros [= H]. revert H. unfold pretty, pretty_N.
  case_decide; [discriminate|]. by apply pretty_N_go_not_l.
Qed.

Lemma auth_key_not_list tok : "auth:token:" +:+ tok ≠ MEMO_LIST_CACHE_KEY.
Proof. discriminate. Qed.

Lemma strip_prefix_Some p s d : strip_prefix p s = Some d → s = p +:+ d.
Proof.
  revert s. induction p as [|a p IH]; intros s; simpl.
  - by intros [= ->].
  - destruct s as [|b s]; [done|]. case_bool_decide; [|done]. subst b.
    intros H. apply IH in H. subst s. reflexivity.
Qed.

Lemma memoIdMatch_Some p d :
  memoIdMatch p = Some d → p = "/api/memos/" +:+ d ∧ d ≠ "" ∧ all_digits d = true.
Proof.
  unfold memoIdMatch. destruct (strip_prefix "/api/memos/" p) as [x|] eqn:E; [|done].
  apply strip_prefix_Some in E.
  case_bool_decide; simpl; [done|]. destruct (all_digits x) eqn:Ed; [|done].
  by intros [= <-].
Qed.

(** *** The list cache stays coherent with the table *)

Lemma absent_kept i l :
  find (has_id i) l = None → filter (λ r, has_id i r = false) l = l.
Proof.
  induction l as [|x l IH]; [done|]. simpl.
  destruct (has_id i x) eqn:E; [done|]. intros H.
  rewrite filter_cons, decide_True by done. f_equal. by apply IH.
Qed.

Lemma delete_memo_run i w :
  delete_memo i w =
  match db_first i (DB w) with
  | None =>
      (jsonResponse (error_json "not_found") 404,
       {| DB := DB w; MEMO_KV := MEMO_KV w; ops := ops w ++ [DbDelete i] |})
  | Some _ =>
      ({| status := 204; body := None |},
       {| DB := {| memos := filter (λ r, has_id i r = false) (memos (DB w));
                   last_row_id := last_row_id (DB w) |};
          MEMO_KV := delete (memo_cache_key i) (delete MEMO_LIST_CACHE_KEY (MEMO_KV w));
          ops := ((ops w ++ [DbDelete i]) ++ [KvDelete MEMO_LIST_CACHE_KEY])
                 ++ [KvDelete (memo_cache_key i)] |})
  end.
Proof.
  unfold delete_memo, bind, DB_delete, db_delete, db_first. simpl.
  destruct (find (has_id i) (memos (DB w))) as [old|] eqn:E.
  - rewrite bool_decide_false; [reflexivity|].
    intros H0. apply changes_zero in H0. congruence.
  - rewrite bool_decide_true by (by apply changes_zero).
    unfold ret, log, set_db. simpl. rewrite absent_kept by done.
    by destruct (DB w).
Qed.

Lemma coherent_past_auth amb r w : coherent w → coherent (past_auth amb r w).
Proof.
  unfold coherent. destruct (past_auth_stores amb r w) as [-> ->]. done.
Qed.

Lemma coherent_login env amb r w : coherent w → coherent (login_route env amb r w).2.
Proof.
  unfold login_route. case_match; [done|].
  unfold coherent, bind, KV_put, kv_put; simpl. intros Hc e.
  rewrite lookup_insert_ne by apply auth_key_not_list. apply Hc.
Qed.

Lemma coherent_list_memos env amb w : coherent w → coherent (list_memos env amb w).2.
Proof.
  intros Hc. unfold list_memos, bind, KV_get. cbn [fst snd].
  assert (Hmiss : ∀ o, coherent
    ((let* rows := DB_all in
      let* _ := KV_put (now amb) MEMO_LIST_CACHE_KEY (Stringified (rows_json rows))
                  (getNumberEnv (CACHE_TTL_SECONDS env) 60) in
      ret (jsonResponse (rows_json rows) 200)) (log o w)).2).
  { intros o. unfold coherent, bind, DB_all, KV_put, kv_put, ret; simpl.
    intros e. rewrite lookup_insert_eq. by intros [= <-]. }
  destruct (kv_get (now amb) MEMO_LIST_CACHE_KEY (MEMO_KV w)) as [t|];
    [destruct (text_truthy t)|]; [done|apply Hmiss..].
Qed.

Lemma coherent_read_memo env amb i w : coherent w → coherent (read_memo env amb i w).2.
Proof.
  intros Hc. unfold read_memo, bind, KV_get. cbn [fst snd].
  assert (Hmiss : ∀ o, coherent
    ((let* row := DB_first i in
      match row with
      | None => ret (jsonResponse (error_json "not_found") 404)
      | Some r0 =>
          let* _ := KV_put (now amb) (memo_cache_key i) (Stringified (row_json r0))
                      (getNumberEnv (CACHE_TTL_SECONDS env) 60) in
          ret (jsonResponse (row_json r0) 200)
      end) (log o w)).2).
  { intros o. unfold bind, DB_first. cbn [fst snd].
    destruct (db_first i (DB (log o w))); [|done].
    unfold coherent, bind, KV_put, kv_put, ret; simpl. intros e.
    rewrite lookup_insert_ne by apply memo_cache_key_not_list. apply Hc. }
  destruct (kv_get (now amb) (memo_cache_key i) (MEMO_KV w)) as [t|];
    [destruct (text_truthy t)|]; [done|apply Hmiss..].
Qed.

Lemma coherent_list_key_gone (w : World) :
  MEMO_KV w !! MEMO_LIST_CACHE_KEY = None → coherent w.
Proof. unfold coherent. intros ->. done. Qed.

Lemma list_key_deleted i (kv : gmap string kv_entry) :
  delete (memo_cache_key i) (delete MEMO_LIST_CACHE_KEY kv) !! MEMO_LIST_CACHE_KEY = None.
Proof.
  rewrite lookup_delete_ne by apply memo_cache_key_not_list. apply lookup_delete_eq.
Qed.

Lemma coherent_create amb r w : coherent w → coherent (create_memo amb r w).2.
Proof.
  intros Hc. rewrite create_memo_run.
  destruct (string_field (json_body r) "content"); [|done].
  apply coherent_list_key_gone. apply lookup_delete_eq.
Qed.

Lemma coherent_update amb r i w : coherent w → coherent (update_memo amb r i w).2.
Proof.
  intros Hc.
  destruct (string_field (json_body r) "content") as [c|] eqn:Ef.
  - rewrite (update_memo_run _ _ _ _ c) by done.
    destruct (db_first i (DB w)); [|done].
    apply coherent_list_key_gone, list_key_deleted.
  - unfold update_memo. rewrite payload_check, Ef. done.
Qed.

Lemma coherent_delete i w : coherent w → coherent (delete_memo i w).2.
Proof.
  intros Hc. rewrite delete_memo_run. destruct (db_first i (DB w)); [|done].
  apply coherent_list_key_gone, list_key_deleted.
Qed.

Lemma coherent_clip env amb r w : coherent w → coherent (clip_or_not_found env amb r w).2.
Proof.
  intros Hc. unfold clip_or_not_found.
  repeat case_match; try done.
  - unfold read_clip, bind, KV_get. cbn [fst snd].
    destruct (kv_get _ _ _) as [t|]; [destruct (text_truthy t)|]; done.
  - unfold save_clip. case_match; [|done].
    unfold coherent, bind, KV_put, kv_put, ret; simpl. intros e.
    rewrite lookup_insert_ne by discriminate. apply Hc.
Qed.

Lemma coherent_routes env amb r w : coherent w → coherent (routes env amb r w).2.
Proof.
  intros Hc. unfold routes.
  repeat case_match;
    auto using coherent_list_memos, coherent_create, coherent_read_memo,
      coherent_update, coherent_delete, coherent_clip.
Qed.

Lemma coherent_fetch env amb r w : coherent w → coherent (fetch env amb r w).2.
Proof.
  intros Hc. unfold fetch. repeat case_match; try done.
  - by apply coherent_login.
  - unfold bind. pose proof (coherent_past_auth amb r w Hc) as Hg.
    unfold past_auth in Hg.
    destruct (requireAuth r amb w) as [[resp|tok] w']; [done|].
    by apply coherent_routes.
Qed.

Lemma coherent_run env l w : coherent w → coherent (run env l w).
Proof.
  revert w. induction l as [|[amb r] l IH]; intros w Hc; [done|].
  simpl. apply IH. by apply coherent_fetch.
Qed.

Lemma list_memos_coherent env amb r w :
  method r = "GET" → pathname r = "/api/memos" →
  authenticated amb r w = true → coherent w →
  (fetch env amb r w).1 = jsonResponse (rows_json (db_all (DB w))) 200.
Proof.
  intros Hm Hp Ha Hc.
  rewrite fetch_past_auth;
    [|rewrite Hm; done|rewrite Hp; done|rewrite Hp; intros [? _]; done|done].
  unfold routes. rewrite Hm, Hp. simpl.
  unfold list_memos, bind, KV_get, DB_all, KV_put, ret. cbn [fst snd].
  destruct (past_auth_stores amb r w) as [Hdb Hkv]. rewrite Hkv.
  unfold kv_get. destruct (MEMO_KV w !! MEMO_LIST_CACHE_KEY) as [e|] eqn:E.
  - destruct (now amb <? kv_expires e).
    + rewrite (Hc e E). simpl. reflexivity.
    + simpl. by rewrite Hdb.
  - simpl. by rewrite Hdb.
Qed.

Lemma write_deletes_list_key env amb r w :
  memo_write r = true → authenticated amb r w = true →
  succeeded (fetch env amb r w).1 = true →
  MEMO_KV (fetch env amb r w).2 !! MEMO_LIST_CACHE_KEY = None.
Proof.
  unfold memo_write. intros Hw Ha.
  apply orb_true_iff in Hw as [Hw|Hw].
  - apply andb_true_iff in Hw as [Hp Hm].
    apply bool_decide_eq_true in Hp, Hm.
    rewrite fetch_past_auth;
      [|rewrite Hm; done|rewrite Hp; done|rewrite Hp; intros [? _]; done|done].
    rewrite routes_create by done. rewrite create_memo_run.
    destruct (string_field (json_body r) "content"); [|by vm_compute].
    intros _. apply lookup_delete_eq.
  - destruct (memoIdMatch (pathname r)) as [d|] eqn:Em; [|done].
    apply memoIdMatch_Some in Em as (Hp & Hd & Hdig).
    assert (Hm : method r ≠ "OPTIONS").
    { apply orb_true_iff in Hw as [Hw|Hw]; apply bool_decide_eq_true in Hw;
        rewrite Hw; done. }
    rewrite fetch_past_auth;
      [|done|rewrite Hp; apply memo_path_prefix
       |rewrite Hp; intros [? _]; by eapply memo_path_not; [|done]; simpl; lia|done].
    rewrite (routes_memo_id _ _ _ _ d) by done.
    apply orb_true_iff in Hw as [Hw|Hw]; apply bool_decide_eq_true in Hw;
      rewrite Hw; simpl.
    + destruct (string_field (json_body r) "content") as [c|] eqn:Ef.
      * rewrite (update_memo_run _ _ _ _ c) by done.
        destruct (db_first _ _); [|by vm_compute]. intros _. apply list_key_deleted.
      * unfold update_memo. rewrite payload_check, Ef. by vm_compute.
    + rewrite delete_memo_run.
      destruct (db_first _ _); [|by vm_compute]. intros _. apply list_key_deleted.
Qed.

(** C4: once an authenticated memo write (create, update or delete) has
    succeeded, the list cache key is gone when the handler responds, and
    after any further sequence of requests an authenticated
    `GET /api/memos` answers with the list query on the table as it then
    stands, never with an older cached list. *)
Theorem list_read_after_write env amb r w rest amb' r' :
  memo_write r = true → authenticated amb r w = true →
  succeeded (fetch env amb r w).1 = true →
  method r' = "GET" → pathname r' = "/api/memos" →
  authenticated amb' r' (run env rest (fetch env amb r w).2) = true →
  MEMO_KV (fetch env amb r w).2 !! MEMO_LIST_CACHE_KEY = None
  ∧ (fetch env amb' r' (run env rest (fetch env amb r w).2)).1
    = jsonResponse (rows_json (db_all (DB (run env rest (fetch env amb r w).2)))) 200.
Proof.
  intros Hw Ha Hs Hm Hp Ha'.
  pose proof (write_deletes_list_key env amb r w Hw Ha Hs) as Hgone.
  split; [done|].
  apply list_memos_coherent; [done..|].
  apply coherent_run. by apply coherent_list_key_gone.
Qed.


Lemma list_read_after_write_witness :
  (fetch env0 (at_ 10 "t10") (bearer "GET" "/api/memos" None)
     (run env0
        [(at_ 6 "t6", bearer "GET" "/api/memos" None);
         (at_ 9 "t9", bearer "PUT" "/api/memos/1" (Some (JObj [("content", JStr "b")])))]
        (fetch env0 (at_ 5 "t5")
           (bearer "POST" "/api/memos" (Some (JObj [("content", JStr "a")]))) w_cached).2)).1
  = jsonResponse (rows_json [mkMemo 1 "b" "t5" "t9"]) 200.
Proof.
  pose proof (list_read_after_write env0 (at_ 5 "t5")
    (bearer "POST" "/api/memos" (Some (JObj [("content", JStr "a")]))) w_cached
    [(at_ 6 "t6", bearer "GET" "/api/memos" None);
     (at_ 9 "t9", bearer "PUT" "/api/memos/1" (Some (JObj [("content", JStr "b")])))]
    (at_ 10 "t10") (bearer "GET" "/api/memos" None)
    ltac:(vm_compute; reflexivity) ltac:(vm_compute; reflexivity)
    ltac:(vm_compute; reflexivity) eq_refl eq_refl ltac:(vm_compute; reflexivity))
    as [_ H].
  etrans; [exact H|]. vm_compute. reflexivity.
Defined.

End WorkerFacts.

Module AppFacts.
Import App AppSpec.

Example trim_example : trim "  a b
 " = "a b".
Proof. reflexivity. Qed.

(** *** Counting requests and timers *)

Lemma count_calls_app P l1 l2 :
  count_calls P (l1 ++ l2) = (count_calls P l1 + count_calls P l2)%nat.
Proof. induction l1 as [|[i k] l1 IH]; simpl; [done|]. rewrite IH. lia. Qed.

Lemma take_request_count P rid l k rest :
  take_request rid l = Some (k, rest) →
  count_calls P l = (flag (P k) + count_calls P rest)%nat.
Proof.
  revert k rest. induction l as [|[i k0] l IH]; intros k rest; simpl; [done|].
  case_bool_decide.
  - intros [= -> ->]. done.
  - destruct (take_request rid l) as [[k' rest']|]; [|done].
    intros [= -> <-]. simpl. rewrite (IH k rest') by done. unfold flag. lia.
Qed.

Lemma of_kind_app k l1 l2 :
  of_kind k (l1 ++ l2) = (of_kind k l1 ++ of_kind k l2)%list.
Proof.
  induction l1 as [|t l1 IH]; simpl; [done|].
  destruct (is_kind k t); simpl; by rewrite IH.
Qed.

Lemma of_kind_filter k (P : timer → Prop) `{∀ t, Decision (P t)} l :
  of_kind k (filter P l) = filter P (of_kind k l).
Proof.
  induction l as [|t l IH]; [done|]. rewrite filter_cons.
  destruct (decide (P t)); simpl; destruct (is_kind k t); simpl;
    rewrite ?filter_cons, ?IH; try done.
  - by rewrite decide_True.
  - by rewrite decide_False.
Qed.

(** Unfolds the functions of the script, callers first; [split_tests] then
    splits on their tests. *)
Ltac run_script :=
  unfold login_settled, refreshAll, loadClip, loadMemos, login,
    deleteMemo_settled, loadMemos_settled, loadClip_settled, clearClip_settled,
    clip_autosave_settled, saveClip_settled, saveMemo_settled,
    autosave_fired, clip_autosave_fired, markDirty, markClipDirty,
    saveMemo, saveClip, clearClip, deleteMemo, signOut, saveMemo_finally,
    scheduleAutosave, scheduleClipAutosave, selectMemo, startNewMemo,
    apiFetch_settled, apiFetch, fetchWithTimeout, setTimeout, clearTimeout,
    setToken in *.

Ltac split_tests :=
  repeat (first
    [ progress (cbn in * )
    | progress (rewrite ?count_calls_app, ?of_kind_app in * )
    | case_bool_decide; simplify_eq
    | case_match; simplify_eq
    | lia ]).

(** *** One save of a kind in flight, as long as its flag is up *)

Lemma memo_single_step e s :
  in_flight is_memo_save s = flag (isSaving s) →
  in_flight is_memo_save (step e s) = flag (isSaving (step e s)).
Proof.
  unfold in_flight, flag. intros H. destruct e as [| | | | | | | | | | | | |id|rid r];
    try (simpl; run_script; split_tests; fail).
  - simpl. destruct (find _ _) as [t|]; [|done].
    destruct (t_due t <=? clock s)%Z; [|done].
    destruct (t_kind t); simpl; run_script; split_tests.
  - simpl. destruct (take_request rid (pending s)) as [[k rest]|] eqn:E; [|done].
    rewrite (take_request_count is_memo_save _ _ _ _ E) in H.
    destruct k; simpl in H |- *; run_script; unfold flag in *; split_tests.
Qed.

Lemma clip_manual_single_step e s :
  in_flight is_manual_clip_save s = flag (clipSaving s) →
  in_flight is_manual_clip_save (step e s) = flag (clipSaving (step e s)).
Proof.
  unfold in_flight, flag. intros H. destruct e as [| | | | | | | | | | | | |id|rid r];
    try (simpl; run_script; split_tests; fail).
  - simpl. destruct (find _ _) as [t|]; [|done].
    destruct (t_due t <=? clock s)%Z; [|done].
    destruct (t_kind t); simpl; run_script; split_tests.
  - simpl. destruct (take_request rid (pending s)) as [[k rest]|] eqn:E; [|done].
    rewrite (take_request_count is_manual_clip_save _ _ _ _ E) in H.
    destruct k; simpl in H |- *; run_script; unfold flag in *; split_tests.
Qed.

Lemma clip_clear_single_step e s :
  in_flight is_clip_clear s = flag (clipClearing s) →
  in_flight is_clip_clear (step e s) = flag (clipClearing (step e s)).
Proof.
  unfold in_flight, flag. intros H. destruct e as [| | | | | | | | | | | | |id|rid r];
    try (simpl; run_script; split_tests; fail).
  - simpl. destruct (find _ _) as [t|]; [|done].
    destruct (t_due t <=? clock s)%Z; [|done].
    destruct (t_kind t); simpl; run_script; split_tests.
  - simpl. destruct (take_request rid (pending s)) as [[k rest]|] eqn:E; [|done].
    rewrite (take_request_count is_clip_clear _ _ _ _ E) in H.
    destruct k; simpl in H |- *; run_script; unfold flag in *; split_tests.
Qed.

(** *** One timer of a kind armed *)

Lemma timers_ok_clear k id s : timers_ok k s → timers_ok k (clearTimeout id s).
Proof.
  unfold timers_ok, single_timer, armed, clearTimeout.
  destruct k; cbn; rewrite of_kind_filter; (intros [->|(t & -> & Hh)]; [by left|]);
    rewrite filter_cons, filter_nil; (case_decide; [right; eauto|by left]).
Qed.

Lemma cleared_handle k s t :
  armed k s = [t] → armed k (clearTimeout (t_id t) s) = [].
Proof.
  unfold armed, clearTimeout. cbn. rewrite of_kind_filter. intros ->.
  rewrite filter_cons, filter_nil. by rewrite decide_False by (intros H; by apply H).
Qed.

Lemma armed_clear_nil k id s : armed k s = [] → armed k (clearTimeout id s) = [].
Proof. unfold armed, clearTimeout. cbn. rewrite of_kind_filter. by intros ->. Qed.

Lemma timers_ok_scheduleAutosave k s :
  timers_ok k s → timers_ok k (scheduleAutosave s).
Proof.
  intros H. unfold scheduleAutosave.
  case_bool_decide; [done|]. destruct (isSaving s); [by destruct k|].
  destruct k.
  - (* the memo timer: the old one is cleared, the new one is the only one *)
    assert (armed MemoTimer
              (match autosaveTimer s with Some id => clearTimeout id s | None => s end)
            = []) as Hnone.
    { destruct H as [H|(t & H & Hh)]; [|cbn in Hh].
      - destruct (autosaveTimer s) as [id|]; [by apply armed_clear_nil|done].
      - rewrite Hh. by apply cleared_handle. }
    right. unfold armed in *. revert Hnone.
    destruct (autosaveTimer s); cbn; rewrite of_kind_app; intros ->; cbn; eauto.
  - (* the clip timer: at most cleared *)
    assert (timers_ok ClipTimer
              (match autosaveTimer s with Some id => clearTimeout id s | None => s end))
      as H'.
    { destruct (autosaveTimer s); [by apply timers_ok_clear|done]. }
    revert H'. unfold timers_ok, single_timer, armed.
    destruct (autosaveTimer s); cbn; rewrite of_kind_app; cbn; by rewrite app_nil_r.
Qed.

Lemma timers_ok_scheduleClipAutosave k s :
  timers_ok k s → timers_ok k (scheduleClipAutosave s).
Proof.
  intros H. unfold scheduleClipAutosave.
  case_bool_decide; [done|]. destruct (clipSaving s); [by destruct k|].
  destruct k.
  - assert (timers_ok MemoTimer
              (match clipAutosaveTimer s with Some id => clearTimeout id s | None => s end))
      as H'.
    { destruct (clipAutosaveTimer s); [by apply timers_ok_clear|done]. }
    revert H'. unfold timers_ok, single_timer, armed.
    destruct (clipAutosaveTimer s); cbn; rewrite of_kind_app; cbn; by rewrite app_nil_r.
  - assert (armed ClipTimer
              (match clipAutosaveTimer s with Some id => clearTimeout id s | None => s end)
            = []) as Hnone.
    { destruct H as [H|(t & H & Hh)]; [|cbn in Hh].
      - destruct (clipAutosaveTimer s) as [id|]; [by apply armed_clear_nil|done].
      - rewrite Hh. by apply cleared_handle. }
    right. unfold armed in *. revert Hnone.
    destruct (clipAutosaveTimer s); cbn; rewrite of_kind_app; intros ->; cbn; eauto.
Qed.

(** The script functions above the schedulers, unfolded down to them. *)
Ltac to_schedulers :=
  unfold login_settled, refreshAll, loadClip, loadMemos, login,
    deleteMemo_settled, loadMemos_settled, loadClip_settled, clearClip_settled,
    clip_autosave_settled, saveClip_settled, saveMemo_settled,
    autosave_fired, clip_autosave_fired, markDirty, markClipDirty,
    saveMemo, saveClip, clearClip, deleteMemo, signOut, saveMemo_finally,
    selectMemo, startNewMemo, apiFetch_settled, apiFetch, fetchWithTimeout,
    setToken in *.

Ltac timers_frame H :=
  to_schedulers;
  repeat (first
    [ exact H
    | apply timers_ok_scheduleAutosave
    | apply timers_ok_scheduleClipAutosave
    | case_match ]).

Lemma timers_ok_step k e s : timers_ok k s → timers_ok k (step e s).
Proof.
  intros H. destruct e as [| | | | | | | | | | | | |id|rid r];
    try (cbn [step]; destruct k; timers_frame H; fail).
  - cbn [step]. pose proof (timers_ok_clear k id s H) as H'.
    destruct (find _ _) as [t|]; [|done]. destruct (t_due t <=? clock s)%Z; [|done].
    destruct (t_kind t); cbn [fired]; destruct k; timers_frame H'.
  - cbn [step]. destruct (take_request rid (pending s)) as [[c rest]|]; [|done].
    destruct c; cbn [settled]; destruct k; timers_frame H.
Qed.

(** Every state the page reaches keeps the guards' bookkeeping. *)
Lemma consistent_mounted tok : consistent (mounted tok).
Proof.
  unfold mounted. case_bool_decide; split; try done; by left.
Qed.

Lemma consistent_step e s : consistent s → consistent (step e s).
Proof.
  intros [H1 H2 H3 H4 H5]. split.
  - by apply memo_single_step.
  - by apply clip_manual_single_step.
  - by apply clip_clear_single_step.
  - by apply (timers_ok_step MemoTimer).
  - by apply (timers_ok_step ClipTimer).
Qed.

Lemma consistent_exec es s : consistent s → consistent (exec es s).
Proof.
  revert s. induction es as [|e es IH]; intros s H; [done|].
  simpl. apply IH. by apply consistent_step.
Qed.


(** *** Single flight *)

Lemma edit_while_saving v s :
  isSaving s = true →
  sent (step (Input v) s) = sent s
  ∧ pending (step (Input v) s) = pending s
  ∧ timeouts (step (Input v) s) = timeouts s
  ∧ editorDirty (step (Input v) s) = true
  ∧ (token s ≠ "" → memoAutosavePending (step (Input v) s) = true).
Proof.
  intros H. cbn [step]. unfold markDirty, scheduleAutosave. cbn.
  rewrite H. case_bool_decide; done.
Qed.

Lemma clip_edit_while_saving v s :
  clipSaving s = true →
  sent (step (ClipInput v) s) = sent s
  ∧ pending (step (ClipInput v) s) = pending s
  ∧ timeouts (step (ClipInput v) s) = timeouts s
  ∧ (token s ≠ "" → clipAutosavePending (step (ClipInput v) s) = true).
Proof.
  intros H. cbn [step]. unfold markClipDirty, scheduleClipAutosave. cbn.
  rewrite H. case_bool_decide; done.
Qed.

Lemma timers_ok_length k s : timers_ok k s → (length (armed k s) ≤ 1)%nat.
Proof. intros [->|(t & -> & _)]; simpl; lia. Qed.

Lemma timer_while_saving id t s :
  find (λ t, bool_decide (t_id t = id)) (timeouts s) = Some t →
  (t_kind t = MemoTimer → isSaving s = true →
     sent (step (Timeout id) s) = sent s ∧ pending (step (Timeout id) s) = pending s)
  ∧ (t_kind t = ClipTimer → clipSaving s = true →
     sent (step (Timeout id) s) = sent s ∧ pending (step (Timeout id) s) = pending s).
Proof.
  intros Hf. split; intros Hk Hs; cbn [step]; rewrite Hf;
    (destruct (t_due t <=? clock s)%Z; [|done]); rewrite Hk; cbn [fired].
  - unfold autosave_fired, saveMemo, clearTimeout. cbn. rewrite Hs.
    by destruct (editorDirty s).
  - unfold clip_autosave_fired, clearTimeout. cbn. by rewrite Hs.
Qed.

(** What the flags do give: in every state the page reaches, at most one
    memo save is in flight, at most one manual clip save and at most one
    clip clear are in flight (each write path under its own flag), and at
    most one autosave timer per draft is armed; an edit arriving, or a
    debounce timer firing, while a memo save (for the clip: a manual save)
    is in flight sends nothing and arms nothing, however many edits
    arrive. *)
Theorem single_flight tok es :
  let s := exec es (mounted tok) in
  (in_flight is_memo_save s ≤ 1)%nat
  ∧ (in_flight is_manual_clip_save s ≤ 1)%nat
  ∧ (in_flight is_clip_clear s ≤ 1)%nat
  ∧ (length (armed MemoTimer s) ≤ 1)%nat
  ∧ (length (armed ClipTimer s) ≤ 1)%nat
  ∧ (∀ v, isSaving s = true →
       sent (step (Input v) s) = sent s
       ∧ pending (step (Input v) s) = pending s
       ∧ timeouts (step (Input v) s) = timeouts s)
  ∧ (∀ v, clipSaving s = true →
       sent (step (ClipInput v) s) = sent s
       ∧ pending (step (ClipInput v) s) = pending s
       ∧ timeouts (step (ClipInput v) s) = timeouts s)
  ∧ (∀ id t, find (λ t, bool_decide (t_id t = id)) (timeouts s) = Some t →
       t_kind t = MemoTimer → isSaving s = true →
       sent (step (Timeout id) s) = sent s ∧ pending (step (Timeout id) s) = pending s)
  ∧ (∀ id t, find (λ t, bool_decide (t_id t = id)) (timeouts s) = Some t →
       t_kind t = ClipTimer → clipSaving s = true →
       sent (step (Timeout id) s) = sent s ∧ pending (step (Timeout id) s) = pending s).
Proof.
  intros s.
  destruct (consistent_exec es _ (consistent_mounted tok)) as [H1 H2 H3 H4 H5].
  fold s in H1, H2, H3, H4, H5.
  split; [rewrite H1; destruct (isSaving s); simpl; lia|].
  split; [rewrite H2; destruct (clipSaving s); simpl; lia|].
  split; [rewrite H3; destruct (clipClearing s); simpl; lia|].
  split; [by apply timers_ok_length|].
  split; [by apply timers_ok_length|].
  split.
  { intros v Hs. destruct (edit_while_saving v s Hs) as (? & ? & ? & _). done. }
  split.
  { intros v Hs. destruct (clip_edit_while_saving v s Hs) as (? & ? & ? & _). done. }
  split.
  - intros id t Hf. apply (timer_while_saving id t s Hf).
  - intros id t Hf. apply (timer_while_saving id t s Hf).
Qed.

(** The callback of the clip timer tests [clipSaving] and never raises it,
    whatever it sends. *)
Lemma clip_autosave_raises_no_flag s :
  clipSaving (clip_autosave_fired s) = clipSaving s.
Proof. unfold clip_autosave_fired, apiFetch. by repeat case_match. Qed.

(** C1 on three runs.  First run: the debounced clip autosave is in flight
    with [clipSaving] down, and a click on the save button sends a second
    clip save beside it.  Second and third run: an edit arrives while a
    save is in flight and that save succeeds; the reply of the clip save
    takes the text typed meanwhile as the saved snapshot, the reply of the
    memo save puts the saved content back into the editor, and in both the
    timers that fire afterwards send nothing: the edit gets no follow-up
    save at all. *)
Theorem saves_overlap_and_edits_are_lost :
  (let s := exec [ClipInput "a"; Tick 5000; Timeout 1] ready in
   clipSaving s = false
   ∧ pending s = [(3%positive, AutosaveClip)]
   ∧ pending (step ClickSaveClip s) = [(3%positive, AutosaveClip); (4%positive, SaveClip)]
   ∧ in_flight is_clip_save (step ClickSaveClip s) = 2%nat)
  ∧ (let s := exec [ClipInput "a"; ClickSaveClip; ClipInput "ab";
                    Settle 3 (Ok (PClip {| text := Some "a"; created_at := Some "t1" |}))]
               ready in
     clipText s = "ab" ∧ clipLastSavedText s = "ab"
     ∧ map s_body (sent_by is_clip_save s) = [Some (JObj [("text", JStr "a")])]
     ∧ timeouts s = [{| t_id := 2; t_kind := ClipTimer; t_due := 5000 |}]
     ∧ sent (exec [Tick 5000; Timeout 2] s) = sent s
     ∧ timeouts (exec [Tick 5000; Timeout 2] s) = [])
  ∧ (let s := exec [Input "hello"; ClickSave; Input "hello world";
                    Settle 3 (Ok (PMemo (mkMemo 1 "hello" "t1" "t1")))] ready in
     editorContent s = "hello" ∧ editorDirty s = false
     ∧ map s_body (sent_by is_memo_save s) = [Some (JObj [("content", JStr "hello")])]
     ∧ timeouts s = [{| t_id := 1; t_kind := MemoTimer; t_due := 5000 |}]
     ∧ sent (exec [Tick 5000; Timeout 1] s) = sent s
     ∧ timeouts (exec [Tick 5000; Timeout 1] s) = []).
Proof. by vm_compute. Qed.

(** *** The follow-up of a save that was overtaken by edits *)

Lemma settle_memo_save rid r k rest s :
  take_request rid (pending s) = Some (k, rest) →
  is_memo_save k = true →
  sent (step (Settle rid r) s) = sent s
  ∧ pending (step (Settle rid r) s) = rest
  ∧ clock (step (Settle rid r) s) = clock s
  ∧ isSaving (step (Settle rid r) s) = false
  ∧ memoAutosavePending (step (Settle rid r) s) = false
  ∧ (editorDirty (step (Settle rid r) s) = false ∨ token (step (Settle rid r) s) = ""
     ∨ memoAutosavePending s = false →
     timeouts (step (Settle rid r) s) = timeouts s)
  ∧ (memoAutosavePending s = true →
     editorDirty (step (Settle rid r) s) = true →
     token (step (Settle rid r) s) ≠ "" →
     ∃ t, t ∈ timeouts (step (Settle rid r) s)
          ∧ t_kind t = MemoTimer
          ∧ t_due t = clock s + AUTOSAVE_DELAY_MS
          ∧ autosaveTimer (step (Settle rid r) s) = Some (t_id t)).
Proof.
  intros E Hk. cbn [step]. rewrite E.
  destruct k; try discriminate Hk; cbn [settled];
    run_script; split_tests; repeat split; try done;
    intros; simplify_eq; try congruence; try (by intuition congruence);
    try (eexists; split; [apply elem_of_app; right; apply list_elem_of_singleton; done|done]).
Qed.


Lemma elem_of_of_kind k t l : t ∈ l → is_kind k t = true → t ∈ of_kind k l.
Proof.
  intros Hin Hk. induction l as [|t' l IH]; [by apply elem_of_nil in Hin|].
  apply elem_of_cons in Hin as [<-|Hin]; simpl.
  - rewrite Hk. apply elem_of_cons. by left.
  - destruct (is_kind k t'); [apply elem_of_cons; right|]; by apply IH.
Qed.

Lemma find_timer id t l :
  find (λ t, bool_decide (t_id t = id)) l = Some t → t ∈ l ∧ t_id t = id.
Proof.
  induction l as [|t' l IH]; simpl; [done|].
  case_bool_decide as E.
  - intros [= ->]. split; [apply list_elem_of_here|done].
  - intros H. destruct (IH H). split; [by apply list_elem_of_further|done].
Qed.

(** A memo timer that is due once [dt] has passed runs its callback. *)
Lemma due_memo_timer_fires id t dt s :
  find (λ t, bool_decide (t_id t = id)) (timeouts s) = Some t →
  t_kind t = MemoTimer → 0 ≤ dt → t_due t ≤ clock s + dt →
  step (Timeout id) (step (Tick dt) s)
  = autosave_fired (clearTimeout id (set_clock (clock s + dt) s)).
Proof.
  intros Hf Hk Hdt Hdue. cbn [step].
  rewrite (proj2 (Z.leb_le 0 dt)) by done.
  change (timeouts (set_clock (clock s + dt) s)) with (timeouts s). rewrite Hf.
  change (clock (set_clock (clock s + dt) s)) with (clock s + dt).
  rewrite (proj2 (Z.leb_le _ _)) by done. by rewrite Hk.
Qed.

Lemma follow_up_goes_out id s :
  isSaving s = false → editorDirty s = true →
  trim (editorContent s) ≠ "" → trim (editorContent s) ≠ memoLastSavedContent s →
  (selected s = None → (3 ≤ String.length (trim (editorContent s)))%nat) →
  ∀ c, ∃ q, sent (autosave_fired (clearTimeout id (set_clock c s))) = (sent s ++ [q])%list
    ∧ (s_call q = SaveMemoPut (trim (editorContent s)) true true
       ∨ s_call q = SaveMemoPost (trim (editorContent s)) true true)
    ∧ s_body q = Some (JObj [("content", JStr (trim (editorContent s)))]).
Proof.
  intros Hs Hd He Hn Hl c. unfold autosave_fired, saveMemo, clearTimeout. cbn -[trim].
  rewrite Hs, Hd. cbn -[trim]. rewrite !bool_decide_false by done. cbn -[trim].
  change (selected _) with (selected s).
  destruct (selected s) as [i|].
  - eexists. split; [reflexivity|]. split; [by left|done].
  - specialize (Hl eq_refl). rewrite (proj2 (Nat.leb_gt _ _)) by lia.
    eexists. split; [reflexivity|]. split; [by right|done].
Qed.

Lemma follow_up_stays_home id s :
  isSaving s = false → memoAutosavePending s = false →
  editorDirty s = false ∨ trim (editorContent s) = ""
  ∨ trim (editorContent s) = memoLastSavedContent s
  ∨ (selected s = None ∧ (String.length (trim (editorContent s)) < 3)%nat) →
  ∀ c, let s2 := autosave_fired (clearTimeout id (set_clock c s)) in
       sent s2 = sent s ∧ timeouts s2 = timeouts (clearTimeout id s)
       ∧ editorDirty s2 = editorDirty s.
Proof.
  intros Hs Hp H c. unfold autosave_fired, saveMemo, clearTimeout. cbn -[trim].
  rewrite Hs. destruct (editorDirty s) eqn:Hd; cbn -[trim]; [|done].
  destruct H as [H|[H|[H|[H1 H2]]]]; [done|..].
  - by rewrite H, bool_decide_true.
  - case_bool_decide; [done|]. by rewrite bool_decide_true.
  - case_bool_decide; [done|]. case_bool_decide; [done|].
    change (selected _) with (selected s). rewrite H1.
    rewrite (proj2 (Nat.leb_le _ _)) by lia. cbn -[trim].
    unfold saveMemo_finally. cbn -[trim]. rewrite Hp. cbn -[trim]. done.
Qed.

(** C2, as the script has it: an edit arriving while a memo save is in
    flight (with a session token stored) raises the pending flag and sends
    nothing; when that save settles with the flag up, no request is sent
    at that moment: if the draft is then dirty and a token is stored, the
    autosave timer is armed anew for a full [AUTOSAVE_DELAY_MS] and is the
    only memo timer armed, otherwise nothing is scheduled.  When a memo
    timer armed then is due and fires with no other event in between, one
    autosave of the trimmed draft goes out if the draft is dirty, its
    trimmed content is not empty, differs from the last saved content and,
    with no memo selected, has at least three characters; otherwise the
    firing sends nothing, leaves no memo timer armed and leaves the dirty
    flag as it was. *)
Theorem follow_up_is_debounced rid r k rest s :
  consistent s →
  take_request rid (pending s) = Some (k, rest) →
  is_memo_save k = true →
  memoAutosavePending s = true →
  let s' := step (Settle rid r) s in
  sent s' = sent s
  ∧ in_flight is_memo_save s' = 0%nat
  ∧ memoAutosavePending s' = false
  ∧ (editorDirty s' = true → token s' ≠ "" →
     ∃ t, armed MemoTimer s' = [t]
          ∧ t_due t = clock s' + AUTOSAVE_DELAY_MS
          ∧ autosaveTimer s' = Some (t_id t))
  ∧ (editorDirty s' = false ∨ token s' = "" → timeouts s' = timeouts s)
  ∧ (∀ v s0, isSaving s0 = true → token s0 ≠ "" →
       memoAutosavePending (step (Input v) s0) = true
       ∧ sent (step (Input v) s0) = sent s0)
  ∧ (∀ id t dt,
       find (λ t, bool_decide (t_id t = id)) (timeouts s') = Some t →
       t_kind t = MemoTimer → 0 ≤ dt → t_due t ≤ clock s' + dt →
       let s2 := step (Timeout id) (step (Tick dt) s') in
       let content := trim (editorContent s') in
       (editorDirty s' = true → content ≠ "" → content ≠ memoLastSavedContent s' →
        (selected s' = None → (3 ≤ String.length content)%nat) →
        ∃ q, sent s2 = (sent s' ++ [q])%list
             ∧ (s_call q = SaveMemoPut content true true
                ∨ s_call q = SaveMemoPost content true true)
             ∧ s_body q = Some (JObj [("content", JStr content)]))
       ∧ (editorDirty s' = false ∨ content = "" ∨ content = memoLastSavedContent s'
          ∨ (selected s' = None ∧ (String.length content < 3)%nat) →
          sent s2 = sent s' ∧ armed MemoTimer s2 = []
          ∧ editorDirty s2 = editorDirty s')).
Proof.
  intros Hc E Hk Hp s'.
  destruct (settle_memo_save rid r k rest s E Hk)
    as (Hsent & Hpend & Hclock & Hsaving & Hflag & Hnone & Harm).
  pose proof (consistent_step (Settle rid r) s Hc) as [Hm _ _ Ht _].
  fold s' in Hsent, Hpend, Hclock, Hsaving, Hflag, Hnone, Harm, Hm, Ht.
  split; [done|]. split; [by rewrite Hm, Hsaving|]. split; [done|].
  split; [|split; [|split]].
  - intros Hd Htok. destruct (Harm Hp Hd Htok) as (t & Hin & Hkind & Hdue & Hh).
    assert (t ∈ armed MemoTimer s') as Harmed.
    { apply elem_of_of_kind; [done|]. unfold is_kind. by rewrite Hkind. }
    destruct Ht as [Hnil|(t' & Hone & _)].
    + rewrite Hnil in Harmed. by apply elem_of_nil in Harmed.
    + rewrite Hone in Harmed. apply list_elem_of_singleton in Harmed. subst t'.
      exists t. rewrite Hclock. done.
  - intros [Hd|Htok]; apply Hnone; auto.
  - intros v s0 Hs Htok.
    destruct (edit_while_saving v s0 Hs) as (? & _ & _ & _ & Hpf). auto.
  - intros id t dt Hf Hkind Hdt Hdue s2 content. unfold s2.
    rewrite (due_memo_timer_fires id t dt s' Hf Hkind Hdt Hdue). split.
    + intros Hd He Hn Hl. by apply follow_up_goes_out.
    + intros Hno.
      destruct (follow_up_stays_home id s' Hsaving Hflag Hno (clock s' + dt))
        as (H1 & H2 & H3).
      split; [done|]. split; [|done].
      unfold armed. rewrite H2. fold (armed MemoTimer (clearTimeout id s')).
      destruct (find_timer id t _ Hf) as [Hin Hid].
      assert (t ∈ armed MemoTimer s') as Harmed.
      { apply elem_of_of_kind; [done|]. unfold is_kind. by rewrite Hkind. }
      destruct Ht as [Hnil|(t' & Hone & _)].
      * rewrite Hnil in Harmed. by apply elem_of_nil in Harmed.
      * rewrite Hone in Harmed. apply list_elem_of_singleton in Harmed. subst t'.
        rewrite <- Hid. by apply cleared_handle.
Qed.

Lemma follow_up_is_debounced_witness :
  let s := exec [Input "hello"; Tick 1000; ClickSave; Tick 1000; Input "hello!"; Tick 1000]
             ready in
  sent (step (Settle 3 Failed) s) = sent s.
Proof.
  exact (proj1 (follow_up_is_debounced 3 Failed (SaveMemoPost "hello" false false) []
    (exec [Input "hello"; Tick 1000; ClickSave; Tick 1000; Input "hello!"; Tick 1000] ready)
    (consistent_exec _ _ (consistent_exec _ _ (consistent_mounted "tok")))
    eq_refl eq_refl eq_refl)).
Defined.

(** A save fails after an edit overtook it: the draft is dirty, the flag was
    up, and the completion sends nothing; it arms a timer due a full delay
    later (the first timer, due at 5000, is cleared). *)
Lemma follow_up_waits_for_the_timer :
  let s := exec [Input "hello"; Tick 1000; ClickSave; Tick 1000; Input "hello!"; Tick 1000]
             ready in
  isSaving s = true ∧ memoAutosavePending s = true ∧ editorDirty s = true
  ∧ clock s = 3000
  ∧ editorDirty (step (Settle 3 Failed) s) = true
  ∧ sent (step (Settle 3 Failed) s) = sent s
  ∧ in_flight is_memo_save (step (Settle 3 Failed) s) = 0%nat
  ∧ timeouts (step (Settle 3 Failed) s)
    = [{| t_id := 2; t_kind := MemoTimer; t_due := 8000 |}].
Proof. by vm_compute. Qed.

(** When the timer armed by the completion fires: a draft of six characters
    goes out as the one follow-up save; a draft of two characters for a new
    memo does not, and stays dirty with no timer left. *)
Example follow_up_when_the_timer_fires :
  (let s := exec [Input "hello"; Tick 1000; ClickSave; Tick 1000; Input "hello!";
                  Tick 1000; Settle 3 Failed; Tick 5000; Timeout 2] ready in
   map s_body (sent_by is_memo_save s)
   = [Some (JObj [("content", JStr "hello")]); Some (JObj [("content", JStr "hello!")])]
   ∧ timeouts s = [])
  ∧ (let s := exec [Input "hello"; ClickSave; Input "hi"; Settle 3 Failed;
                    Tick 5000; Timeout 2] ready in
     map s_body (sent_by is_memo_save s) = [Some (JObj [("content", JStr "hello")])]
     ∧ editorDirty s = true ∧ timeouts s = []).
Proof. by vm_compute. Qed.

(** *** A save refused with 401 *)

Lemma scheduleAutosave_without_token s : token s = "" → scheduleAutosave s = s.
Proof. intros H. unfold scheduleAutosave. by rewrite bool_decide_true. Qed.

Lemma unauthorized_save_keeps_draft rid k rest s :
  take_request rid (pending s) = Some (k, rest) →
  is_memo_save k = true →
  token (step (Settle rid Unauthorized) s) = ""
  ∧ editorDirty (step (Settle rid Unauthorized) s) = editorDirty s
  ∧ editorContent (step (Settle rid Unauthorized) s) = editorContent s
  ∧ memoLastSavedContent (step (Settle rid Unauthorized) s) = memoLastSavedContent s
  ∧ sent (step (Settle rid Unauthorized) s) = sent s
  ∧ timeouts (step (Settle rid Unauthorized) s) = timeouts s.
Proof.
  intros E Hk. cbn [step]. rewrite E.
  destruct k; try discriminate Hk; cbn [settled];
    run_script; split_tests; done.
Qed.

(** C7 on a run: a manual save is refused with 401 while the debounce timer
    of the preceding edit is still armed.  The token is cleared and the
    draft stays dirty with its snapshot untouched, but when the timer
    fires the autosave goes out all the same, silently and without a
    bearer header. *)
Theorem autosave_fires_without_session :
  let s := exec [Input "hello"; ClickSave; Settle 3 Unauthorized] ready in
  token s = "" ∧ editorDirty s = true ∧ memoLastSavedContent s = ""
  ∧ in_flight is_memo_save s = 0%nat
  ∧ token (exec [Tick 5000; Timeout 1] s) = ""
  ∧ pending (exec [Tick 5000; Timeout 1] s) = [(4%positive, SaveMemoPost "hello" true true)]
  ∧ last (sent (exec [Tick 5000; Timeout 1] s))
    = Some {| s_method := "POST"; s_path := "/api/memos"; s_authorization := None;
              s_body := Some (JObj [("content", JStr "hello")]);
              s_call := SaveMemoPost "hello" true true |}.
Proof. by vm_compute. Qed.


(** *** Autosave on an unchanged draft *)

Lemma sent_by_app P s q :
  filter (λ q, P (s_call q) = true) (sent s ++ [q])%list
  = (filter (λ q, P (s_call q) = true) (sent s) ++ (if P (s_call q) then [q] else []))%list.
Proof.
  rewrite filter_app, filter_cons, filter_nil.
  destruct (P (s_call q)); [by rewrite decide_True|by rewrite decide_False].
Qed.

Ltac sent_frame :=
  unfold sent_by; cbn; rewrite ?sent_by_app; cbn; rewrite ?app_nil_r.

Lemma memo_timer_on_unchanged s :
  memo_unchanged s → autosave_fired s = s.
Proof.
  unfold memo_unchanged, autosave_fired, saveMemo. intros [->|H]; [done|].
  destruct (editorDirty s); [|done]. cbn. destruct (isSaving s); [done|].
  rewrite H. case_bool_decide; [done|]. by rewrite bool_decide_true.
Qed.

Lemma clip_timer_on_unchanged s :
  clip_unchanged s → clip_autosave_fired s = s.
Proof.
  unfold clip_unchanged, clip_autosave_fired. intros H.
  destruct (clipSaving s); [done|]. by rewrite bool_decide_true.
Qed.

Lemma timeout_memo_unchanged id s :
  memo_unchanged s →
  sent_by is_memo_save (step (Timeout id) s) = sent_by is_memo_save s
  ∧ memo_unchanged (step (Timeout id) s).
Proof.
  intros H. cbn [step]. destruct (find _ _) as [t|]; [|done].
  destruct (t_due t <=? clock s)%Z; [|done].
  destruct (t_kind t); cbn [fired].
  - rewrite memo_timer_on_unchanged; done.
  - unfold clip_autosave_fired, apiFetch, clearTimeout, memo_unchanged in *.
    repeat case_match; sent_frame; done.
Qed.

Lemma timeout_clip_unchanged id s :
  clip_unchanged s →
  sent_by is_clip_save (step (Timeout id) s) = sent_by is_clip_save s
  ∧ clip_unchanged (step (Timeout id) s).
Proof.
  intros H. cbn [step]. destruct (find _ _) as [t|]; [|done].
  destruct (t_due t <=? clock s)%Z; [|done].
  destruct (t_kind t); cbn [fired].
  - unfold clip_unchanged in *. run_script.
    repeat case_match; sent_frame; done.
  - rewrite clip_timer_on_unchanged; done.
Qed.

Lemma timeout_both_unchanged id s :
  memo_unchanged s → clip_unchanged s →
  sent (step (Timeout id) s) = sent s
  ∧ memo_unchanged (step (Timeout id) s) ∧ clip_unchanged (step (Timeout id) s).
Proof.
  intros Hm Hc. cbn [step]. destruct (find _ _) as [t|]; [|done].
  destruct (t_due t <=? clock s)%Z; [|done].
  destruct (t_kind t); cbn [fired].
  - rewrite memo_timer_on_unchanged; done.
  - rewrite clip_timer_on_unchanged; done.
Qed.

Lemma saved_memo_is_unchanged rid k rest m s :
  take_request rid (pending s) = Some (k, rest) →
  is_memo_save k = true →
  memo_unchanged (step (Settle rid (Ok (PMemo m))) s).
Proof.
  intros E Hk. cbn [step]. rewrite E. left.
  destruct k; try discriminate Hk; cbn [settled]; run_script; split_tests; done.
Qed.

Lemma saved_clip_is_unchanged rid k rest c s :
  take_request rid (pending s) = Some (k, rest) →
  is_clip_save k = true →
  clip_unchanged (step (Settle rid (Ok (PClip c))) s).
Proof.
  intros E Hk. cbn [step]. rewrite E. unfold clip_unchanged.
  destruct k; try discriminate Hk; cbn [settled]; run_script; split_tests; done.
Qed.

(** C9, as the script has it: a memo timer firing while the draft is not
    dirty or its trimmed content is the snapshot, and a clip timer firing
    while the clip text is the snapshot, send nothing; a successful save
    leaves its draft in that state; and from there any number of timer
    firings with no edit in between send no save of that draft (nothing at
    all when both drafts are unchanged). *)
Theorem autosave_idempotent ids s :
  (∀ id t, find (λ t, bool_decide (t_id t = id)) (timeouts s) = Some t →
     (t_kind t = MemoTimer → memo_unchanged s → sent (step (Timeout id) s) = sent s)
     ∧ (t_kind t = ClipTimer → clip_unchanged s → sent (step (Timeout id) s) = sent s))
  ∧ (∀ rid k rest m, take_request rid (pending s) = Some (k, rest) →
       is_memo_save k = true → memo_unchanged (step (Settle rid (Ok (PMemo m))) s))
  ∧ (∀ rid k rest c, take_request rid (pending s) = Some (k, rest) →
       is_clip_save k = true → clip_unchanged (step (Settle rid (Ok (PClip c))) s))
  ∧ (memo_unchanged s →
       sent_by is_memo_save (exec (map Timeout ids) s) = sent_by is_memo_save s)
  ∧ (clip_unchanged s →
       sent_by is_clip_save (exec (map Timeout ids) s) = sent_by is_clip_save s)
  ∧ (memo_unchanged s → clip_unchanged s → sent (exec (map Timeout ids) s) = sent s).
Proof.
  split; [|split; [|split; [|split; [|split]]]].
  - intros id t Hf. split; intros Hk Hu; cbn [step]; rewrite Hf;
      (destruct (t_due t <=? clock s)%Z; [|done]); rewrite Hk; cbn [fired].
    + rewrite memo_timer_on_unchanged; done.
    + rewrite clip_timer_on_unchanged; done.
  - intros. by eapply saved_memo_is_unchanged.
  - intros. by eapply saved_clip_is_unchanged.
  - revert s. induction ids as [|id ids IH]; intros s H; [done|]. simpl.
    destruct (timeout_memo_unchanged id s H) as [Hs Hu]. by rewrite IH.
  - revert s. induction ids as [|id ids IH]; intros s H; [done|]. simpl.
    destruct (timeout_clip_unchanged id s H) as [Hs Hu]. by rewrite IH.
  - revert s. induction ids as [|id ids IH]; intros s Hm Hc; [done|]. simpl.
    destruct (timeout_both_unchanged id s Hm Hc) as (Hs & Hm' & Hc'). by rewrite IH.
Qed.

Lemma autosave_idempotent_witness :
  let s := exec [Input "hello"; ClickSave;
                 Settle 3 (Ok (PMemo (mkMemo 1 "hello" "t1" "t1"))); Tick 5000] ready in
  sent (exec (map Timeout [1; 1; 2]%positive) s) = sent s.
Proof.
  intros s.
  apply (proj2 (proj2 (proj2 (proj2 (proj2 (autosave_idempotent [1; 1; 2]%positive s)))))).
  - left. vm_compute. reflexivity.
  - vm_compute. reflexivity.
Defined.

(** The snapshot taken from a loaded memo is its content as stored; the
    autosave compares the trimmed draft with it.  With a stored content
    that starts with a space, a timer firing while the editor holds exactly
    the snapshot sends a save. *)
Lemma untrimmed_snapshot_is_saved_again :
  let s := exec [Input " ab"; Input " a"; Tick 5000] ready_untrimmed in
  editorContent s = memoLastSavedContent s
  ∧ length (sent s) = 2%nat
  ∧ last (sent (step (Timeout 2) s))
    = Some {| s_method := "PUT"; s_path := "/api/memos/1";
              s_authorization := Some "Bearer tok";
              s_body := Some (JObj [("content", JStr "a")]);
              s_call := SaveMemoPut "a" true true |}
  ∧ length (sent (step (Timeout 2) s)) = 3%nat.
Proof. by vm_compute. Qed.

End AppFacts.

Module StringFacts.

Lemma sapp_nil_r (s : string) : s +:+ "" = s.
Proof.
  induction s as [|c s IH]; [done|].
  change (String c s +:+ "") with (String c (s +:+ "")). by rewrite IH.
Qed.

Lemma sapp_assoc (a b c : string) : (a +:+ b) +:+ c = a +:+ (b +:+ c).
Proof.
  induction a as [|x a IH]; [done|].
  change ((String x a +:+ b) +:+ c) with (String x ((a +:+ b) +:+ c)).
  by rewrite IH.
Qed.

Lemma rev_app_acc (s acc : string) : String.rev_app s acc = String.rev s +:+ acc.
Proof.
  unfold String.rev. revert acc. induction s as [|c s IH]; intros acc; [done|].
  simpl. rewrite (IH (String c acc)), (IH (String c "")), sapp_assoc. done.
Qed.

Lemma rev_cons (c : ascii) (s : string) :
  String.rev (String c s) = String.rev s +:+ String c "".
Proof. unfold String.rev at 1. simpl. apply rev_app_acc. Qed.

Lemma rev_sapp (a b : string) : String.rev (a +:+ b) = String.rev b +:+ String.rev a.
Proof.
  induction a as [|c a IH]; [by rewrite sapp_nil_r|].
  change (String c a +:+ b) with (String c (a +:+ b)).
  by rewrite !rev_cons, IH, sapp_assoc.
Qed.

Lemma rev_involutive (s : string) : String.rev (String.rev s) = s.
Proof.
  induction s as [|c s IH]; [done|]. by rewrite rev_cons, rev_sapp, IH.
Qed.

End StringFacts.

Module WorkerMoreFacts.
Import Worker WorkerSpec WorkerMore WorkerFacts.

(** *** Login and sessions *)

Lemma login_check env r :
  (negb (match get_prop (readJson r) "password" with
         | Some p => truthy p | None => false end)
   || negb (bool_decide (as_string (get_prop (readJson r) "password")
                         = Some (APP_PASSWORD env))))
  = negb (password_ok env r).
Proof.
  unfold password_ok, string_field, readJson.
  destruct (json_body r) as [[| | | |?|fs]|]; simpl; try done.
  destruct (own_prop "password" fs) as [[| | |p| |]|]; simpl;
    rewrite ?orb_true_r; try done.
  repeat case_bool_decide; simplify_eq; done.
Qed.

Lemma fetch_login env amb r w :
  method r = "POST" → pathname r = "/api/login" →
  fetch env amb r w = login_route env amb r w.
Proof. intros Hm Hp. unfold fetch. rewrite Hm, Hp. reflexivity. Qed.

Lemma session_live amb r w tok e :
  getBearerToken r = Some tok →
  MEMO_KV w !! session_key tok = Some e →
  authenticated amb r w = (bool_decide (now amb < kv_expires e) && text_truthy (kv_text e)).
Proof.
  intros Ht He. unfold authenticated, requireAuth. rewrite Ht.
  unfold bind, KV_get, kv_get. cbn [fst snd]. fold (session_key tok). rewrite He.
  case_bool_decide as Hlt.
  - apply Z.ltb_lt in Hlt. rewrite Hlt. simpl. by destruct (text_truthy (kv_text e)).
  - apply Z.ltb_nlt in Hlt. rewrite Hlt. done.
Qed.

Lemma login_granted env amb r w :
  method r = "POST" → pathname r = "/api/login" → password_ok env r = true →
  (fetch env amb r w).1 = jsonResponse (JObj [("token", JStr (uuid amb))]) 200
  ∧ MEMO_KV (fetch env amb r w).2 !! session_key (uuid amb)
    = Some {| kv_text := Raw "1";
              kv_expires := now amb
                + getNumberEnv (SESSION_TTL_SECONDS env) (60 * 60 * 24 * 7) |}.
Proof.
  intros Hm Hp Hok. rewrite fetch_login by done. unfold login_route.
  rewrite login_check, Hok. cbn [negb].
  unfold bind, KV_put, kv_put, ret. cbn. split; [done|].
  apply lookup_insert_eq.
Qed.

Lemma login_refused env amb r w :
  method r = "POST" → pathname r = "/api/login" → password_ok env r = false →
  fetch env amb r w = (jsonResponse (error_json "invalid_credentials") 401, w).
Proof.
  intros Hm Hp Hok. rewrite fetch_login by done. unfold login_route.
  by rewrite login_check, Hok.
Qed.

(** X1: `POST /api/login` with a string password that is not empty and equals
    `APP_PASSWORD` answers 200 with a fresh token, leaves the table alone
    and stores the session under `auth:token:<token>`; a request bearing
    that token is then authenticated exactly until the session's time to
    live has passed.  Any other body answers 401 `invalid_credentials` and
    changes nothing, not even the operation log. *)
Theorem login_contract env amb r w :
  method r = "POST" → pathname r = "/api/login" →
  if password_ok env r
  then (fetch env amb r w).1 = jsonResponse (JObj [("token", JStr (uuid amb))]) 200
       ∧ DB (fetch env amb r w).2 = DB w
       ∧ MEMO_KV (fetch env amb r w).2
         = <[session_key (uuid amb) :=
              {| kv_text := Raw "1";
                 kv_expires := now amb
                   + getNumberEnv (SESSION_TTL_SECONDS env) (60 * 60 * 24 * 7) |}]>
           (MEMO_KV w)
       ∧ ∀ amb' r', getBearerToken r' = Some (uuid amb) →
           authenticated amb' r' (fetch env amb r w).2
           = bool_decide (now amb' < now amb
               + getNumberEnv (SESSION_TTL_SECONDS env) (60 * 60 * 24 * 7))
  else (fetch env amb r w).1 = jsonResponse (error_json "invalid_credentials") 401
       ∧ (fetch env amb r w).2 = w.
Proof.
  intros Hm Hp. rewrite fetch_login by done. unfold login_route.
  rewrite login_check. destruct (password_ok env r); cbn [negb].
  - unfold bind, KV_put, kv_put, ret. cbn.
    repeat split; try done.
    intros amb' r' Ht.
    erewrite session_live; [|done|apply lookup_insert_eq]. cbn.
    by rewrite andb_true_r.
  - done.
Qed.

(** *** What a run does to the stores *)

Lemma memo_write_create r :
  pathname r = "/api/memos" → method r = "POST" → memo_write r = true.
Proof. intros Hp Hm. unfold memo_write. by rewrite Hp, Hm. Qed.

Lemma memo_write_id r d :
  memoIdMatch (pathname r) = Some d →
  method r = "PUT" ∨ method r = "DELETE" → memo_write r = true.
Proof.
  intros Hd Hm. unfold memo_write. rewrite Hd.
  destruct Hm as [-> | ->]; apply orb_true_r.
Qed.

Lemma routes_effect env amb r w0 w :
  DB w = DB w0 → MEMO_KV w = MEMO_KV w0 → authenticated amb r w0 = true →
  effect env amb r w0 (routes env amb r w).1
    (DB (routes env amb r w).2) (MEMO_KV (routes env amb r w).2).
Proof.
  intros Hdb Hkv Ha. unfold routes.
  change (API_PREFIX +:+ "/memos") with "/api/memos".
  destruct (bool_decide (pathname r = "/api/memos")) eqn:Hp;
    [apply bool_decide_eq_true in Hp|].
  - destruct (bool_decide (method r = "GET")) eqn:Hm;
      [apply bool_decide_eq_true in Hm|]; cbn [andb].
    + unfold list_memos, bind, KV_get. cbn [fst snd].
      destruct (kv_get _ _ _) as [t|]; [destruct (text_truthy t)|];
        cbn; rewrite ?Hdb, ?Hkv; try apply eff_none; by apply eff_cache_list.
    + destruct (bool_decide (method r = "POST")) eqn:Hm';
        [apply bool_decide_eq_true in Hm'|]; cbn [andb].
      * rewrite create_memo_run.
        destruct (string_field _ _) as [c|]; cbn; rewrite ?Hdb, ?Hkv;
          [|apply eff_none].
        apply eff_create; [by apply memo_write_create|done].
      * replace (memoIdMatch (pathname r)) with (@None string)
          by (rewrite Hp; reflexivity).
        unfold clip_or_not_found.
        rewrite !(bool_decide_false (pathname r = API_PREFIX +:+ "/clip"))
          by (rewrite Hp; done).
        cbn. rewrite Hdb, Hkv. apply eff_none.
  - cbn [andb]. destruct (memoIdMatch (pathname r)) as [d|] eqn:Hd.
    + destruct (bool_decide (method r = "GET")) eqn:Hg;
        [apply bool_decide_eq_true in Hg
        |destruct (bool_decide (method r = "PUT")) eqn:Hu;
          [apply bool_decide_eq_true in Hu
          |destruct (bool_decide (method r = "DELETE")) eqn:Hx;
            [apply bool_decide_eq_true in Hx|]]].
      * unfold read_memo, bind, KV_get, DB_first. cbn [fst snd].
        destruct (kv_get _ _ _) as [t|]; [destruct (text_truthy t)|];
          cbn; rewrite ?Hdb, ?Hkv; try apply eff_none;
          (destruct (db_first _ (DB w0)) as [row|] eqn:Hrow;
            cbn; rewrite ?Hdb, ?Hkv; [by apply eff_cache_item|apply eff_none]).
      * destruct (string_field (json_body r) "content") as [c|] eqn:Hc.
        -- rewrite (update_memo_run _ _ _ _ c) by done. rewrite Hdb, Hkv.
           destruct (db_first _ (DB w0)) as [old|] eqn:Hold; cbn;
             [|apply eff_none].
           apply eff_update; [eapply memo_write_id; eauto|done..].
        -- unfold update_memo. rewrite payload_check, Hc. cbn.
           rewrite Hdb, Hkv. apply eff_none.
      * rewrite delete_memo_run. rewrite Hdb, Hkv.
        destruct (db_first _ (DB w0)) as [old|] eqn:Hold; cbn; [|apply eff_none].
        eapply eff_delete; [eapply memo_write_id; eauto|done..].
      * apply memoIdMatch_Some in Hd as (Hpath & _).
        unfold clip_or_not_found.
        rewrite !(bool_decide_false (pathname r = API_PREFIX +:+ "/clip"))
          by (rewrite Hpath; apply memo_path_not; simpl; lia).
        cbn. rewrite Hdb, Hkv. apply eff_none.
    + unfold clip_or_not_found. repeat case_match; cbn; rewrite ?Hdb, ?Hkv;
        try apply eff_none.
      * unfold read_clip, bind, KV_get. cbn [fst snd].
        destruct (kv_get _ _ _) as [t|]; [destruct (text_truthy t)|];
          cbn; rewrite ?Hdb, ?Hkv; apply eff_none.
      * unfold save_clip. rewrite payload_check.
        destruct (string_field _ _) as [t|]; cbn; rewrite ?Hdb, ?Hkv;
          [by apply eff_clip|apply eff_none].
Qed.

Lemma fetch_effect env amb r w :
  effect env amb r w (fetch env amb r w).1
    (DB (fetch env amb r w).2) (MEMO_KV (fetch env amb r w).2).
Proof.
  unfold fetch. case_bool_decide; [apply eff_none|].
  destruct (String.prefix API_PREFIX (pathname r)); cbn [negb]; [|apply eff_none].
  destruct (_ && _) eqn:Hl.
  - apply andb_true_iff in Hl as [Hp Hm]. apply bool_decide_eq_true in Hp, Hm.
    unfold login_route. rewrite login_check.
    destruct (password_ok env r) eqn:Hok; cbn; [by apply eff_login|apply eff_none].
  - unfold bind. destruct (past_auth_stores amb r w) as [Hdb Hkv].
    unfold past_auth in Hdb, Hkv.
    destruct (requireAuth r amb w) as [[resp|tok] w'] eqn:E; cbn [fst snd] in *.
    + cbn. rewrite Hdb, Hkv. apply eff_none.
    + apply routes_effect; [done..|]. unfold authenticated. by rewrite E.
Qed.

(** *** Keys *)

Lemma memo_cache_key_inj i j : memo_cache_key i = memo_cache_key j → i = j.
Proof.
  unfold memo_cache_key.
  change ("memo:" +:+ pretty i) with
    (String "m" (String "e" (String "m" (String "o" (String ":" (pretty i)))))).
  change ("memo:" +:+ pretty j) with
    (String "m" (String "e" (String "m" (String "o" (String ":" (pretty j)))))).
  intros [= H]. by apply (inj pretty).
Qed.

Lemma session_key_not_item tok i : session_key tok ≠ memo_cache_key i.
Proof. discriminate. Qed.

Lemma session_key_not_list tok : session_key tok ≠ MEMO_LIST_CACHE_KEY.
Proof. discriminate. Qed.

Lemma session_key_not_clip tok : session_key tok ≠ CLIP_CACHE_KEY.
Proof. discriminate. Qed.

Lemma item_key_not_clip i : memo_cache_key i ≠ CLIP_CACHE_KEY.
Proof. discriminate. Qed.

(** *** Failures, reads and strangers *)

(** X2: a request the handler does not answer with a 2xx status leaves the
    table and the key-value namespace exactly as they were, whatever the
    request and whatever the stores hold. *)
Theorem errors_change_nothing env amb r w :
  succeeded (fetch env amb r w).1 = false →
  DB (fetch env amb r w).2 = DB w ∧ MEMO_KV (fetch env amb r w).2 = MEMO_KV w.
Proof.
  intros Hs. destruct (fetch_effect env amb r w); try done; by vm_compute in Hs.
Qed.

(** X3: the table changes only under an authenticated memo write (create,
    update, delete); the key-value namespace changes only under an
    authenticated request or a login with the right password. *)
Theorem changes_need_rights env amb r w :
  (DB (fetch env amb r w).2 ≠ DB w →
     memo_write r = true ∧ authenticated amb r w = true)
  ∧ (MEMO_KV (fetch env amb r w).2 ≠ MEMO_KV w →
     authenticated amb r w = true
     ∨ (method r = "POST" ∧ pathname r = "/api/login" ∧ password_ok env r = true)).
Proof.
  split; intros Hch; destruct (fetch_effect env amb r w); try done; auto.
Qed.

(** *** Sessions end by expiry only *)

Lemma session_key_inj a b : session_key a = session_key b → a = b.
Proof. apply (inj (String.app "auth:token:")). Qed.

Lemma session_kept env amb r w tok e :
  MEMO_KV w !! session_key tok = Some e →
  uuid amb ≠ tok →
  MEMO_KV (fetch env amb r w).2 !! session_key tok = Some e.
Proof.
  intros He Hu. destruct (fetch_effect env amb r w); try done.
  - rewrite lookup_insert_ne; [done|]. intros Hkey. by apply session_key_inj in Hkey.
  - by rewrite lookup_insert_ne by (symmetry; apply session_key_not_list).
  - by rewrite lookup_insert_ne by (symmetry; apply session_key_not_item).
  - by rewrite lookup_delete_ne by (symmetry; apply session_key_not_list).
  - rewrite lookup_delete_ne by (symmetry; apply session_key_not_item).
    by rewrite lookup_delete_ne by (symmetry; apply session_key_not_list).
  - rewrite lookup_delete_ne by (symmetry; apply session_key_not_item).
    by rewrite lookup_delete_ne by (symmetry; apply session_key_not_list).
  - by rewrite lookup_insert_ne by (symmetry; apply session_key_not_clip).
Qed.

Lemma authenticated_entry amb r w :
  authenticated amb r w = true →
  ∃ tok e, getBearerToken r = Some tok
    ∧ MEMO_KV w !! session_key tok = Some e
    ∧ now amb < kv_expires e ∧ text_truthy (kv_text e) = true.
Proof.
  unfold authenticated, requireAuth.
  destruct (getBearerToken r) as [tok|]; [|done].
  unfold bind, KV_get, kv_get. cbn [fst snd]. fold (session_key tok).
  destruct (MEMO_KV w !! session_key tok) as [e|] eqn:E; [|done].
  destruct (now amb <? kv_expires e) eqn:Hlt; [|done].
  apply Z.ltb_lt in Hlt. destruct (text_truthy (kv_text e)) eqn:Ht; [|done].
  intros _. exists tok, e. repeat split; done.
Qed.

Lemma session_outlives_request env amb r w amb' r' :
  authenticated amb' r' w = true →
  getBearerToken r' ≠ Some (uuid amb) →
  authenticated amb' r' (fetch env amb r w).2 = true.
Proof.
  intros Ha Hu. destruct (authenticated_entry _ _ _ Ha) as (tok & e & Ht & He & Hlt & Htr).
  erewrite session_live; [|done|apply session_kept; [done|congruence]].
  rewrite Htr. by rewrite bool_decide_true.
Qed.

(** X4: no route deletes or overwrites another session: a request that is
    authenticated in a world is still authenticated, at the same instant,
    after any sequence of requests, as long as none of them draws that
    very token anew. *)
Theorem sessions_end_by_expiry_only env rest w amb' r' :
  authenticated amb' r' w = true →
  Forall (λ x, getBearerToken r' ≠ Some (uuid x.1)) rest →
  authenticated amb' r' (run env rest w) = true.
Proof.
  revert w. induction rest as [|[amb r] rest IH]; intros w Ha Hf; [done|].
  apply Forall_cons in Hf as [Hu Hf]. simpl. apply IH; [|done].
  by apply session_outlives_request.
Qed.

(** *** The per-identifier cache stays coherent with the table *)

Lemma find_app_l {A} (f : A → bool) l l' x :
  find f l = Some x → find f (l ++ l') = Some x.
Proof.
  induction l as [|y l IH]; [done|]. simpl. destruct (f y); [done|apply IH].
Qed.

Lemma find_touch_other i j c t l :
  i ≠ j → find (has_id i) (map (touch j c t) l) = find (has_id i) l.
Proof.
  intros Hne. induction l as [|x l IH]; [done|]. simpl.
  rewrite IH. unfold touch at 1 2.
  destruct (has_id j x) eqn:Ej; [|done].
  unfold has_id in *. apply bool_decide_eq_true in Ej. simpl.
  rewrite !bool_decide_false by congruence. done.
Qed.

Lemma find_filter_other i j l :
  i ≠ j →
  find (has_id i) (filter (λ row, has_id j row = false) l) = find (has_id i) l.
Proof.
  intros Hne. induction l as [|x l IH]; [done|]. rewrite filter_cons.
  destruct (has_id j x) eqn:Ej.
  - rewrite decide_False by done. simpl. rewrite IH.
    unfold has_id in *. apply bool_decide_eq_true in Ej.
    by rewrite bool_decide_false by congruence.
  - rewrite decide_True by done. simpl. by rewrite IH.
Qed.

Lemma find_filter_gone i l :
  find (has_id i) (filter (λ row, has_id i row = false) l) = None.
Proof.
  induction l as [|x l IH]; [done|]. rewrite filter_cons.
  destruct (has_id i x) eqn:E.
  - by rewrite decide_False.
  - rewrite decide_True by done. simpl. by rewrite E.
Qed.

Lemma item_coherent_fetch env amb r w :
  item_coherent w → item_coherent (fetch env amb r w).2.
Proof.
  unfold item_coherent. intros Hc i e.
  destruct (fetch_effect env amb r w) as [| | |i0 row| |i0 c old|i0 old|].
  - apply Hc.
  - rewrite lookup_insert_ne by apply session_key_not_item. apply Hc.
  - rewrite lookup_insert_ne by (symmetry; apply memo_cache_key_not_list). apply Hc.
  - destruct (decide (i0 = i)) as [->|Hne].
    + rewrite lookup_insert_eq. intros [= <-]. by exists row.
    + rewrite lookup_insert_ne by (intros Hkey; by apply memo_cache_key_inj in Hkey).
      apply Hc.
  - rewrite lookup_delete_ne by (symmetry; apply memo_cache_key_not_list).
    intros He. destruct (Hc i e He) as (r0 & Hr & Ht). exists r0. split; [|done].
    unfold db_first in *. simpl. by apply find_app_l.
  - destruct (decide (i0 = i)) as [->|Hne]; [by rewrite lookup_delete_eq|].
    rewrite lookup_delete_ne by (intros Hkey; by apply memo_cache_key_inj in Hkey).
    rewrite lookup_delete_ne by (symmetry; apply memo_cache_key_not_list).
    intros He. destruct (Hc i e He) as (r0 & Hr & Ht). exists r0. split; [|done].
    unfold db_first in *. simpl. by rewrite find_touch_other.
  - destruct (decide (i0 = i)) as [->|Hne]; [by rewrite lookup_delete_eq|].
    rewrite lookup_delete_ne by (intros Hkey; by apply memo_cache_key_inj in Hkey).
    rewrite lookup_delete_ne by (symmetry; apply memo_cache_key_not_list).
    intros He. destruct (Hc i e He) as (r0 & Hr & Ht). exists r0. split; [|done].
    unfold db_first in *. simpl. by rewrite find_filter_other.
  - rewrite lookup_insert_ne by (symmetry; apply item_key_not_clip). apply Hc.
Qed.

Lemma item_coherent_run env rest w : item_coherent w → item_coherent (run env rest w).
Proof.
  revert w. induction rest as [|[amb r] rest IH]; intros w Hc; [done|].
  simpl. apply IH. by apply item_coherent_fetch.
Qed.

Lemma item_coherent_empty : item_coherent empty_world.
Proof. intros i e. unfold empty_world. simpl. by rewrite lookup_empty. Qed.

Lemma fetch_read_memo env amb r w d :
  method r = "GET" → pathname r = "/api/memos/" +:+ d →
  d ≠ "" → all_digits d = true → authenticated amb r w = true →
  fetch env amb r w = read_memo env amb (Number_of_digits d) (past_auth amb r w).
Proof.
  intros Hm Hp Hd Hdig Ha.
  rewrite fetch_past_auth;
    [|rewrite Hm; done|rewrite Hp; apply memo_path_prefix
     |rewrite Hm; intros [_ ?]; done|done].
  rewrite (routes_memo_id _ _ _ _ d) by done. by rewrite Hm.
Qed.

Lemma read_memo_coherent env amb r w d :
  method r = "GET" → pathname r = "/api/memos/" +:+ d →
  d ≠ "" → all_digits d = true → authenticated amb r w = true →
  item_coherent w →
  (fetch env amb r w).1 = row_response (Number_of_digits d) (DB w).
Proof.
  intros Hm Hp Hd Hdig Ha Hc. rewrite (fetch_read_memo _ _ _ _ d) by done.
  destruct (past_auth_stores amb r w) as [Hdb Hkv].
  unfold read_memo, bind, KV_get, DB_first, row_response. cbn [fst snd].
  rewrite Hkv. unfold kv_get.
  destruct (MEMO_KV w !! memo_cache_key (Number_of_digits d)) as [e|] eqn:E.
  - destruct (Hc _ _ E) as (r0 & Hr & Ht). rewrite Hr.
    destruct (now amb <? kv_expires e).
    + rewrite Ht. reflexivity.
    + cbn. rewrite Hdb, Hr. reflexivity.
  - cbn. rewrite Hdb. by destruct (db_first _ (DB w)).
Qed.

(** X5: the per-memo cache never serves a stale row.  Starting from a world
    whose memo cache agrees with the table (the empty one does), after any
    sequence of requests an authenticated `GET /api/memos/{id}` answers the
    row the table holds for the identifier with 200, or 404 `not_found`
    when there is none. *)
Theorem read_memo_shows_the_table env rest w amb r d :
  item_coherent w →
  method r = "GET" → pathname r = "/api/memos/" +:+ d →
  d ≠ "" → all_digits d = true →
  authenticated amb r (run env rest w) = true →
  (fetch env amb r (run env rest w)).1
  = row_response (Number_of_digits d) (DB (run env rest w)).
Proof.
  intros Hc Hm Hp Hd Hdig Ha. apply read_memo_coherent; try done.
  by apply item_coherent_run.
Qed.


(** *** Reading back what was written *)

Lemma fetch_update env amb r w d :
  method r = "PUT" → pathname r = "/api/memos/" +:+ d →
  d ≠ "" → all_digits d = true → authenticated amb r w = true →
  fetch env amb r w = update_memo amb r (Number_of_digits d) (past_auth amb r w).
Proof.
  intros Hm Hp Hd Hdig Ha.
  rewrite fetch_past_auth;
    [|rewrite Hm; done|rewrite Hp; apply memo_path_prefix
     |rewrite Hm; intros [_ ?]; done|done].
  rewrite (routes_memo_id _ _ _ _ d) by done. by rewrite Hm.
Qed.

Lemma fetch_delete env amb r w d :
  method r = "DELETE" → pathname r = "/api/memos/" +:+ d →
  d ≠ "" → all_digits d = true → authenticated amb r w = true →
  fetch env amb r w = delete_memo (Number_of_digits d) (past_auth amb r w).
Proof.
  intros Hm Hp Hd Hdig Ha.
  rewrite fetch_past_auth;
    [|rewrite Hm; done|rewrite Hp; apply memo_path_prefix
     |rewrite Hm; intros [_ ?]; done|done].
  rewrite (routes_memo_id _ _ _ _ d) by done. by rewrite Hm.
Qed.

Lemma read_memo_miss env amb i w :
  MEMO_KV w !! memo_cache_key i = None →
  (read_memo env amb i w).1 = row_response i (DB w).
Proof.
  intros Hk. unfold read_memo, bind, KV_get, DB_first, kv_get, row_response.
  cbn [fst snd]. rewrite Hk. cbn. by destruct (db_first i (DB w)).
Qed.

(** X6: an authenticated `GET /api/memos/{id}` that follows a successful
    `PUT` of the same identifier answers the updated row (new content, the
    creation time kept, the update time of the `PUT`), whether or not the
    old row was cached. *)
Theorem read_after_update env amb1 amb2 r1 r2 w d c old :
  method r1 = "PUT" → method r2 = "GET" →
  pathname r1 = "/api/memos/" +:+ d → pathname r2 = "/api/memos/" +:+ d →
  d ≠ "" → all_digits d = true →
  authenticated amb1 r1 w = true →
  authenticated amb2 r2 (fetch env amb1 r1 w).2 = true →
  string_field (json_body r1) "content" = Some c →
  db_first (Number_of_digits d) (DB w) = Some old →
  (fetch env amb2 r2 (fetch env amb1 r1 w).2).1
  = jsonResponse
      (row_json (mkMemo (Number_of_digits d) c (m_created_at old) (iso_now amb1))) 200.
Proof.
  intros Hm1 Hm2 Hp1 Hp2 Hd Hdig Ha1 Ha2 Hc Hold.
  rewrite (fetch_read_memo _ _ _ _ d) by done.
  rewrite (fetch_update _ _ _ _ d) in * by done.
  rewrite (update_memo_run _ _ _ _ c) in * by done.
  destruct (past_auth_stores amb1 r1 w) as [Hdb Hkv].
  rewrite Hdb, Hkv, Hold in *. cbn [fst snd] in *.
  match goal with
  | |- context [past_auth amb2 r2 ?x] =>
      destruct (past_auth_stores amb2 r2 x) as [Hdb2 Hkv2]
  end.
  rewrite read_memo_miss.
  - rewrite Hdb2. unfold row_response, db_first. cbn. rewrite find_touch.
    unfold db_first in Hold. rewrite Hold. cbn. unfold touch, has_id.
    pose proof (find_has_id _ _ _ Hold) as Hid.
    rewrite bool_decide_true by done. by rewrite Hid.
  - rewrite Hkv2. cbn. apply lookup_delete_eq.
Qed.

(** X7: an authenticated `DELETE /api/memos/{id}` answers 404 `not_found`
    and changes nothing when no row has the identifier; otherwise it
    answers 204 with no body, removes exactly the rows of that identifier,
    drops the list key and the memo's own cache key, and a read of the
    identifier right after answers 404. *)
Theorem delete_memo_contract env amb r w d :
  method r = "DELETE" → pathname r = "/api/memos/" +:+ d →
  d ≠ "" → all_digits d = true →
  authenticated amb r w = true →
  let i := Number_of_digits d in
  let resp := (fetch env amb r w).1 in
  let w' := (fetch env amb r w).2 in
  ((∀ row, row ∈ memos (DB w) → m_id row ≠ i) →
     resp = jsonResponse (error_json "not_found") 404
     ∧ DB w' = DB w ∧ MEMO_KV w' = MEMO_KV w)
  ∧ ((∃ row, row ∈ memos (DB w) ∧ m_id row = i) →
     resp = {| status := 204; body := None |}
     ∧ (∀ row, row ∈ memos (DB w') ↔ row ∈ memos (DB w) ∧ m_id row ≠ i)
     ∧ last_row_id (DB w') = last_row_id (DB w)
     ∧ MEMO_KV w' = delete (memo_cache_key i) (delete MEMO_LIST_CACHE_KEY (MEMO_KV w))
     ∧ ∀ amb2 r2, method r2 = "GET" → pathname r2 = "/api/memos/" +:+ d →
         authenticated amb2 r2 w' = true →
         (fetch env amb2 r2 w').1 = jsonResponse (error_json "not_found") 404).
Proof.
  intros Hm Hp Hd Hdig Ha i resp w'. subst resp w'.
  assert (Hget : ∀ amb2 r2 w2, method r2 = "GET" → pathname r2 = "/api/memos/" +:+ d →
            authenticated amb2 r2 w2 = true →
            MEMO_KV w2 !! memo_cache_key i = None → db_first i (DB w2) = None →
            (fetch env amb2 r2 w2).1 = jsonResponse (error_json "not_found") 404).
  { intros amb2 r2 w2 Hm2 Hp2 Ha2 Hk Hn.
    rewrite (fetch_read_memo _ _ _ _ d) by done.
    destruct (past_auth_stores amb2 r2 w2) as [Hdb2 Hkv2].
    rewrite read_memo_miss by (by rewrite Hkv2).
    unfold row_response. fold i. by rewrite Hdb2, Hn. }
  rewrite (fetch_delete _ _ _ _ d) in * by done. rewrite delete_memo_run. fold i.
  destruct (past_auth_stores amb r w) as [Hdb Hkv]. rewrite Hdb, Hkv.
  split.
  - intros Hno. apply db_first_None in Hno. by rewrite Hno.
  - intros (row & Hin & Hid).
    destruct (db_first i (DB w)) as [old|] eqn:Hold.
    2:{ by destruct (proj1 (db_first_None _ _) Hold row Hin). }
    cbn [fst snd DB MEMO_KV memos last_row_id].
    split; [done|]. split; [|split; [done|split; [done|]]].
    + intros row'. rewrite list_elem_of_filter. unfold has_id.
      rewrite bool_decide_eq_false. tauto.
    + intros amb2 r2 Hm2 Hp2 Ha2. apply Hget; try done.
      * cbn. apply lookup_delete_eq.
      * unfold db_first. cbn. apply find_filter_gone.
Qed.

(** *** The list cache *)

(** X8: an authenticated `GET /api/memos` that finds no live list entry
    queries the table once and caches the result; a second one within
    `CACHE_TTL_SECONDS` (60 by default) gets the same answer from the cache
    and performs no table operation at all. *)
Theorem list_cache_hit env amb1 amb2 r1 r2 w :
  method r1 = "GET" → pathname r1 = "/api/memos" →
  method r2 = "GET" → pathname r2 = "/api/memos" →
  authenticated amb1 r1 w = true →
  authenticated amb2 r2 (fetch env amb1 r1 w).2 = true →
  kv_get (now amb1) MEMO_LIST_CACHE_KEY (MEMO_KV w) = None →
  now amb2 < now amb1 + getNumberEnv (CACHE_TTL_SECONDS env) 60 →
  let w1 := (fetch env amb1 r1 w).2 in
  (fetch env amb1 r1 w).1 = jsonResponse (rows_json (db_all (DB w))) 200
  ∧ (fetch env amb2 r2 w1).1 = (fetch env amb1 r1 w).1
  ∧ DB (fetch env amb2 r2 w1).2 = DB w
  ∧ (∃ t1, ops w1 = ops w ++ [KvGet (session_key t1); KvGet MEMO_LIST_CACHE_KEY;
                               DbAll; KvPut MEMO_LIST_CACHE_KEY])%list
  ∧ (∃ t2, ops (fetch env amb2 r2 w1).2
           = ops w1 ++ [KvGet (session_key t2); KvGet MEMO_LIST_CACHE_KEY])%list.
Proof.
  intros Hm1 Hp1 Hm2 Hp2 Ha1 Ha2 Hmiss Hlive w1. subst w1.
  assert (Hlist : ∀ amb r w0, method r = "GET" → pathname r = "/api/memos" →
            authenticated amb r w0 = true →
            fetch env amb r w0 = list_memos env amb (past_auth amb r w0)).
  { intros amb r w0 Hm Hp Ha.
    rewrite fetch_past_auth;
      [|rewrite Hm; done|rewrite Hp; done|rewrite Hp; intros [? _]; done|done].
    unfold routes. by rewrite Hm, Hp. }
  rewrite (Hlist amb2 r2) by done. rewrite (Hlist amb1 r1) in * by done.
  destruct (past_auth_stores amb1 r1 w) as [Hdb Hkv].
  destruct (authenticated_token _ _ _ Ha1) as [t1 Ht1].
  destruct (authenticated_token _ _ _ Ha2) as [t2 Ht2].
  pose proof (past_auth_ops amb1 r1 w t1 Ht1) as Hops1.
  assert (Hfirst : list_memos env amb1 (past_auth amb1 r1 w)
    = (jsonResponse (rows_json (db_all (DB w))) 200,
       {| DB := DB w;
          MEMO_KV := <[MEMO_LIST_CACHE_KEY :=
            {| kv_text := Stringified (rows_json (db_all (DB w)));
               kv_expires := now amb1 + getNumberEnv (CACHE_TTL_SECONDS env) 60 |}]>
            (MEMO_KV w);
          ops := ops w ++ [KvGet (session_key t1); KvGet MEMO_LIST_CACHE_KEY;
                           DbAll; KvPut MEMO_LIST_CACHE_KEY] |})).
  { unfold list_memos, bind, KV_get, DB_all, KV_put, kv_put, ret, log, set_kv.
    cbn [fst snd DB MEMO_KV ops]. rewrite Hkv, Hmiss, Hdb, Hops1.
    cbn. rewrite <- !app_assoc. reflexivity. }
  rewrite Hfirst in *. cbn [fst snd] in *.
  set (w1 := {| DB := DB w; MEMO_KV := _; ops := _ |}) in *.
  destruct (past_auth_stores amb2 r2 w1) as [Hdb2 Hkv2].
  pose proof (past_auth_ops amb2 r2 w1 t2 Ht2) as Hops2.
  split; [done|].
  unfold list_memos, bind, KV_get. cbn [fst snd]. rewrite Hkv2.
  unfold kv_get. subst w1. cbn [MEMO_KV]. rewrite lookup_insert_eq.
  cbn [kv_expires kv_text]. apply Z.ltb_lt in Hlive. rewrite Hlive.
  cbn. rewrite Hdb2, Hops2. cbn.
  repeat split; try done.
  - by exists t1.
  - exists t2. by rewrite <- !app_assoc.
Qed.


(** *** The bearer header *)

Lemma split_space_word cur s :
  no_space s = true → split_space cur s = [String.rev cur +:+ s].
Proof.
  revert cur. induction s as [|c s IH]; intros cur Hs; simpl in *.
  - by rewrite StringFacts.sapp_nil_r.
  - apply andb_true_iff in Hs as [Hc Hs]. apply negb_true_iff in Hc.
    rewrite Hc. rewrite IH by done.
    by rewrite StringFacts.rev_cons, StringFacts.sapp_assoc.
Qed.

Lemma split_space_step cur c s :
  c ≠ " "%char → split_space cur (String c s) = split_space (String c cur) s.
Proof. intros Hc. simpl. by rewrite bool_decide_false. Qed.

Lemma split_space_sep cur s :
  split_space cur (String " " s) = String.rev cur :: split_space "" s.
Proof. reflexivity. Qed.

Lemma split_space_head cur s a l :
  split_space cur s = a :: l →
  ∃ s1, no_space s1 = true ∧ a = String.rev cur +:+ s1
    ∧ ((l = [] ∧ s = s1)
       ∨ ∃ s2, s = s1 +:+ String " " s2 ∧ l = split_space "" s2).
Proof.
  revert cur. induction s as [|c s IH]; intros cur; simpl.
  - intros [= <- <-]. exists "". rewrite StringFacts.sapp_nil_r. auto.
  - case_bool_decide as Hc.
    + intros [= <- <-]. subst c. exists "".
      rewrite StringFacts.sapp_nil_r. split; [done|]. split; [done|].
      right. by exists s.
    + intros H. destruct (IH _ H) as (s1 & Hs1 & -> & Hl).
      exists (String c s1). simpl. rewrite bool_decide_false by done.
      split; [done|]. split.
      { by rewrite StringFacts.rev_cons, StringFacts.sapp_assoc. }
      destruct Hl as [[-> ->]|(s2 & -> & ->)]; [by left|right; by exists s2].
Qed.

Lemma getBearerToken_bearer r tok :
  tok ≠ "" → no_space tok = true →
  authorization r = Some ("Bearer " +:+ tok) → getBearerToken r = Some tok.
Proof.
  intros Hne Hns Hh. unfold getBearerToken. rewrite Hh.
  change ("Bearer " +:+ tok) with
    (String "B" (String "e" (String "a" (String "r" (String "e" (String "r"
      (String " " tok))))))).
  cbn [from_option id].
  rewrite !split_space_step by done. rewrite split_space_sep.
  rewrite split_space_word by done.
  change (String.rev "reraeB") with "Bearer". change (String.rev "" +:+ tok) with tok.
  rewrite (bool_decide_true ("Bearer" = "Bearer")) by done.
  by rewrite (bool_decide_false (tok = "")) by done.
Qed.

(** X9: [getBearerToken] accepts a header `Bearer <token>` for every token
    that is not empty and holds no space; whatever it accepts is such a
    token, taken from a header that starts with `Bearer <token>` and
    continues, if at all, with a space; without a header there is no
    token. *)
Theorem bearer_token_parse :
  (∀ r tok, tok ≠ "" → no_space tok = true →
     authorization r = Some ("Bearer " +:+ tok) → getBearerToken r = Some tok)
  ∧ (∀ r tok, getBearerToken r = Some tok →
       tok ≠ "" ∧ no_space tok = true
       ∧ ∃ rest, authorization r = Some ("Bearer " +:+ tok +:+ rest)
                 ∧ (rest = "" ∨ ∃ rest', rest = String " " rest'))
  ∧ (∀ r, authorization r = None → getBearerToken r = None).
Proof.
  split; [|split].
  - intros r tok. apply getBearerToken_bearer.
  - intros r tok. unfold getBearerToken.
    destruct (split_space "" (default "" (authorization r))) as [|ty [|token l]] eqn:E;
      [done..|].
    destruct (bool_decide (ty = "Bearer")) eqn:Hty; [|done].
    apply bool_decide_eq_true in Hty. subst ty.
    case_bool_decide as Htok; [done|]. cbn. intros [= ->].
    apply split_space_head in E as (s1 & Hs1 & Ha & [[? _]|(s2 & Hh & Hl)]); [done|].
    change (String.rev "" +:+ s1) with s1 in Ha. subst s1. symmetry in Hl.
    apply split_space_head in Hl as (t1 & Ht1 & Hb & Hrest).
    change (String.rev "" +:+ t1) with t1 in Hb. subst t1.
    split; [done|]. split; [done|].
    destruct (authorization r) as [h|]; cbn in Hh; [|done]. subst h.
    destruct Hrest as [[_ ->]|(s3 & -> & _)].
    + exists "". rewrite StringFacts.sapp_nil_r. auto.
    + exists (String " " s3). eauto.
  - intros r Hh. unfold getBearerToken. by rewrite Hh.
Qed.

(** *** Cross-origin headers *)

Lemma includes_spec l x : includes l x = true ↔ x ∈ l.
Proof. unfold includes. apply bool_decide_eq_true. Qed.

Lemma elem_of_map {A B} (f : A → B) l y : y ∈ map f l ↔ ∃ x, y = f x ∧ x ∈ l.
Proof.
  induction l as [|a l IH]; simpl.
  - split; [by intros ?%elem_of_nil|by intros (? & _ & ?%elem_of_nil)].
  - rewrite elem_of_cons, IH. split.
    + intros [->|(x & -> & Hx)]; [exists a|exists x]; rewrite elem_of_cons; auto.
    + intros (x & -> & [->|Hx]%elem_of_cons); eauto.
Qed.

(** X10: [parseAllowedOrigins] gives the wildcard alone when the variable is
    undefined or empty; otherwise its members are exactly the trimmed
    comma-separated pieces that are not empty, so a value of blanks and
    commas allows no origin at all. *)
Theorem allowed_origins_parse value :
  ((value = None ∨ value = Some "") → parseAllowedOrigins value = ["*"])
  ∧ (∀ x, x ∈ parseAllowedOrigins value → x ≠ "")
  ∧ (∀ v x, value = Some v → v ≠ "" →
       (x ∈ parseAllowedOrigins value
        ↔ x ≠ "" ∧ ∃ piece, piece ∈ split_on ","%char "" v ∧ x = App.trim piece))
  ∧ (∀ v, value = Some v → v ≠ "" →
       (∀ piece, piece ∈ split_on ","%char "" v → App.trim piece = "") →
       parseAllowedOrigins value = []).
Proof.
  unfold parseAllowedOrigins. split; [|split; [|split]].
  - intros [-> | ->]; done.
  - intros x. destruct value as [v|]; [case_bool_decide|].
    + intros Hx%list_elem_of_singleton. by subst.
    + intros Hx%list_elem_of_filter. tauto.
    + intros Hx%list_elem_of_singleton. by subst.
  - intros v x -> Hv. rewrite bool_decide_false by done.
    rewrite list_elem_of_filter, elem_of_map. split.
    + intros [Hx (piece & -> & Hp)]. eauto.
    + intros [Hx (piece & Hp & ->)]. eauto.
  - intros v -> Hv Hall. rewrite bool_decide_false by done.
    apply elem_of_nil_inv. intros x [Hx Hin]%list_elem_of_filter.
    apply elem_of_map in Hin as (piece & -> & Hp). apply Hx. by apply Hall.
Qed.

(** X11: [getCorsHeaders] gives no headers exactly when the wildcard is not
    configured and the request's origin is missing, empty or not listed,
    and [applyCors] then returns the response unchanged.  Otherwise the
    allowed origin is the wildcard when configured and else the listed
    request origin (with `vary: origin`), the methods, the requested (or
    default) headers and the max age are set, and [applyCors] keeps the
    status and body and overrides just these headers. *)
Theorem cors_headers_decision requestOrigin requestedHeaders config :
  let allowed := parseAllowedOrigins config in
  match getCorsHeaders requestOrigin requestedHeaders config with
  | None =>
      ("*" ∉ allowed)
      ∧ (∀ o, requestOrigin = Some o → o = "" ∨ o ∉ allowed)
      ∧ ∀ resp, applyCors resp None = resp
  | Some h =>
      (∃ a, h !! "access-control-allow-origin" = Some a
            ∧ (if bool_decide ("*" ∈ allowed) then a = "*"
               else requestOrigin = Some a ∧ a ∈ allowed ∧ a ≠ "")
            ∧ h !! "vary" = (if bool_decide (a = "*") then None else Some "origin"))
      ∧ h !! "access-control-allow-methods" = Some CORS_ALLOW_METHODS
      ∧ h !! "access-control-allow-headers"
        = Some (default "content-type, authorization" requestedHeaders)
      ∧ h !! "access-control-max-age" = Some "86400"
      ∧ ∀ resp,
          r_status (applyCors resp (Some h)) = r_status resp
          ∧ r_body (applyCors resp (Some h)) = r_body resp
          ∧ (∀ k v, h !! k = Some v → r_headers (applyCors resp (Some h)) !! k = Some v)
          ∧ (∀ k, h !! k = None →
               r_headers (applyCors resp (Some h)) !! k = r_headers resp !! k)
  end.
Proof.
  intros allowed. unfold getCorsHeaders, allowOrigin. fold allowed.
  assert (Happly : ∀ (h : Headers) resp,
    r_status (applyCors resp (Some h)) = r_status resp
    ∧ r_body (applyCors resp (Some h)) = r_body resp
    ∧ (∀ k v, h !! k = Some v → r_headers (applyCors resp (Some h)) !! k = Some v)
    ∧ (∀ k, h !! k = None →
         r_headers (applyCors resp (Some h)) !! k = r_headers resp !! k)).
  { intros h resp. cbn. repeat split.
    - intros k v Hk. by apply lookup_union_Some_l.
    - intros k Hk. by apply lookup_union_r. }
  unfold includes at 1. destruct (bool_decide ("*" ∈ allowed)) eqn:Hstar.
  - rewrite bool_decide_true by done.
    split; [exists "*"; by simplify_map_eq|]. by simplify_map_eq.
  - apply bool_decide_eq_false in Hstar.
    destruct requestOrigin as [o|]; [|by split; [|split; [intros ? [=]|]]].
    case_bool_decide as Ho; cbn [negb andb].
    { split; [done|]. split; [|done]. intros ? [= <-]. by left. }
    destruct (includes allowed o) eqn:Hin.
    + apply includes_spec in Hin.
      assert (o ≠ "*") as Hne by (intros ->; done).
      rewrite bool_decide_false by done.
      split; [exists o; rewrite bool_decide_false by done; by simplify_map_eq|].
      by simplify_map_eq.
    + split; [done|]. split; [|done]. intros ? [= <-]. right.
      intros Hin'%includes_spec. congruence.
Qed.

(** *** Identifiers in paths *)

Lemma is_nat_pretty_N_char x :
  (x < 10)%N → Ascii.is_nat (pretty_N_char x) = Some (N.to_nat x).
Proof.
  intros H.
  assert (x = 0 ∨ x = 1 ∨ x = 2 ∨ x = 3 ∨ x = 4 ∨ x = 5 ∨ x = 6
          ∨ x = 7 ∨ x = 8 ∨ x = 9)%N as Hx by lia.
  repeat (destruct Hx as [->|Hx]; [done|]). by subst x.
Qed.

Lemma Number_of_digits_loop d : Number_of_digits d = digits_from 0 d.
Proof. done. Qed.

Lemma digits_from_pretty x s : digits_from 0 (pretty_N_go x s) = digits_from x s.
Proof.
  revert s. induction (N.lt_wf_0 x) as [x _ IH]; intros s.
  assert (x = 0 ∨ 0 < x)%N as [->|Hx] by lia; [done|].
  rewrite pretty_N_go_step by done.
  rewrite IH by (by apply N.div_lt).
  cbn [digits_from].
  rewrite is_nat_pretty_N_char by (apply N.mod_lt; lia).
  cbn [default from_option id]. rewrite N2Nat.id.
  by rewrite <- (N.div_mod x 10) by lia.
Qed.

Lemma Number_of_digits_pretty (i : N) : Number_of_digits (pretty i) = i.
Proof.
  rewrite Number_of_digits_loop. unfold pretty, pretty_N.
  case_decide as Hi; [by subst i|]. by rewrite digits_from_pretty.
Qed.

Lemma all_digits_pretty_N_go x s : all_digits (pretty_N_go x s) = all_digits s.
Proof.
  revert s. induction (N.lt_wf_0 x) as [x _ IH]; intros s.
  assert (x = 0 ∨ 0 < x)%N as [->|Hx] by lia; [done|].
  rewrite pretty_N_go_step by done. rewrite IH by (by apply N.div_lt).
  cbn [all_digits]. unfold is_digit.
  by rewrite is_nat_pretty_N_char by (apply N.mod_lt; lia).
Qed.

Lemma all_digits_pretty (i : N) : all_digits (pretty i) = true.
Proof.
  unfold pretty, pretty_N. case_decide; [done|]. by rewrite all_digits_pretty_N_go.
Qed.

Lemma pretty_N_go_not_empty x s : s ≠ "" → pretty_N_go x s ≠ "".
Proof.
  revert s. induction (N.lt_wf_0 x) as [x _ IH]; intros s Hs.
  assert (x = 0 ∨ 0 < x)%N as [->|Hx] by lia; [done|].
  rewrite pretty_N_go_step by done. apply IH; [by apply N.div_lt|done].
Qed.

Lemma pretty_not_empty (i : N) : pretty i ≠ "".
Proof.
  unfold pretty, pretty_N. case_decide as Hi; [done|].
  rewrite pretty_N_go_step by lia. by apply pretty_N_go_not_empty.
Qed.

(** X12: for an identifier below 2^53, where a JavaScript number is an
    exact integer written in plain decimal, the decimal spelling of the
    identifier matches the route pattern, `Number` reads it back as that
    identifier, and so a request to `/api/memos/<id>` is dispatched to the
    read, update or delete of exactly that identifier. *)
Theorem memo_id_round_trip (i : N) :
  (i < 2 ^ 53)%N →
  memoIdMatch ("/api/memos/" +:+ pretty i) = Some (pretty i)
  ∧ Number_of_digits (pretty i) = i
  ∧ (∀ env amb r w,
       pathname r = "/api/memos/" +:+ pretty i →
       routes env amb r w =
       (if bool_decide (method r = "GET") then read_memo env amb i
        else if bool_decide (method r = "PUT") then update_memo amb r i
        else if bool_decide (method r = "DELETE") then delete_memo i
        else clip_or_not_found env amb r) w).
Proof.
  intros _. split; [|split].
  - rewrite memoIdMatch_path, all_digits_pretty.
    by rewrite bool_decide_false by apply pretty_not_empty.
  - apply Number_of_digits_pretty.
  - intros env amb r w Hp.
    rewrite (routes_memo_id env amb r w (pretty i) Hp (pretty_not_empty i)
               (all_digits_pretty i)).
    by rewrite Number_of_digits_pretty.
Qed.

Lemma memo_id_round_trip_witness :
  memoIdMatch "/api/memos/42" = Some "42" ∧ Number_of_digits "42" = 42%N.
Proof.
  destruct (memo_id_round_trip 42) as (H1 & H2 & _); [reflexivity|].
  split; [exact H1|exact H2].
Defined.

(** *** On the concrete deployment *)

Lemma login_contract_witness :
  (fetch env0 (at_ 0 "t0") login_request empty_world).1
  = jsonResponse (JObj [("token", JStr "tok")]) 200.
Proof.
  pose proof (login_contract env0 (at_ 0 "t0") login_request empty_world
                eq_refl eq_refl) as H.
  change (password_ok env0 login_request) with true in H.
  exact (proj1 H).
Defined.

Lemma errors_change_nothing_witness :
  DB (fetch env0 (at_ 9 "t9")
        (bearer "PUT" "/api/memos/7" (Some (JObj [("content", JStr "b")]))) w1).2 = DB w1
  ∧ MEMO_KV (fetch env0 (at_ 9 "t9")
        (bearer "PUT" "/api/memos/7" (Some (JObj [("content", JStr "b")]))) w1).2
    = MEMO_KV w1.
Proof. apply errors_change_nothing. vm_compute. reflexivity. Defined.

Lemma sessions_end_by_expiry_only_witness :
  authenticated (at_ 9 "t9") (bearer "GET" "/api/memos" None)
    (run env0
       [(other 5 "t5", login_request);
        (other 6 "t6", bearer "POST" "/api/memos" (Some (JObj [("content", JStr "a")])));
        (other 7 "t7", bearer "DELETE" "/api/memos/1" None)] w0) = true.
Proof.
  apply sessions_end_by_expiry_only.
  - vm_compute. reflexivity.
  - repeat constructor; discriminate.
Defined.

Lemma read_memo_shows_the_table_witness :
  (fetch env0 (at_ 10 "t10") (bearer "GET" "/api/memos/1" None)
     (run env0
        [(at_ 0 "t0", login_request);
         (at_ 5 "t5", bearer "POST" "/api/memos" (Some (JObj [("content", JStr "a")])));
         (at_ 6 "t6", bearer "GET" "/api/memos/1" None);
         (at_ 9 "t9", bearer "PUT" "/api/memos/1" (Some (JObj [("content", JStr "b")])))]
        empty_world)).1
  = jsonResponse (row_json (mkMemo 1 "b" "t5" "t9")) 200.
Proof.
  rewrite (read_memo_shows_the_table env0 _ empty_world (at_ 10 "t10")
             (bearer "GET" "/api/memos/1" None) "1" item_coherent_empty eq_refl eq_refl).
  - vm_compute. reflexivity.
  - discriminate.
  - reflexivity.
  - vm_compute. reflexivity.
Defined.

Lemma read_after_update_witness :
  (fetch env0 (at_ 10 "t10") (bearer "GET" "/api/memos/1" None)
     (fetch env0 (at_ 9 "t9")
        (bearer "PUT" "/api/memos/1" (Some (JObj [("content", JStr "b")]))) w1).2).1
  = jsonResponse (row_json (mkMemo 1 "b" "t5" "t9")) 200.
Proof.
  apply (read_after_update env0 (at_ 9 "t9") (at_ 10 "t10")
           (bearer "PUT" "/api/memos/1" (Some (JObj [("content", JStr "b")])))
           (bearer "GET" "/api/memos/1" None) w1 "1" "b" (mkMemo 1 "a" "t5" "t5"));
    try reflexivity; try discriminate; vm_compute; reflexivity.
Defined.

Lemma delete_memo_contract_witness :
  (fetch env0 (at_ 9 "t9") (bearer "DELETE" "/api/memos/1" None) w1).1
  = {| status := 204; body := None |}.
Proof.
  assert (authenticated (at_ 9 "t9") (bearer "DELETE" "/api/memos/1" None) w1 = true)
    as Ha by (vm_compute; reflexivity).
  destruct (delete_memo_contract env0 (at_ 9 "t9") (bearer "DELETE" "/api/memos/1" None)
              w1 "1" eq_refl eq_refl ltac:(discriminate) eq_refl Ha) as [_ H].
  apply H. exists (mkMemo 1 "a" "t5" "t5"). split; [|reflexivity].
  vm_compute. apply list_elem_of_here.
Defined.

Lemma list_cache_hit_witness :
  (fetch env0 (at_ 4 "t4") (bearer "GET" "/api/memos" None)
     (fetch env0 (at_ 3 "t3") (bearer "GET" "/api/memos" None) w0).2).1
  = (fetch env0 (at_ 3 "t3") (bearer "GET" "/api/memos" None) w0).1.
Proof.
  apply (list_cache_hit env0 (at_ 3 "t3") (at_ 4 "t4")
           (bearer "GET" "/api/memos" None) (bearer "GET" "/api/memos" None) w0);
    try reflexivity; vm_compute; reflexivity.
Defined.

End WorkerMoreFacts.

Module AppMoreFacts.
Import App AppSpec AppMore AppFacts StringFacts.

(** *** Trimming *)

Lemma trim_start_clean s : clean (trim_start s).
Proof.
  induction s as [|c s IH]; [done|]. simpl.
  destruct (is_white c) eqn:E; [done|]. exact E.
Qed.

Lemma trim_start_id s : clean s → trim_start s = s.
Proof. destruct s as [|c s]; [done|]. simpl. by intros ->. Qed.

Lemma trim_start_suffix s : ∃ w, s = w +:+ trim_start s.
Proof.
  induction s as [|c s [w IH]]; [by exists ""|]. simpl.
  destruct (is_white c).
  - exists (String c w). change (String c w +:+ trim_start s)
      with (String c (w +:+ trim_start s)). by rewrite <- IH.
  - by exists "".
Qed.

Lemma clean_app_l x y : x ≠ "" → clean (x +:+ y) → clean x.
Proof. by destruct x. Qed.

Lemma rev_not_empty s : s ≠ "" → String.rev s ≠ "".
Proof.
  destruct s as [|c s]; [done|]. intros _. rewrite rev_cons.
  by destruct (String.rev s).
Qed.

Lemma trim_clean s : clean (trim s) ∧ clean (String.rev (trim s)).
Proof.
  unfold trim. rewrite rev_involutive. split; [|apply trim_start_clean].
  pose proof (trim_start_clean s) as Ha.
  destruct (trim_start_suffix (String.rev (trim_start s))) as [w Hw].
  destruct (trim_start (String.rev (trim_start s))) as [|c b] eqn:E; [done|].
  apply (f_equal String.rev) in Hw. rewrite rev_involutive, rev_sapp in Hw.
  rewrite Hw in Ha. apply clean_app_l in Ha; [done|].
  by apply rev_not_empty.
Qed.

Lemma trim_id s : clean s → clean (String.rev s) → trim s = s.
Proof.
  intros H1 H2. unfold trim. rewrite (trim_start_id s H1), (trim_start_id _ H2).
  apply rev_involutive.
Qed.

Lemma trim_idempotent s : trim (trim s) = trim s.
Proof. destruct (trim_clean s). by apply trim_id. Qed.

(** *** What the page sends *)

Lemma selected_Some s i : selected s = Some i → i ≠ 0%N ∧ selectedId s = Some i.
Proof.
  unfold selected. destruct (selectedId s) as [j|]; [|done].
  case_bool_decide; [done|]. by intros [= ->].
Qed.

Lemma autosave_length (fromAutosave : bool) (c : string) :
  fromAutosave && (String.length c <? 3)%nat = false →
  fromAutosave = true → (3 ≤ String.length c)%nat.
Proof.
  intros H ->. simpl in H. apply Nat.ltb_ge in H. done.
Qed.

#[local] Arguments trim : simpl never.

Ltac new_request :=
  repeat match goal with
         | H : selected _ = Some _ |- _ => apply selected_Some in H as [? ?]
         end;
  rewrite ?Forall_app; repeat split; try assumption;
  repeat (apply Forall_cons; split); try apply Forall_nil;
  unfold well_formed, shape, bearer_or_none; cbn;
  repeat split; eauto using trim_idempotent, autosave_length;
  try (right; eexists; split; [|reflexivity]; done);
  try (eexists; split; [|reflexivity]; done);
  try (intros; repeat match goal with
                      | H : (_ <? _)%nat = false |- _ => apply Nat.ltb_ge in H
                      | H : (_ <=? _)%nat = false |- _ => apply Nat.leb_gt in H
                      end; first [done | lia]).

Lemma well_formed_step e s :
  Forall well_formed (sent s) → Forall well_formed (sent (step e s)).
Proof.
  intros H. destruct e as [| | | | | | | | | | | | |id|rid r];
    try (simpl; run_script; split_tests; new_request; fail).
  - cbn [step]. destruct (find _ _) as [t|]; [|done].
    destruct (t_due t <=? clock s)%Z; [|done].
    destruct (t_kind t); simpl; run_script; split_tests; new_request.
  - cbn [step]. destruct (take_request rid (pending s)) as [[k rest]|]; [|done].
    destruct k; simpl; run_script; split_tests; new_request.
Qed.

Lemma well_formed_mounted tok : Forall well_formed (sent (mounted tok)).
Proof. unfold mounted. run_script. split_tests; new_request. Qed.

Lemma well_formed_exec es s :
  Forall well_formed (sent s) → Forall well_formed (sent (exec es s)).
Proof.
  revert s. induction es as [|e es IH]; intros s H; [done|].
  simpl. apply IH. by apply well_formed_step.
Qed.

(** X13: every request the page issues, in any run from any stored token,
    has the method, path and body of its kind; a memo save carries a
    trimmed content that is not empty, and at least three characters when
    an autosave creates the memo; a memo is addressed by an identifier
    other than 0; the login request carries no `Authorization` header and
    any other request none or `Bearer <token>` with a token that is not
    empty. *)
Theorem requests_are_well_formed tok es q :
  q ∈ sent (exec es (mounted tok)) → shape q ∧ bearer_or_none q.
Proof.
  intros Hin.
  pose proof (well_formed_exec es _ (well_formed_mounted tok)) as Hall.
  rewrite Forall_forall in Hall. exact (Hall q Hin).
Qed.

(** *** The page's writes, as the worker takes them *)

Lemma clip_save_served env amb (r : Worker.Request) w t :
  Worker.method r = "POST" → Worker.pathname r = "/api/clip" →
  Worker.json_body r = Some (JObj [("text", JStr t)]) →
  WorkerSpec.authenticated amb r w = true →
  (Worker.fetch env amb r w).1
  = Worker.jsonResponse
      (JObj [("text", JStr t); ("created_at", JStr (Worker.iso_now amb))]) 201.
Proof.
  intros Hm Hp Hb Ha.
  rewrite WorkerFacts.fetch_past_auth; try done.
  - rewrite WorkerFacts.routes_clip by done. unfold Worker.clip_or_not_found.
    rewrite Hm, Hp. cbn.
    rewrite (WorkerFacts.save_clip_run env amb r _ t); [done|]. by rewrite Hb.
  - by rewrite Hm.
  - by rewrite Hp.
  - rewrite Hp. by intros [? _].
Qed.

Lemma memo_create_served env amb (r : Worker.Request) w c :
  Worker.method r = "POST" → Worker.pathname r = "/api/memos" →
  Worker.json_body r = Some (JObj [("content", JStr c)]) →
  WorkerSpec.authenticated amb r w = true →
  (Worker.fetch env amb r w).1
  = Worker.jsonResponse
      (Worker.row_json (mkMemo (Worker.last_row_id (Worker.DB w) + 1) c
                          (Worker.iso_now amb) (Worker.iso_now amb))) 201.
Proof.
  intros Hm Hp Hb Ha.
  rewrite WorkerFacts.fetch_past_auth; try done.
  - rewrite WorkerFacts.routes_create by done.
    rewrite WorkerFacts.create_memo_run, Hb. cbn.
    by rewrite (proj1 (WorkerFacts.past_auth_stores amb r w)).
  - by rewrite Hm.
  - by rewrite Hp.
  - rewrite Hp. by intros [? _].
Qed.

Lemma memo_update_served env amb (r : Worker.Request) w i c :
  Worker.method r = "PUT" → Worker.pathname r = "/api/memos/" +:+ pretty i →
  Worker.json_body r = Some (JObj [("content", JStr c)]) →
  WorkerSpec.authenticated amb r w = true →
  (Worker.fetch env amb r w).1
  = match Worker.db_first i (Worker.DB w) with
    | Some old =>
        Worker.jsonResponse
          (Worker.row_json (mkMemo i c (m_created_at old) (Worker.iso_now amb))) 200
    | None => Worker.jsonResponse (Worker.error_json "not_found") 404
    end.
Proof.
  intros Hm Hp Hb Ha.
  rewrite (WorkerMoreFacts.fetch_update env amb r w (pretty i)); try done;
    [|apply WorkerMoreFacts.pretty_not_empty|apply WorkerMoreFacts.all_digits_pretty].
  rewrite WorkerMoreFacts.Number_of_digits_pretty.
  rewrite (WorkerFacts.update_memo_run amb r _ i c) by (by rewrite Hb).
  rewrite (proj1 (WorkerFacts.past_auth_stores amb r w)).
  by destruct (Worker.db_first i (Worker.DB w)).
Qed.

Lemma memo_delete_served env amb (r : Worker.Request) w i :
  Worker.method r = "DELETE" → Worker.pathname r = "/api/memos/" +:+ pretty i →
  WorkerSpec.authenticated amb r w = true →
  (Worker.fetch env amb r w).1
  = match Worker.db_first i (Worker.DB w) with
    | Some _ => {| Worker.status := 204; Worker.body := None |}
    | None => Worker.jsonResponse (Worker.error_json "not_found") 404
    end.
Proof.
  intros Hm Hp Ha.
  rewrite (WorkerMoreFacts.fetch_delete env amb r w (pretty i)); try done;
    [|apply WorkerMoreFacts.pretty_not_empty|apply WorkerMoreFacts.all_digits_pretty].
  rewrite WorkerMoreFacts.Number_of_digits_pretty.
  rewrite WorkerFacts.delete_memo_run.
  rewrite (proj1 (WorkerFacts.past_auth_stores amb r w)).
  by destruct (Worker.db_first i (Worker.DB w)).
Qed.

(** X14: page and worker agree on the writes.  Whatever write the page
    issues in any run, the worker, handed that request under a live
    session, never answers `invalid_payload`: a create is answered 201
    with the content sent, an update or delete reaches the identifier the
    page addressed (200 or 204 when the row exists, 404 otherwise), and a
    clip write is answered 201 with the text sent. *)
Theorem page_writes_are_accepted tok es q env amb w :
  q ∈ sent (exec es (mounted tok)) →
  WorkerSpec.authenticated amb (to_request q) w = true →
  let resp := (Worker.fetch env amb (to_request q) w).1 in
  match s_call q with
  | SaveMemoPost c _ _ =>
      resp = Worker.jsonResponse
               (Worker.row_json (mkMemo (Worker.last_row_id (Worker.DB w) + 1) c
                                   (Worker.iso_now amb) (Worker.iso_now amb))) 201
  | SaveMemoPut c _ _ =>
      ∃ i, i ≠ 0%N ∧ s_path q = "/api/memos/" +:+ pretty i
        ∧ resp = match Worker.db_first i (Worker.DB w) with
                 | Some old =>
                     Worker.jsonResponse
                       (Worker.row_json
                          (mkMemo i c (m_created_at old) (Worker.iso_now amb))) 200
                 | None => Worker.jsonResponse (Worker.error_json "not_found") 404
                 end
  | DeleteMemo =>
      ∃ i, i ≠ 0%N ∧ s_path q = "/api/memos/" +:+ pretty i
        ∧ resp = match Worker.db_first i (Worker.DB w) with
                 | Some _ => {| Worker.status := 204; Worker.body := None |}
                 | None => Worker.jsonResponse (Worker.error_json "not_found") 404
                 end
  | SaveClip | AutosaveClip | ClearClip =>
      ∃ t, s_body q = Some (JObj [("text", JStr t)])
        ∧ resp = Worker.jsonResponse
                   (JObj [("text", JStr t); ("created_at", JStr (Worker.iso_now amb))]) 201
  | LoadMemos | LoadClip | Login => True
  end.
Proof.
  intros Hin Ha resp. subst resp.
  pose proof (well_formed_exec es _ (well_formed_mounted tok)) as Hall.
  rewrite Forall_forall in Hall. destruct (Hall q Hin) as [Hshape _].
  unfold shape in Hshape. destruct (s_call q); try done.
  - destruct Hshape as (Hm & (i & Hi & Hp) & Hb & _). exists i.
    split; [done|]. split; [done|]. by apply memo_update_served.
  - destruct Hshape as (Hm & Hp & Hb & _). by apply memo_create_served.
  - destruct Hshape as (Hm & Hp & t & Hb). exists t. split; [done|].
    by apply clip_save_served.
  - destruct Hshape as (Hm & Hp & t & Hb). exists t. split; [done|].
    by apply clip_save_served.
  - destruct Hshape as (Hm & Hp & Hb). exists "". split; [done|].
    by apply clip_save_served.
  - destruct Hshape as (Hm & (i & Hi & Hp) & Hb). exists i.
    split; [done|]. split; [done|]. by apply memo_delete_served.
Qed.

(** *** Requests in flight *)

Lemma take_request_Forall (P : positive * Call → Prop) rid l k rest :
  take_request rid l = Some (k, rest) → Forall P l → Forall P rest.
Proof.
  revert k rest. induction l as [|[i k0] l IH]; intros k rest; simpl; [done|].
  rewrite Forall_cons. case_bool_decide.
  - intros [= -> ->] [_ Hl]. done.
  - destruct (take_request rid l) as [[k' rest']|]; [|done].
    intros [= -> <-] [H1 H2]. apply Forall_cons. split; [done|]. by eapply IH.
Qed.

Lemma take_request_last rid l k :
  Forall (λ p, (p.1 < rid)%positive) l →
  take_request rid (l ++ [(rid, k)]) = Some (k, l).
Proof.
  induction l as [|[i k0] l IH]; simpl.
  - intros _. by rewrite bool_decide_true.
  - rewrite Forall_cons. simpl. intros [H1 H2].
    rewrite bool_decide_false by lia. by rewrite IH.
Qed.

Lemma fresh_later (n n' : positive) (l : list (positive * Call)) :
  (n ≤ n')%positive →
  Forall (λ p, (p.1 < n)%positive) l → Forall (λ p, (p.1 < n')%positive) l.
Proof.
  intros Hn H. eapply Forall_impl; [exact H|]. intros p Hp. simpl in *. lia.
Qed.

Ltac still_fresh H :=
  unfold fresh in *; cbn;
  repeat (rewrite Forall_app; split);
  first [ exact H
        | (eapply fresh_later; [|exact H]; lia)
        | (repeat (apply Forall_cons; split); [cbn; lia..|apply Forall_nil_2]) ].

Lemma fresh_step e s : fresh s → fresh (step e s).
Proof.
  intros H. destruct e as [| | | | | | | | | | | | |id|rid r];
    try (simpl; run_script; split_tests; still_fresh H; fail).
  - cbn [step]. destruct (find _ _) as [t|]; [|done].
    destruct (t_due t <=? clock s)%Z; [|done].
    destruct (t_kind t); simpl; run_script; split_tests; still_fresh H.
  - cbn [step]. destruct (take_request rid (pending s)) as [[k rest]|] eqn:E; [|done].
    pose proof (take_request_Forall _ _ _ _ _ E H) as H'.
    destruct k; simpl; run_script; split_tests; still_fresh H'.
Qed.

Lemma fresh_mounted tok : fresh (mounted tok).
Proof.
  unfold mounted, fresh. run_script. split_tests; [apply Forall_nil_2|].
  repeat (apply Forall_cons; split); [cbn; lia..|apply Forall_nil_2].
Qed.

Lemma fresh_exec es s : fresh s → fresh (exec es s).
Proof.
  revert s. induction es as [|e es IH]; intros s H; [done|].
  simpl. apply IH. by apply fresh_step.
Qed.

(** *** Deleting a memo *)

Lemma settle_issued m p b k r s :
  fresh s →
  step (Settle (next_request s) r) (apiFetch m p b k s)
  = settled k r
      (set_requests (pending s) (Pos.succ (next_request s)) (sent (apiFetch m p b k s)) s).
Proof.
  intros H. cbn [step]. unfold apiFetch at 1 2. cbn [pending set_requests].
  rewrite take_request_last by exact H. done.
Qed.

Lemma settle_last rid l k r s :
  pending s = (l ++ [(rid, k)])%list →
  Forall (λ p, (p.1 < rid)%positive) l →
  step (Settle rid r) s
  = settled k r (set_requests l (next_request s) (sent s) s).
Proof.
  intros Hp H. cbn [step]. rewrite Hp, take_request_last by exact H. done.
Qed.

Lemma elem_of_filter_selected (x : MemoRow) (sel : option N) (l : list MemoRow) i :
  sel = Some i →
  x ∈ filter (λ memo, Some (m_id memo) ≠ sel) l ↔ x ∈ l ∧ m_id x ≠ i.
Proof.
  intros ->. rewrite list_elem_of_filter. split; intros [H1 H2]; split; try done.
  - intros E. apply H1. by rewrite E.
  - intros [= E]. done.
Qed.

(** X15: with a memo selected, a declined confirmation does nothing; a
    confirmed one sends one `DELETE` for the selected identifier and
    touches neither list nor editor.  When the reply is 2xx the list loses
    the memo and the editor shows the first memo left, or a blank new one;
    but the memo dropped is the one selected when the reply arrives: after
    a click on another memo in between, that memo leaves the list instead.
    A failure or a 401 leaves list and editor alone (the 401 clears the
    token). *)
Theorem delete_round tok es i :
  let s := exec es (mounted tok) in
  selected s = Some i →
  let s1 := step (ClickDelete true) s in
  let rid := next_request s in
  step (ClickDelete false) s = s
  ∧ sent s1
    = (sent s ++
       [{| s_method := "DELETE"; s_path := "/api/memos/" +:+ pretty i;
           s_authorization := bearer_header (token s);
           s_body := None; s_call := DeleteMemo |}])%list
  ∧ memos s1 = memos s ∧ same_editor s s1
  ∧ (∀ payload,
       let s2 := step (Settle rid (Ok payload)) s1 in
       (∀ x, x ∈ memos s2 ↔ x ∈ memos s ∧ m_id x ≠ i)
       ∧ match memos s2 with
         | first :: _ => shows first s2
         | [] => blank s2
         end)
  ∧ (∀ m payload,
       let s2 := step (Settle rid (Ok payload)) (step (ClickMemo m) s1) in
       ∀ x, x ∈ memos s2 ↔ x ∈ memos s ∧ m_id x ≠ m_id m)
  ∧ (let s2 := step (Settle rid Failed) s1 in
     memos s2 = memos s ∧ same_editor s s2 ∧ token s2 = token s)
  ∧ (let s2 := step (Settle rid Unauthorized) s1 in
     memos s2 = memos s ∧ same_editor s s2 ∧ token s2 = "").
Proof.
  intros s Hsel s1 rid.
  assert (fresh s) as Hf by apply fresh_exec, fresh_mounted.
  assert (s1 = apiFetch "DELETE" ("/api/memos/" +:+ pretty i) None DeleteMemo s) as Hs1.
  { unfold s1. cbn [step]. unfold deleteMemo. by rewrite Hsel. }
  destruct (selected_Some s i Hsel) as [Hi Hid].
  split. { cbn [step]. unfold deleteMemo. by rewrite Hsel. }
  split. { by rewrite Hs1. }
  split. { by rewrite Hs1. }
  split. { by rewrite Hs1. }
  split; [|split; [|split]].
  - intros payload s2. unfold s2, rid. rewrite Hs1, settle_issued by done.
    cbn [settled]. unfold deleteMemo_settled, apiFetch_settled. cbn.
    split.
    + intros x. destruct (filter _ (memos s)) eqn:E.
      all: cbn; rewrite <- E; by apply elem_of_filter_selected.
    + destruct (filter _ (memos s)); cbn; done.
  - intros m payload s2 x. unfold s2, rid.
    rewrite (settle_last rid (pending s) DeleteMemo); [|by rewrite Hs1|exact Hf].
    cbn [settled step]. unfold deleteMemo_settled, apiFetch_settled. rewrite Hs1. cbn.
    destruct (filter _ (memos s)) eqn:E.
    all: cbn; rewrite <- E; by apply elem_of_filter_selected.
  - unfold rid. rewrite Hs1, settle_issued by done. done.
  - unfold rid. rewrite Hs1, settle_issued by done. done.
Qed.

(** *** Refreshing *)

Lemma take_request_at rid l k l' :
  Forall (λ p, (p.1 < rid)%positive) l →
  take_request rid (l ++ (rid, k) :: l') = Some (k, (l ++ l')%list).
Proof.
  induction l as [|[i k0] l IH]; simpl.
  - intros _. by rewrite bool_decide_true.
  - rewrite Forall_cons. simpl. intros [H1 H2].
    rewrite bool_decide_false by lia. by rewrite IH.
Qed.

(** X16: a refresh sends `GET /api/memos` and `GET /api/clip` in one turn.
    The list reply replaces the list; it replaces the editor, dirty or not,
    by the first memo exactly when no memo is selected and the list is not
    empty, and otherwise leaves the editor as it is.  The clip reply
    replaces the clip text and its snapshot; a failed reply changes
    neither list, editor nor clip. *)
Theorem refresh_round tok es :
  let s := exec es (mounted tok) in
  let s1 := step ClickRefresh s in
  let rid := next_request s in
  sent s1
  = (sent s ++
     [{| s_method := "GET"; s_path := "/api/memos";
         s_authorization := bearer_header (token s); s_body := None;
         s_call := LoadMemos |};
      {| s_method := "GET"; s_path := "/api/clip";
         s_authorization := bearer_header (token s); s_body := None;
         s_call := LoadClip |}])%list
  ∧ (∀ data,
       let s2 := step (Settle rid (Ok (PMemos data))) s1 in
       memos s2 = data
       ∧ match selected s, data with
         | None, first :: _ => shows first s2
         | _, _ => same_editor s s2
         end)
  ∧ (∀ c,
       let s2 := step (Settle (Pos.succ rid) (Ok (PClip c))) s1 in
       clipText s2 = default "" (text c) ∧ clip_unchanged s2
       ∧ memos s2 = memos s ∧ same_editor s s2)
  ∧ (∀ r, r = Failed ∨ r = Unauthorized →
       let s2 := step (Settle rid r) s1 in
       let s3 := step (Settle (Pos.succ rid) r) s1 in
       memos s2 = memos s ∧ same_editor s s2
       ∧ clipText s3 = clipText s ∧ clipLastSavedText s3 = clipLastSavedText s).
Proof.
  intros s s1 rid.
  assert (fresh s) as Hf by apply fresh_exec, fresh_mounted.
  assert (pending s1 = (pending s ++ [(rid, LoadMemos); (Pos.succ rid, LoadClip)])%list)
    as Hp.
  { unfold s1. cbn. by rewrite <- app_assoc. }
  assert (take_request rid (pending s1) = Some (LoadMemos, (pending s ++ [(Pos.succ rid, LoadClip)])%list))
    as H1.
  { rewrite Hp. by apply take_request_at. }
  assert (take_request (Pos.succ rid) (pending s1)
          = Some (LoadClip, (pending s ++ [(rid, LoadMemos)])%list)) as H2.
  { rewrite Hp. change ([(rid, LoadMemos); (Pos.succ rid, LoadClip)])
      with ([(rid, LoadMemos)] ++ [(Pos.succ rid, LoadClip)])%list.
    rewrite app_assoc, take_request_at; [by rewrite app_nil_r|].
    apply Forall_app. split.
    - eapply fresh_later; [|exact Hf]. unfold rid. lia.
    - apply Forall_cons. split; [cbn; lia|apply Forall_nil_2]. }
  split. { unfold s1. cbn. by rewrite <- app_assoc. }
  split; [|split].
  - intros data s2. unfold s2. cbn [step]. rewrite H1. cbn [settled].
    unfold loadMemos_settled, apiFetch_settled, selected. cbn.
    destruct (selectedId s) as [i|] eqn:E; [case_bool_decide|];
      destruct data; cbn; rewrite ?E; done.
  - intros c s2. unfold s2. cbn [step]. rewrite H2. cbn [settled]. done.
  - intros r Hr s2 s3. unfold s2, s3. cbn [step]. rewrite H1, H2. cbn [settled].
    destruct Hr as [-> | ->]; done.
Qed.

(** *** Leaving a draft *)

Lemma timers_keep_memo ids s :
  memo_unchanged s →
  sent_by is_memo_save (exec (map Timeout ids) s) = sent_by is_memo_save s.
Proof.
  revert s. induction ids as [|id ids IH]; intros s H; [done|]. simpl.
  destruct (timeout_memo_unchanged id s H) as [Hs Hu]. by rewrite IH.
Qed.

Lemma timers_keep_all ids s :
  memo_unchanged s → clip_unchanged s → sent (exec (map Timeout ids) s) = sent s.
Proof.
  revert s. induction ids as [|id ids IH]; intros s Hm Hc; [done|]. simpl.
  destruct (timeout_both_unchanged id s Hm Hc) as (Hs & Hm' & Hc'). by rewrite IH.
Qed.

(** X17: selecting a memo, starting a new one and signing out replace the
    draft without sending it and without clearing the armed timers; those
    timers then send no memo save however often they fire, and after a
    sign-out they send nothing at all. *)
Theorem leaving_drops_the_draft s ids :
  (∀ m, let s' := step (ClickMemo m) s in
        shows m s' ∧ sent s' = sent s ∧ timeouts s' = timeouts s
        ∧ sent_by is_memo_save (exec (map Timeout ids) s') = sent_by is_memo_save s)
  ∧ (let s' := step ClickNew s in
     blank s' ∧ sent s' = sent s ∧ timeouts s' = timeouts s
     ∧ sent_by is_memo_save (exec (map Timeout ids) s') = sent_by is_memo_save s)
  ∧ (let s' := step ClickSignOut s in
     blank s' ∧ token s' = "" ∧ memos s' = [] ∧ clipText s' = ""
     ∧ sent s' = sent s ∧ timeouts s' = timeouts s ∧ pending s' = pending s
     ∧ sent (exec (map Timeout ids) s') = sent s).
Proof.
  split; [|split].
  - intros m s'. repeat split; try done.
    rewrite timers_keep_memo; [done|]. by left.
  - intros s'. repeat split; try done.
    rewrite timers_keep_memo; [done|]. by left.
  - intros s'. repeat split; try done.
    rewrite timers_keep_all; [done|by left|done].
Qed.

(** *** Signing in, end to end *)

Lemma login_reply_token t :
  login_reply (Worker.jsonResponse (JObj [("token", JStr t)]) 200) = Ok (PToken (Some t)).
Proof. reflexivity. Qed.

Lemma login_reply_refused code :
  login_reply (Worker.jsonResponse (Worker.error_json code) 401) = Failed.
Proof. reflexivity. Qed.

(** X18: signing in, end to end.  The page sends the typed password without
    a bearer header; when it is the configured password (not empty), the
    page stores the worker's token, clears the password box and sends the
    two refresh requests, which the worker authenticates for as long as
    the session lives (the token being, as a UUID is, not empty and free of
    spaces); otherwise the worker's stores, the token and the password box
    stay as they were and nothing more is sent. *)
Theorem login_round tok es env amb w :
  WorkerMore.no_space (Worker.uuid amb) = true → Worker.uuid amb ≠ "" →
  let s := exec es (mounted tok) in
  let q := {| s_method := "POST"; s_path := "/api/login"; s_authorization := None;
              s_body := Some (JObj [("password", JStr (loginPassword s))]);
              s_call := Login |} in
  let s1 := step ClickLogin s in
  let out := Worker.fetch env amb (to_request q) w in
  let s2 := step (Settle (next_request s) (login_reply out.1)) s1 in
  sent s1 = (sent s ++ [q])%list
  ∧ if bool_decide (loginPassword s ≠ "" ∧ loginPassword s = Worker.APP_PASSWORD env)
    then token s2 = Worker.uuid amb ∧ loginPassword s2 = ""
         ∧ (∃ q1 q2, sent s2 = (sent s1 ++ [q1; q2])%list
              ∧ s_call q1 = LoadMemos ∧ s_call q2 = LoadClip
              ∧ ∀ amb', Worker.now amb' < Worker.now amb
                          + Worker.getNumberEnv (Worker.SESSION_TTL_SECONDS env)
                              (60 * 60 * 24 * 7) →
                  WorkerSpec.authenticated amb' (to_request q1) out.2 = true
                  ∧ WorkerSpec.authenticated amb' (to_request q2) out.2 = true)
    else out.2 = w ∧ token s2 = token s ∧ loginPassword s2 = loginPassword s
         ∧ sent s2 = sent s1.
Proof.
  intros Hns Hne s q s1 out s2.
  assert (fresh s) as Hf by apply fresh_exec, fresh_mounted.
  assert (WorkerMore.password_ok env (to_request q)
          = bool_decide (loginPassword s ≠ "" ∧ loginPassword s = Worker.APP_PASSWORD env))
    as Hok.
  { unfold WorkerMore.password_ok. cbn. unfold as_string. cbn.
    repeat case_bool_decide; simplify_eq; try done; by intuition. }
  assert (s2 = login_settled (login_reply out.1)
                 (set_requests (pending s) (Pos.succ (next_request s)) (sent s1) s))
    as Hs2.
  { unfold s2. rewrite (settle_last (next_request s) (pending s) Login); [done|done|exact Hf]. }
  split; [done|].
  rewrite <- Hok. clear Hok.
  destruct (WorkerMore.password_ok env (to_request q)) eqn:Hok.
  - destruct (WorkerMoreFacts.login_granted env amb (to_request q) w eq_refl eq_refl Hok)
      as [Hr Hkv]. fold out in Hr, Hkv.
    rewrite Hs2, Hr, login_reply_token. unfold login_settled.
    rewrite bool_decide_false by done. cbn.
    split; [done|]. split; [done|].
    eexists _, _. split; [by rewrite <- app_assoc|]. split; [done|]. split; [done|].
    intros amb' Hlt.
    assert (∀ r', Worker.authorization r' = Some ("Bearer " +:+ Worker.uuid amb) →
                  WorkerSpec.authenticated amb' r' out.2 = true) as Hauth.
    { intros r' Hh.
      rewrite (WorkerMoreFacts.session_live amb' r' _ _ _
                 (WorkerMoreFacts.getBearerToken_bearer r' _ Hne Hns Hh) Hkv).
      cbn. by rewrite bool_decide_true. }
    split; apply Hauth; cbn; by rewrite bool_decide_false.
  - pose proof (WorkerMoreFacts.login_refused env amb (to_request q) w eq_refl eq_refl Hok)
      as Hr. fold out in Hr.
    rewrite Hs2, Hr. cbn [fst snd]. rewrite login_reply_refused. done.
Qed.

(** *** Searching the list *)

Lemma prefix_spec q s : String.prefix q s = true ↔ ∃ b, s = q +:+ b.
Proof.
  revert s. induction q as [|c q IH]; intros [|c' s]; simpl.
  - split; [by exists ""|done].
  - split; [|done]. intros _. by exists (String c' s).
  - split; [done|]. by intros [b Hb].
  - destruct (Ascii.ascii_dec c c') as [->|Hc].
    + rewrite IH. split; intros [b Hb]; exists b.
      * change (String c' q +:+ b) with (String c' (q +:+ b)). by rewrite Hb.
      * change (String c' q +:+ b) with (String c' (q +:+ b)) in Hb. by simplify_eq.
    + split; [done|]. intros [b Hb].
      change (String c q +:+ b) with (String c (q +:+ b)) in Hb. by simplify_eq.
Qed.

Lemma str_includes_spec s q :
  str_includes s q = true ↔ ∃ a b, s = a +:+ q +:+ b.
Proof.
  induction s as [|c s IH].
  - cbn [str_includes]. rewrite orb_false_r, prefix_spec. split.
    + intros [b Hb]. by exists "", b.
    + intros ([|x a] & b & Hb); [by exists b|done].
  - cbn [str_includes]. rewrite orb_true_iff, prefix_spec, IH. split.
    + intros [[b Hb]|(a & b & Hb)].
      * by exists "", b.
      * exists (String c a), b. by rewrite Hb.
    + intros ([|x a] & b & Hb).
      * left. by exists b.
      * right. exists a, b.
        change (String x a +:+ q +:+ b) with (String x (a +:+ q +:+ b)) in Hb.
        by simplify_eq.
Qed.

Lemma lower_char_white c : is_white (lower_char c) = is_white c.
Proof. destruct c as [[] [] [] [] [] [] [] []]; reflexivity. Qed.

Lemma lower_char_idem c : lower_char (lower_char c) = lower_char c.
Proof. destruct c as [[] [] [] [] [] [] [] []]; reflexivity. Qed.

Lemma toLowerCase_idem s : toLowerCase (toLowerCase s) = toLowerCase s.
Proof. induction s as [|c s IH]; [done|]. simpl. by rewrite lower_char_idem, IH. Qed.

Lemma toLowerCase_app a b : toLowerCase (a +:+ b) = toLowerCase a +:+ toLowerCase b.
Proof.
  induction a as [|c a IH]; [done|].
  change (String c a +:+ b) with (String c (a +:+ b)). simpl. by rewrite IH.
Qed.

Lemma toLowerCase_rev s : toLowerCase (String.rev s) = String.rev (toLowerCase s).
Proof.
  induction s as [|c s IH]; [done|]. simpl toLowerCase at 2.
  by rewrite !rev_cons, toLowerCase_app, IH.
Qed.

Lemma toLowerCase_trim_start s :
  toLowerCase (trim_start s) = trim_start (toLowerCase s).
Proof.
  induction s as [|c s IH]; [done|]. simpl. rewrite lower_char_white.
  by destruct (is_white c).
Qed.

Lemma toLowerCase_trim s : toLowerCase (trim s) = trim (toLowerCase s).
Proof.
  unfold trim.
  by rewrite toLowerCase_rev, toLowerCase_trim_start, toLowerCase_rev,
    toLowerCase_trim_start.
Qed.

Lemma toLowerCase_empty s : toLowerCase s = "" ↔ s = "".
Proof. by destruct s. Qed.

(** X19: [filteredMemos] returns the whole list for a blank query, and
    otherwise exactly the memos whose lower-cased content contains the
    lower-cased trimmed query, in list order; the result depends neither on
    the case of the query nor on blanks around it. *)
Theorem search_filter q memos :
  (trim q = "" → filteredMemos q memos = memos)
  ∧ (trim q ≠ "" →
     ∀ m, m ∈ filteredMemos q memos
          ↔ m ∈ memos
            ∧ ∃ a b, toLowerCase (m_content m) = a +:+ toLowerCase (trim q) +:+ b)
  ∧ filteredMemos (toLowerCase q) memos = filteredMemos q memos
  ∧ filteredMemos (trim q) memos = filteredMemos q memos
  ∧ filteredMemos q memos `sublist_of` memos.
Proof.
  split; [|split; [|split; [|split]]].
  - intros H. unfold filteredMemos. by rewrite H.
  - intros H m. unfold filteredMemos.
    rewrite bool_decide_false by (by rewrite toLowerCase_empty).
    rewrite list_elem_of_filter, str_includes_spec. tauto.
  - unfold filteredMemos. by rewrite <- toLowerCase_trim, toLowerCase_idem.
  - unfold filteredMemos. by rewrite trim_idempotent.
  - unfold filteredMemos. case_bool_decide; [done|]. apply sublist_filter.
Qed.

(** *** Addresses *)

Lemma strip_slash_added s : strip_slash (s +:+ "/") = s.
Proof.
  unfold strip_slash. rewrite rev_sapp.
  change (String.rev "/" +:+ String.rev s) with (String "/" (String.rev s)).
  apply rev_involutive.
Qed.

Lemma trim_slash s : trim s = s → trim (s +:+ "/") = s +:+ "/".
Proof.
  intros H. destruct (trim_clean s) as [H1 _]. rewrite H in H1.
  apply trim_id.
  - destruct s; [done|exact H1].
  - rewrite rev_sapp. reflexivity.
Qed.

(** X20: [buildApiUrl] returns the path itself when no base is configured
    (undefined, empty or a lone slash); otherwise base and path are joined
    by exactly one slash whether or not the path starts with one, and one
    trailing slash on the base makes no difference. *)
Theorem buildApiUrl_join base path :
  (NORMALIZED_API_BASE base = "" → buildApiUrl base path = path)
  ∧ (NORMALIZED_API_BASE base ≠ "" →
     buildApiUrl base ("/" +:+ path) = NORMALIZED_API_BASE base +:+ "/" +:+ path
     ∧ (String.prefix "/" path = false →
        buildApiUrl base path = buildApiUrl base ("/" +:+ path)))
  ∧ (∀ b, base = Some b → trim b = b → strip_slash b = b →
       buildApiUrl (Some (b +:+ "/")) path = buildApiUrl base path)
  ∧ (base = None ∨ base = Some "" ∨ base = Some "/" → buildApiUrl base path = path).
Proof.
  split; [|split; [|split]].
  - intros H. unfold buildApiUrl. by rewrite bool_decide_true.
  - intros H. unfold buildApiUrl. rewrite bool_decide_false by done.
    split.
    + by rewrite (proj2 (prefix_spec "/" ("/" +:+ path))) by (by exists path).
    + intros ->. by rewrite (proj2 (prefix_spec "/" ("/" +:+ path))) by (by exists path).
  - intros b -> Ht Hs.
    assert (NORMALIZED_API_BASE (Some (b +:+ "/")) = NORMALIZED_API_BASE (Some b)) as E.
    { unfold NORMALIZED_API_BASE. cbn [default from_option id].
      by rewrite trim_slash, strip_slash_added, Ht, Hs. }
    unfold buildApiUrl. by rewrite E.
  - intros [-> | [-> | ->]]; reflexivity.
Qed.

(** *** On concrete runs *)

Lemma requests_are_well_formed_witness :
  shape {| s_method := "POST"; s_path := "/api/memos";
           s_authorization := Some "Bearer tok";
           s_body := Some (JObj [("content", JStr "hello")]);
           s_call := SaveMemoPost "hello" true true |}
  ∧ bearer_or_none {| s_method := "POST"; s_path := "/api/memos";
                      s_authorization := Some "Bearer tok";
                      s_body := Some (JObj [("content", JStr "hello")]);
                      s_call := SaveMemoPost "hello" true true |}.
Proof.
  apply (requests_are_well_formed "tok"
           [Settle 1 (Ok (PMemos [])); Settle 2 (Ok (PClip no_clip));
            Input "  hello "; Tick 5000; Timeout 1]).
  vm_compute. repeat constructor.
Defined.

Lemma page_writes_are_accepted_witness :
  (Worker.fetch WorkerSpec.env0 (WorkerSpec.at_ 5 "t5")
     (to_request {| s_method := "POST"; s_path := "/api/memos";
                    s_authorization := Some "Bearer tok";
                    s_body := Some (JObj [("content", JStr "hello")]);
                    s_call := SaveMemoPost "hello" false false |}) WorkerSpec.w0).1
  = Worker.jsonResponse (Worker.row_json (mkMemo 1 "hello" "t5" "t5")) 201.
Proof.
  apply (page_writes_are_accepted "tok"
           [Settle 1 (Ok (PMemos [])); Settle 2 (Ok (PClip no_clip));
            Input "  hello "; ClickSave]
           {| s_method := "POST"; s_path := "/api/memos";
              s_authorization := Some "Bearer tok";
              s_body := Some (JObj [("content", JStr "hello")]);
              s_call := SaveMemoPost "hello" false false |}
           WorkerSpec.env0 (WorkerSpec.at_ 5 "t5") WorkerSpec.w0).
  - vm_compute. repeat constructor.
  - vm_compute. reflexivity.
Defined.

Lemma delete_round_witness :
  step (ClickDelete false) ready_untrimmed = ready_untrimmed.
Proof.
  pose proof (delete_round "tok"
                [Settle 1 (Ok (PMemos [mkMemo 1 " a" "t1" "t1"]));
                 Settle 2 (Ok (PClip no_clip))] 1) as H.
  cbv zeta in H. apply H. vm_compute. reflexivity.
Defined.

Lemma login_round_witness :
  sent (step ClickLogin (exec [TypePassword "secret"] (mounted "")))
  = [{| s_method := "POST"; s_path := "/api/login"; s_authorization := None;
        s_body := Some (JObj [("password", JStr "secret")]); s_call := Login |}].
Proof.
  pose proof (login_round "" [TypePassword "secret"] WorkerSpec.env0
                (WorkerSpec.at_ 0 "t0") WorkerSpec.empty_world) as H.
  cbv zeta in H. apply H; [reflexivity|discriminate].
Defined.

End AppMoreFacts.

Module SetupFacts.
Import Setup StringFacts.

Lemma replace_all_app c by_ a b :
  replace_all c by_ (a +:+ b) = replace_all c by_ a +:+ replace_all c by_ b.
Proof.
  induction a as [|x a IH]; [done|].
  change (String x a +:+ b) with (String x (a +:+ b)). simpl.
  case_bool_decide; rewrite IH; [by rewrite sapp_assoc|done].
Qed.

Lemma escapeJson_cons x v : escapeJson (String x v) = escaped x +:+ escapeJson v.
Proof.
  unfold escapeJson, escaped. cbn [replace_all].
  case_bool_decide as Hb.
  - rewrite replace_all_app. subst x. reflexivity.
  - cbn [replace_all]. case_bool_decide; reflexivity.
Qed.

(** X21: [escapeJson] doubles each backslash and puts one before each
    quote, so that reading the two escapes back gives the value as typed;
    the output is never shorter and is the value itself when it holds
    neither character. *)
Theorem escapeJson_round_trip v :
  unescape (escapeJson v) = Some v
  ∧ (String.length v ≤ String.length (escapeJson v))%nat
  ∧ ((∀ a b, v ≠ a +:+ String backslash b) → (∀ a b, v ≠ a +:+ String quote b) →
     escapeJson v = v).
Proof.
  split; [|split].
  - induction v as [|x v IH]; [done|]. rewrite escapeJson_cons. unfold escaped.
    case_bool_decide as Hb; [|case_bool_decide as Hq].
    + subst x. change (unescape (String backslash (String backslash (escapeJson v))) = Some (String backslash v)).
      cbn [unescape]. rewrite !bool_decide_true by done. cbn. by rewrite IH.
    + subst x. change (unescape (String backslash (String quote (escapeJson v))) = Some (String quote v)).
      cbn [unescape]. rewrite bool_decide_true by done.
      rewrite (bool_decide_false (quote = backslash)) by done.
      rewrite bool_decide_true by done. cbn. by rewrite IH.
    + change (unescape (String x (escapeJson v)) = Some (String x v)).
      cbn [unescape]. rewrite !bool_decide_false by done. by rewrite IH.
  - induction v as [|x v IH]; [done|]. rewrite escapeJson_cons. unfold escaped.
    rewrite WorkerFacts.length_app.
    repeat case_bool_decide; cbn in *; lia.
  - induction v as [|x v IH]; [done|]. intros H1 H2. rewrite escapeJson_cons.
    unfold escaped. rewrite bool_decide_false, bool_decide_false.
    + change (String x (escapeJson v) = String x v). f_equal. apply IH.
      * intros a b ->. by apply (H1 (String x a) b).
      * intros a b ->. by apply (H2 (String x a) b).
    + intros ->. by apply (H2 "" v).
    + intros ->. by apply (H1 "" v).
Qed.

End SetupFacts.
